(** * A Rocq model of the task-tracking widget (src/app.js)

    The widget keeps a list of tasks in memory, mirrors it as JSON text in
    [localStorage] under the key "tasks", and redraws the page after every
    change.  This file embeds the program as executable Rocq functions:

    - JavaScript values, property reads, truthiness and [===] (only what
      the program uses);
    - the host functions the program calls: [Math.random().toString(36)],
      [String.prototype.substring], [Date.prototype.toISOString],
      [JSON.stringify] and [JSON.parse];
    - the classes [Task] and [TodoApp], method by method, in a small
      state-and-exception monad;
    - the properties of the specification, proved or refuted on that model.

    Strings are [String.string]: a JavaScript string is represented by the
    bytes of its UTF-8 encoding, so ASCII text is character-for-character
    the same and [length] counts characters on ASCII strings (identifiers,
    enum members, JSON punctuation). *)

From Stdlib Require Import ZArith NArith QArith Qround Qpower Lqa.
From Stdlib Require Import String Ascii List Lia.
From Stdlib Require Import DecimalString.
From stdpp Require Import base option list strings gmap.

#[local] Set Warnings "-register-all".
Local Open Scope string_scope.
Local Open Scope Z_scope.

(** ** JavaScript values *)

(** The prototype of an object: a plain object (object literal, or the
    result of [JSON.parse]) inherits from [Object.prototype]; an instance
    made by [new Task(...)] inherits from [Task.prototype]. *)
Inductive proto : Type :=
| ObjectPrototype
| TaskPrototype.

(** Values.  A Number is kept as the exact decimal [m * 10^e] that a JSON
    text denotes, not rounded to a double (the program never computes with
    the numbers of a task list, and no property below depends on them).
    A Date carries its time value, in milliseconds since the epoch.  The
    own enumerable properties of an object are listed in enumeration
    order. *)
Inductive value : Type :=
| VUndefined
| VNull
| VBool (b : bool)
| VNumber (m e : Z)
| VString (s : string)
| VDate (t : Z)
| VFunction (name : string)
| VArray (elems : list value)
| VObject (p : proto) (props : list (string * value)).

Inductive error : Type :=
| TypeError
| SyntaxError.

(** The outcome of evaluating an expression: a value or a thrown error. *)
Inductive completion (A : Type) : Type :=
| Return (a : A)
| Throw (e : error).
Arguments Return {A} a.
Arguments Throw {A} e.

Definition cbind {A B} (c : completion A) (k : A -> completion B) : completion B :=
  match c with
  | Return a => k a
  | Throw e => Throw e
  end.

(** [ToBoolean]. *)
Definition to_boolean (v : value) : bool :=
  match v with
  | VUndefined | VNull => false
  | VBool b => b
  | VNumber m _ => negb (m =? 0)
  | VString s => negb (String.eqb s "")
  | VDate _ | VFunction _ | VArray _ | VObject _ _ => true
  end.

(** [v === s] for a string [s]: true only for the same string. *)
Definition strict_equals_string (v : value) (s : string) : bool :=
  match v with
  | VString s' => String.eqb s' s
  | _ => false
  end.

(** Own property lookup in an ordered property list. *)
Fixpoint own_property (k : string) (props : list (string * value)) : option value :=
  match props with
  | [] => None
  | (k', v) :: rest => if String.eqb k' k then Some v else own_property k rest
  end.

(** The properties every object inherits from [Object.prototype]. *)
Definition object_prototype_functions : list string :=
  [ "constructor"; "hasOwnProperty"; "isPrototypeOf"; "propertyIsEnumerable";
    "toLocaleString"; "toString"; "valueOf";
    "__defineGetter__"; "__defineSetter__"; "__lookupGetter__"; "__lookupSetter__" ].

Definition string_mem (k : string) (l : list string) : bool :=
  existsb (String.eqb k) l.

(** [Object.prototype[k]]: a built-in function for the names above, the
    prototype object itself for the accessor [__proto__] (read on a plain
    object), [undefined] otherwise. *)
Definition object_prototype_get (k : string) : value :=
  if string_mem k object_prototype_functions then VFunction ("Object.prototype." ++ k)
  else if String.eqb k "__proto__" then VObject ObjectPrototype []
  else VUndefined.

(** [Task.prototype[k]], read on an instance: the class's constructor and
    its two methods, the prototype itself for [__proto__], then
    [Object.prototype]. *)
Definition task_prototype_get (k : string) : value :=
  if string_mem k ["constructor"; "updateStatus"; "calculatePriority"]
  then VFunction ("Task.prototype." ++ k)
  else if String.eqb k "__proto__" then VObject TaskPrototype []
  else object_prototype_get k.

Definition prototype_get (p : proto) (k : string) : value :=
  match p with
  | ObjectPrototype => object_prototype_get k
  | TaskPrototype => task_prototype_get k
  end.

(** [o[k]] on an object: own properties first, then the prototype chain. *)
Definition object_get (p : proto) (props : list (string * value)) (k : string) : value :=
  match own_property k props with
  | Some v => v
  | None => prototype_get p k
  end.

(** [v.k] for the property names the program reads on the elements of the
    task list ([id], [title], [category], [status], [updateStatus]).
    Reading a property of [undefined] or [null] throws a [TypeError].  No
    built-in prototype of a primitive, a Date, a function or an array
    defines one of these names, so the read yields [undefined] there. *)
Definition get_prop (v : value) (k : string) : completion value :=
  match v with
  | VUndefined | VNull => Throw TypeError
  | VObject p props => Return (object_get p props k)
  | _ => Return VUndefined
  end.

(** ** Arrays: the methods the program calls, with callbacks that may throw *)

Fixpoint array_filter (f : value -> completion bool) (l : list value)
  : completion (list value) :=
  match l with
  | [] => Return []
  | x :: rest =>
      cbind (f x) (fun keep =>
      cbind (array_filter f rest) (fun rest' =>
      Return (if keep then x :: rest' else rest')))
  end.

(** [find] stops at the first element the callback accepts; [None] stands
    for the [undefined] returned when there is none. *)
Fixpoint array_find (f : value -> completion bool) (l : list value)
  : completion (option (nat * value)) :=
  match l with
  | [] => Return None
  | x :: rest =>
      cbind (f x) (fun hit =>
      if hit then Return (Some (0%nat, x))
      else cbind (array_find f rest) (fun r =>
           Return (match r with
                   | Some (i, y) => Some (S i, y)
                   | None => None
                   end)))
  end.

(** ** Host functions on numbers and strings *)

(** Decimal text of a natural number, and fixed-width decimal text. *)
Definition decimal (n : Z) : string :=
  NilZero.string_of_uint (N.to_uint (Z.to_N n)).

Definition digit_char (d : Z) : ascii := ascii_of_N (Z.to_N (48 + d)).

Fixpoint pad (width : nat) (n : Z) : string :=
  match width with
  | O => ""
  | S w => pad w (n / 10) ++ String (digit_char (n mod 10)) ""
  end.

Fixpoint zeros (n : nat) : string :=
  match n with
  | O => ""
  | S k => String "0" (zeros k)
  end.

(** [s.substring(from, to)] for non-negative integer arguments: the
    characters at positions [min from to] up to (excluding) [max from to],
    both clamped to the length of [s]. *)
Definition js_substring (s : string) (from to : nat) : string :=
  String.substring (Nat.min from to) (Nat.max from to - Nat.min from to) s.

(** [s.trim()]: white space and line terminators are removed at both
    ends.  In UTF-8 they are the bytes 9 to 13 and 32, and the sequences of
    U+00A0, U+1680, U+2000 to U+200A, U+2028, U+2029, U+202F, U+205F,
    U+3000 and U+FEFF. *)
Definition ascii_space (c : ascii) : bool :=
  let n := N_of_ascii c in
  (((9 <=? n) && (n <=? 13)) || (n =? 32))%N.

Definition space3 (a b c : ascii) : bool :=
  let x := N_of_ascii a in
  let y := N_of_ascii b in
  let z := N_of_ascii c in
  (((x =? 225) && (y =? 154) && (z =? 128)) ||
   ((x =? 226) && (y =? 128) &&
    (((128 <=? z) && (z <=? 138)) || (z =? 168) || (z =? 169) || (z =? 175))) ||
   ((x =? 226) && (y =? 129) && (z =? 159)) ||
   ((x =? 227) && (y =? 128) && (z =? 128)) ||
   ((x =? 239) && (y =? 187) && (z =? 191)))%N.

Definition space2 (a b : ascii) : bool :=
  ((N_of_ascii a =? 194) && (N_of_ascii b =? 160))%N.

Fixpoint trim_start (s : string) : string :=
  match s with
  | String a rest1 =>
      if ascii_space a then trim_start rest1
      else match rest1 with
           | String b rest2 =>
               if space2 a b then trim_start rest2
               else match rest2 with
                    | String c rest3 => if space3 a b c then trim_start rest3 else s
                    | EmptyString => s
                    end
           | EmptyString => s
           end
  | EmptyString => s
  end.

Definition all_spaces (s : string) : bool := String.eqb (trim_start s) "".

Fixpoint trim_end (s : string) : string :=
  match s with
  | String c rest => if all_spaces s then "" else String c (trim_end rest)
  | EmptyString => ""
  end.

Definition trim (s : string) : string := trim_end (trim_start s).

(** *** Numbers

    A Number of JavaScript is a double (IEEE 754 binary64), and every
    arithmetic operation returns the double nearest to the exact result,
    the one with an even significand when two are as near.  A finite
    double is kept here as the rational number it is, and [RN] is that
    rounding: the number is scaled to a significand of 53 bits, which is
    rounded to the nearest integer, ties to even.  The exponent is not
    bounded: [RN] is the rounding of doubles as long as no result leaves
    their normal range (2^-1022 to 2^1024 in absolute value), which none
    does in the computations below (the bounds are given with each). *)
Definition pow2 (e : Z) : Q := (2 ^ e)%Q.

(** The binary exponent of a positive number [x]: the [e] with
    [2^e <= x < 2^(e+1)]. *)
Definition ilog2 (x : Q) : Z :=
  let k := Z.log2 (Qnum x) - Z.log2 (Zpos (Qden x)) in
  if Qle_bool (pow2 k) x then k else k - 1.

(** The integer nearest to [q], the even one of two that are as near. *)
Definition rne (q : Q) : Z :=
  let f := Qfloor q in
  match (q - inject_Z f ?= 1 # 2)%Q with
  | Lt => f
  | Gt => f + 1
  | Eq => if Z.even f then f else f + 1
  end.

Definition RN_pos (x : Q) : Q :=
  let e := ilog2 x in
  Qred (inject_Z (rne (x * pow2 (52 - e))) * pow2 (e - 52)).

Definition RN (x : Q) : Q :=
  match (x ?= 0)%Q with
  | Gt => RN_pos x
  | Lt => (- RN_pos (- x))%Q
  | Eq => 0%Q
  end.

Definition Qlt_bool (x y : Q) : bool := negb (Qle_bool y x).

(** *** [Math.random().toString(36)]

    [Math.random()] returns a double in [0, 1): the record stands for the
    double nearest to [rand_num / 2^rand_exp], which is that number
    itself when [rand_num < 2^53] (every double in [0, 1) is of that
    form, those that [Math.random] returns among them).  A record out of
    [random_in_range], or one of a number below 2^-1022 that is no
    multiple of 2^-1074, stands for no number that [Math.random]
    returns.

    ECMAScript leaves the digits of a fraction in a radix other than 10
    to the implementation.  [toString36] is the text that V8 (Chrome,
    Node.js) prints, by the algorithm of its [DoubleToRadixCString],
    which computes in doubles: [delta] is half the distance from the
    number to the next double; at every digit the fraction and [delta]
    are multiplied by 36, the integer part of the fraction is the digit,
    and the digits stop when the fraction is below [delta].  When, at a
    digit, the fraction is above one half (or one half after an odd
    digit) and within [delta] of 1, the text is rounded up: the last
    digit below "z" is increased and the digits after it are dropped; a
    carry through all the digits goes to the integer part.  The text is
    short when the number is near a short fraction: 1/2 is "0.i".

    The digits written are kept last first; [None] is the carry into the
    integer part.  The integer part, 0 for a number below 1, is printed
    digit by digit, as V8 does below 2^53. *)
Record random : Type := { rand_num : N; rand_exp : nat }.

Definition random_in_range (r : random) : bool :=
  (rand_num r <? 2 ^ N.of_nat (rand_exp r))%N.

Definition random_value (r : random) : Q :=
  RN (inject_Z (Z.of_N (rand_num r)) * pow2 (- Z.of_nat (rand_exp r))).

Definition digit36 (d : N) : ascii :=
  if (d <? 10)%N then ascii_of_N (48 + d) else ascii_of_N (87 + d).

(** Half the distance from a double to the next one, and not less than
    the least positive double, 2^-1074. *)
Definition half_gap (value : Q) : Q :=
  if Qle_bool value 0 then pow2 (-1074)
  else pow2 (Z.max (ilog2 value - 53) (-1074)).

Fixpoint carry (written : list N) : option (list N) :=
  match written with
  | [] => None
  | d :: rest => if (d + 1 <? 36)%N then Some ((d + 1)%N :: rest) else carry rest
  end.

Fixpoint fraction_digits36 (fuel : nat) (fraction delta : Q) (written : list N)
  : option (list N) :=
  match fuel with
  | O => Some written
  | S f =>
      let fraction := RN (fraction * 36) in
      let delta := RN (delta * 36) in
      let digit := Z.to_N (Qfloor fraction) in
      let written := digit :: written in
      let fraction := RN (fraction - inject_Z (Z.of_N digit)) in
      if (Qlt_bool (1 # 2) fraction || Qeq_bool fraction (1 # 2) && N.odd digit)
         && Qlt_bool 1 (RN (fraction + delta))
      then carry written
      else if Qle_bool delta fraction
           then fraction_digits36 f fraction delta written
           else Some written
  end.

(** The digits of an integer, the last one first written. *)
Fixpoint integer_digits36 (fuel : nat) (n : N) (acc : string) : string :=
  match fuel with
  | O => acc
  | S f =>
      let acc := String (digit36 (n mod 36)) acc in
      if (n / 36 =? 0)%N then acc else integer_digits36 f (n / 36) acc
  end.

Fixpoint digits_text (digits : list N) : string :=
  match digits with
  | [] => ""
  | d :: rest => String (digit36 d) (digits_text rest)
  end.

(** The loop of the digits runs at most 1075 times: [delta] is 2^-1074 at
    least and grows at every digit ([fraction_digits36_fuel] below). *)
Definition toString36 (r : random) : string :=
  let value := random_value r in
  let integer := Z.to_N (Qfloor value) in
  let fraction := RN (value - inject_Z (Z.of_N integer)) in
  let delta := half_gap value in
  if Qle_bool delta fraction then
    match fraction_digits36 1075 fraction delta [] with
    | Some written =>
        integer_digits36 (S (N.size_nat integer)) integer ""
        ++ "." ++ digits_text (rev written)
    | None => integer_digits36 (S (N.size_nat (integer + 1))) (integer + 1) ""
    end
  else integer_digits36 (S (N.size_nat integer)) integer "".

(** *** [Date.prototype.toISOString]

    The civil date of a day number (days since 1970-01-01) in the
    proleptic Gregorian calendar, then the ISO 8601 text
    YYYY-MM-DDTHH:mm:ss.sssZ, with the six-digit signed year outside
    0..9999. *)
Definition ms_per_day : Z := 1000 * 60 * 60 * 24.

Definition civil_from_days (day : Z) : Z * Z * Z :=
  let z := day + 719468 in
  let era := z / 146097 in
  let doe := z - era * 146097 in
  let yoe := (doe - doe / 1460 + doe / 36524 - doe / 146096) / 365 in
  let doy := doe - (365 * yoe + yoe / 4 - yoe / 100) in
  let mp := (5 * doy + 2) / 153 in
  let d := doy - (153 * mp + 2) / 5 + 1 in
  let m := if mp <? 10 then mp + 3 else mp - 9 in
  let y := yoe + era * 400 + (if m <=? 2 then 1 else 0) in
  (y, m, d).

Definition year_text (y : Z) : string :=
  if (0 <=? y) && (y <=? 9999) then pad 4 y
  else (if y <? 0 then "-" else "+") ++ pad 6 (Z.abs y).

Definition toISOString (t : Z) : string :=
  let ms := t mod ms_per_day in
  let '(y, m, d) := civil_from_days (t / ms_per_day) in
  year_text y ++ "-" ++ pad 2 m ++ "-" ++ pad 2 d ++ "T" ++
  pad 2 (ms / 3600000) ++ ":" ++ pad 2 (ms / 60000 mod 60) ++ ":" ++
  pad 2 (ms / 1000 mod 60) ++ "." ++ pad 3 (ms mod 1000) ++ "Z".

(** *** [Number::toString] on the decimal [m * 10^e] *)

Fixpoint strip_zeros (fuel : nat) (m e : Z) : Z * Z :=
  match fuel with
  | O => (m, e)
  | S f => if (m =? 0) then (0, 0)
           else if (m mod 10 =? 0) then strip_zeros f (m / 10) (e + 1)
           else (m, e)
  end.

Definition normalize_number (m e : Z) : Z * Z :=
  strip_zeros (S (Z.to_nat (Z.log2 (Z.abs m)))) m e.

Definition number_text (m e : Z) : string :=
  let '(m, e) := normalize_number m e in
  if m =? 0 then "0"
  else
    let s := decimal (Z.abs m) in
    let k := Z.of_nat (String.length s) in
    let n := e + k in
    let sign := if m <? 0 then "-" else "" in
    sign ++
    (if (k <=? n) && (n <=? 21) then s ++ zeros (Z.to_nat (n - k))
     else if (0 <? n) && (n <=? 21)
       then String.substring 0 (Z.to_nat n) s ++ "." ++
            String.substring (Z.to_nat n) (Z.to_nat (k - n)) s
     else if (-6 <? n) && (n <=? 0) then "0." ++ zeros (Z.to_nat (- n)) ++ s
     else
       (if k =? 1 then s
        else String.substring 0 1 s ++ "." ++ String.substring 1 (Z.to_nat (k - 1)) s)
       ++ "e" ++ (if 0 <=? n - 1 then "+" else "-") ++ decimal (Z.abs (n - 1))).


(** ** JSON *)

Module JSON.

(** The double-quote character (code 34). *)
Definition dquote : ascii := ascii_of_N 34.

Definition hex_char (d : N) : ascii :=
  if (d <? 10)%N then ascii_of_N (48 + d) else ascii_of_N (87 + d).

(** [QuoteJSONString], one character at a time: the two-character escapes,
    [\u00xx] for the other control characters, the character itself
    otherwise. *)
Definition escape_char (c : ascii) : string :=
  let n := N_of_ascii c in
  if (n =? 34)%N then String "\" (String dquote "")
  else if (n =? 92)%N then "\\"
  else if (n =? 8)%N then "\b"
  else if (n =? 9)%N then "\t"
  else if (n =? 10)%N then "\n"
  else if (n =? 12)%N then "\f"
  else if (n =? 13)%N then "\r"
  else if (n <? 32)%N
    then "\u00" ++ String (hex_char (n / 16)) (String (hex_char (n mod 16)) "")
  else String c "".

Fixpoint escape (s : string) : string :=
  match s with
  | EmptyString => ""
  | String c rest => escape_char c ++ escape rest
  end.

Definition quote (s : string) : string :=
  String dquote (escape s ++ String dquote "").

(** [JSON.stringify(v)]: the JSON text, or [None] where JavaScript returns
    [undefined] (for [undefined] itself and for functions).  In an array
    such an element is written as null, in an object such a member is left
    out.  A Date is written as its [toJSON()], the ISO string.  The members
    of an object are its own enumerable properties, whatever its class. *)
Fixpoint stringify (v : value) : option string :=
  match v with
  | VUndefined | VFunction _ => None
  | VNull => Some "null"
  | VBool b => Some (if b then "true" else "false")
  | VNumber m e => Some (number_text m e)
  | VString s => Some (quote s)
  | VDate t => Some (quote (toISOString t))
  | VArray elems =>
      let fix elements (l : list value) : list string :=
        match l with
        | [] => []
        | x :: rest =>
            match stringify x with
            | Some t => t
            | None => "null"
            end :: elements rest
        end in
      Some ("[" ++ String.concat "," (elements elems) ++ "]")
  | VObject _ props =>
      let fix members (l : list (string * value)) : list string :=
        match l with
        | [] => []
        | (k, x) :: rest =>
            match stringify x with
            | Some t => (quote k ++ ":" ++ t) :: members rest
            | None => members rest
            end
        end in
      Some ("{" ++ String.concat "," (members props) ++ "}")
  end.

(** *** Objects built by the parser

    [JSON.parse] defines the members of an object in the order of the
    text.  A repeated key keeps its first position and takes the last
    value; keys that are array indices (canonical decimal numbers below
    2^32 - 1) are enumerated first, in increasing order. *)
Definition is_digit (c : ascii) : bool :=
  let n := N_of_ascii c in (48 <=? n)%N && (n <=? 57)%N.

Fixpoint digits_value (s : string) (acc : N) : option N :=
  match s with
  | EmptyString => Some acc
  | String c rest =>
      if is_digit c then digits_value rest (acc * 10 + (N_of_ascii c - 48))%N
      else None
  end.

Definition index_of_key (k : string) : option N :=
  match k with
  | EmptyString => None
  | String c rest =>
      if Ascii.eqb c "0" && negb (String.eqb rest "") then None
      else if (10 <? String.length k)%nat then None
      else match digits_value k 0 with
           | Some n => if (n <? 4294967295)%N then Some n else None
           | None => None
           end
  end.

Fixpoint replace_value (k : string) (v : value) (props : list (string * value))
  : option (list (string * value)) :=
  match props with
  | [] => None
  | (k', v') :: rest =>
      if String.eqb k' k then Some ((k', v) :: rest)
      else match replace_value k v rest with
           | Some rest' => Some ((k', v') :: rest')
           | None => None
           end
  end.

Fixpoint insert_index (i : N) (k : string) (v : value) (props : list (string * value))
  : list (string * value) :=
  match props with
  | [] => [(k, v)]
  | (k', v') :: rest =>
      match index_of_key k' with
      | Some j => if (i <? j)%N then (k, v) :: props
                  else (k', v') :: insert_index i k v rest
      | None => (k, v) :: props
      end
  end.

Definition define_property (props : list (string * value)) (kv : string * value)
  : list (string * value) :=
  let '(k, v) := kv in
  match replace_value k v props with
  | Some props' => props'
  | None =>
      match index_of_key k with
      | Some i => insert_index i k v props
      | None => props ++ [(k, v)]
      end
  end.

Definition make_object (members : list (string * value)) : value :=
  VObject ObjectPrototype (fold_left define_property members []).


(** *** [JSON.parse]

    The parser reads the text one character at a time.  Its state is a
    mode (what may come next) and a stack of the arrays and objects that
    are still open.  A text is valid when the parser ends in [MDone] (or in
    a complete top-level number); every other end, and every character that
    the mode does not allow, is a [SyntaxError]. *)

(** A character of a string literal: a byte of the text, or a code unit
    written as a [\uXXXX] escape (turned into UTF-8 at the end of the
    literal, a surrogate pair becoming one code point). *)
Inductive item : Type :=
| IByte (c : ascii)
| IUnit (n : N).

Definition byte (n : N) : ascii := ascii_of_N n.

Definition utf8 (n : N) : string :=
  (if n <? 128 then String (byte n) ""
   else if n <? 2048
     then String (byte (192 + n / 64)) (String (byte (128 + n mod 64)) "")
   else if n <? 65536
     then String (byte (224 + n / 4096))
            (String (byte (128 + (n / 64) mod 64)) (String (byte (128 + n mod 64)) ""))
   else String (byte (240 + n / 262144))
          (String (byte (128 + (n / 4096) mod 64))
             (String (byte (128 + (n / 64) mod 64)) (String (byte (128 + n mod 64)) ""))))%N.

Definition is_high_surrogate (n : N) : bool := ((55296 <=? n) && (n <=? 56319))%N.
Definition is_low_surrogate (n : N) : bool := ((56320 <=? n) && (n <=? 57343))%N.

Fixpoint decode (l : list item) : string :=
  match l with
  | [] => ""
  | IByte c :: rest => String c (decode rest)
  | IUnit hi :: rest =>
      match rest with
      | IUnit lo :: rest' =>
          if is_high_surrogate hi && is_low_surrogate lo
          then utf8 (65536 + (hi - 55296) * 1024 + (lo - 56320)) ++ decode rest'
          else utf8 hi ++ decode rest
      | _ => utf8 hi ++ decode rest
      end
  end.

Definition unit_item (n : N) : item :=
  if (n <? 128)%N then IByte (byte n) else IUnit n.

Definition hex_value (c : ascii) : option N :=
  let n := N_of_ascii c in
  (if (48 <=? n) && (n <=? 57) then Some (n - 48)
   else if (97 <=? n) && (n <=? 102) then Some (n - 87)
   else if (65 <=? n) && (n <=? 70) then Some (n - 55)
   else None)%N.

(** Where a string literal stands: as a value, or as the key of the next
    member of an object whose members so far are [done] (last first). *)
Inductive string_context : Type :=
| SValue
| SKey (done : list (string * value)).

(** An open array with its elements so far, or an open object with its
    members so far and the key whose value is being read (last first). *)
Inductive frame : Type :=
| FArray (done : list value)
| FMember (done : list (string * value)) (key : string).

Inductive number_state : Type :=
| NMinus | NZero | NInt | NDot | NFrac | NExp | NExpSign | NExpDigits.

Record number_acc : Type := {
  n_negative : bool;
  n_mantissa : Z;
  n_fraction : Z;
  n_exp_negative : bool;
  n_exponent : Z
}.

Inductive mode : Type :=
| MValue
| MArrayStart
| MArrayNext (done : list value)
| MObjectStart
| MObjectKey (done : list (string * value))
| MObjectColon (done : list (string * value)) (key : string)
| MObjectNext (done : list (string * value))
| MString (ctx : string_context) (acc : list item)
| MEscape (ctx : string_context) (acc : list item)
| MUnicode (ctx : string_context) (acc : list item) (count : nat) (code : N)
| MNumber (st : number_state) (a : number_acc)
| MKeyword (rest : string) (v : value)
| MDone (v : value)
| MError.

Definition pstate : Type := mode * list frame.

Definition failed : pstate := (MError, []).

Definition is_space (c : ascii) : bool :=
  let n := N_of_ascii c in
  ((n =? 32) || (n =? 9) || (n =? 10) || (n =? 13))%N.

(** A value is complete: it is the result, or the next element of the
    innermost open array, or the value of the pending member. *)
Definition complete (v : value) (stack : list frame) : pstate :=
  match stack with
  | [] => (MDone v, [])
  | FArray done :: outer => (MArrayNext (v :: done), outer)
  | FMember done k :: outer => (MObjectNext ((k, v) :: done), outer)
  end.

Definition start_number (neg : bool) (st : number_state) (d : Z) : mode :=
  MNumber st {| n_negative := neg; n_mantissa := d; n_fraction := 0;
                n_exp_negative := false; n_exponent := 0 |}.

(** The first character of a value. *)
Definition value_start (c : ascii) (stack : list frame) : pstate :=
  if Ascii.eqb c "{" then (MObjectStart, stack)
  else if Ascii.eqb c "[" then (MArrayStart, stack)
  else if Ascii.eqb c dquote then (MString SValue [], stack)
  else if Ascii.eqb c "-" then (start_number true NMinus 0, stack)
  else if Ascii.eqb c "0" then (start_number false NZero 0, stack)
  else if is_digit c then (start_number false NInt (Z.of_N (N_of_ascii c) - 48), stack)
  else if Ascii.eqb c "t" then (MKeyword "rue" (VBool true), stack)
  else if Ascii.eqb c "f" then (MKeyword "alse" (VBool false), stack)
  else if Ascii.eqb c "n" then (MKeyword "ull" VNull, stack)
  else failed.

(** After a complete value: a separator, a closing bracket, or (at top
    level) nothing but white space. *)
Definition step_after_value (m : mode) (stack : list frame) (c : ascii) : pstate :=
  if is_space c then (m, stack)
  else match m with
       | MArrayNext done =>
           if Ascii.eqb c "," then (MValue, FArray done :: stack)
           else if Ascii.eqb c "]" then complete (VArray (rev done)) stack
           else failed
       | MObjectNext done =>
           if Ascii.eqb c "," then (MObjectKey done, stack)
           else if Ascii.eqb c "}" then complete (make_object (rev done)) stack
           else failed
       | _ => failed
       end.

Definition number_value (a : number_acc) : value :=
  let m := if n_negative a then - n_mantissa a else n_mantissa a in
  let e := (if n_exp_negative a then - n_exponent a else n_exponent a) - n_fraction a in
  let '(m', e') := normalize_number m e in
  VNumber m' e'.

Definition number_final (st : number_state) : bool :=
  match st with
  | NZero | NInt | NFrac | NExpDigits => true
  | _ => false
  end.

Definition digit_of (c : ascii) : Z := Z.of_N (N_of_ascii c) - 48.

(** One more character of a number; [None] when [c] is not part of it. *)
Definition number_step (st : number_state) (a : number_acc) (c : ascii)
  : option (option (number_state * number_acc)) :=
  let mant d := {| n_negative := n_negative a; n_mantissa := n_mantissa a * 10 + d;
                   n_fraction := n_fraction a; n_exp_negative := n_exp_negative a;
                   n_exponent := n_exponent a |} in
  let frac d := {| n_negative := n_negative a; n_mantissa := n_mantissa a * 10 + d;
                   n_fraction := n_fraction a + 1; n_exp_negative := n_exp_negative a;
                   n_exponent := n_exponent a |} in
  let expo d := {| n_negative := n_negative a; n_mantissa := n_mantissa a;
                   n_fraction := n_fraction a; n_exp_negative := n_exp_negative a;
                   n_exponent := n_exponent a * 10 + d |} in
  let esign neg := {| n_negative := n_negative a; n_mantissa := n_mantissa a;
                      n_fraction := n_fraction a; n_exp_negative := neg;
                      n_exponent := n_exponent a |} in
  let is_e := Ascii.eqb c "e" || Ascii.eqb c "E" in
  match st with
  | NMinus =>
      if Ascii.eqb c "0" then Some (Some (NZero, a))
      else if is_digit c then Some (Some (NInt, mant (digit_of c)))
      else Some None
  | NZero =>
      if Ascii.eqb c "." then Some (Some (NDot, a))
      else if is_e then Some (Some (NExp, a))
      else None
  | NInt =>
      if is_digit c then Some (Some (NInt, mant (digit_of c)))
      else if Ascii.eqb c "." then Some (Some (NDot, a))
      else if is_e then Some (Some (NExp, a))
      else None
  | NDot =>
      if is_digit c then Some (Some (NFrac, frac (digit_of c))) else Some None
  | NFrac =>
      if is_digit c then Some (Some (NFrac, frac (digit_of c)))
      else if is_e then Some (Some (NExp, a))
      else None
  | NExp =>
      if Ascii.eqb c "+" then Some (Some (NExpSign, a))
      else if Ascii.eqb c "-" then Some (Some (NExpSign, esign true))
      else if is_digit c then Some (Some (NExpDigits, expo (digit_of c)))
      else Some None
  | NExpSign =>
      if is_digit c then Some (Some (NExpDigits, expo (digit_of c))) else Some None
  | NExpDigits =>
      if is_digit c then Some (Some (NExpDigits, expo (digit_of c))) else None
  end.

Definition end_string (ctx : string_context) (acc : list item) (stack : list frame)
  : pstate :=
  let s := decode (rev acc) in
  match ctx with
  | SValue => complete (VString s) stack
  | SKey done => (MObjectColon done s, stack)
  end.

Definition step (ps : pstate) (c : ascii) : pstate :=
  let '(m, stack) := ps in
  match m with
  | MValue => if is_space c then ps else value_start c stack
  | MArrayStart =>
      if is_space c then ps
      else if Ascii.eqb c "]" then complete (VArray []) stack
      else value_start c (FArray [] :: stack)
  | MObjectStart =>
      if is_space c then ps
      else if Ascii.eqb c "}" then complete (make_object []) stack
      else if Ascii.eqb c dquote then (MString (SKey []) [], stack)
      else failed
  | MObjectKey done =>
      if is_space c then ps
      else if Ascii.eqb c dquote then (MString (SKey done) [], stack)
      else failed
  | MObjectColon done k =>
      if is_space c then ps
      else if Ascii.eqb c ":" then (MValue, FMember done k :: stack)
      else failed
  | MArrayNext _ | MObjectNext _ | MDone _ => step_after_value m stack c
  | MString ctx acc =>
      if Ascii.eqb c dquote then end_string ctx acc stack
      else if Ascii.eqb c "\" then (MEscape ctx acc, stack)
      else if (N_of_ascii c <? 32)%N then failed
      else (MString ctx (IByte c :: acc), stack)
  | MEscape ctx acc =>
      if Ascii.eqb c dquote || Ascii.eqb c "\" || Ascii.eqb c "/"
      then (MString ctx (IByte c :: acc), stack)
      else if Ascii.eqb c "b" then (MString ctx (IByte (byte 8) :: acc), stack)
      else if Ascii.eqb c "f" then (MString ctx (IByte (byte 12) :: acc), stack)
      else if Ascii.eqb c "n" then (MString ctx (IByte (byte 10) :: acc), stack)
      else if Ascii.eqb c "r" then (MString ctx (IByte (byte 13) :: acc), stack)
      else if Ascii.eqb c "t" then (MString ctx (IByte (byte 9) :: acc), stack)
      else if Ascii.eqb c "u" then (MUnicode ctx acc 0 0, stack)
      else failed
  | MUnicode ctx acc count code =>
      match hex_value c with
      | Some d =>
          let code' := (code * 16 + d)%N in
          if (count =? 3)%nat then (MString ctx (unit_item code' :: acc), stack)
          else (MUnicode ctx acc (S count) code', stack)
      | None => failed
      end
  | MNumber st a =>
      match number_step st a c with
      | Some (Some (st', a')) => (MNumber st' a', stack)
      | Some None => failed
      | None =>
          if number_final st
          then let '(m', stack') := complete (number_value a) stack in
               step_after_value m' stack' c
          else failed
      end
  | MKeyword rest v =>
      match rest with
      | String c' rest' =>
          if Ascii.eqb c c'
          then match rest' with
               | EmptyString => complete v stack
               | _ => (MKeyword rest' v, stack)
               end
          else failed
      | EmptyString => failed
      end
  | MError => failed
  end.

Fixpoint run (ps : pstate) (text : string) : pstate :=
  match text with
  | EmptyString => ps
  | String c rest => run (step ps c) rest
  end.

(** The end of the text. *)
Definition finish (ps : pstate) : completion value :=
  match ps with
  | (MDone v, _) => Return v
  | (MNumber st a, []) =>
      if number_final st then Return (number_value a) else Throw SyntaxError
  | _ => Throw SyntaxError
  end.

Definition parse (text : string) : completion value :=
  finish (run (MValue, []) text).

End JSON.

(** ** The enumerations *)

Module TaskCategory.
Definition HOME : string := "home".
Definition WORK : string := "work".
Definition STUDY : string := "study".
End TaskCategory.

Module TaskStatus.
Definition NOT_STARTED : string := "not-started".
Definition IN_PROGRESS : string := "in-progress".
Definition COMPLETED : string := "completed".
End TaskStatus.

(** ** class Task *)

Module Task.

(** A default parameter value applies when the argument is [undefined]. *)
Definition default_parameter (arg : value) (dflt : string) : value :=
  match arg with
  | VUndefined => VString dflt
  | _ => arg
  end.

(** [new Task(title, category, status)], given the number that
    [Math.random()] returns and the time that [new Date()] reads. *)
Definition constructor (r : random) (now : Z) (title category status : value) : value :=
  VObject TaskPrototype
    [ ("id", VString (js_substring (toString36 r) 2 11));
      ("title", title);
      ("category", default_parameter category TaskCategory.HOME);
      ("status", default_parameter status TaskStatus.NOT_STARTED);
      ("createdAt", VDate now) ].

(** [this.k = v] on an ordinary object: an existing own property keeps its
    place and takes the value, a new one is added. *)
Definition set_property (this : value) (k : string) (v : value) : value :=
  match this with
  | VObject p props => VObject p (JSON.define_property props (k, v))
  | _ => this
  end.

(** [updateStatus(newStatus)]. *)
Definition updateStatus (this : value) (newStatus : value) : value :=
  set_property this "status" newStatus.

(** The call [task.updateStatus(newStatus)]: the method is looked up on
    [task]; calling anything that is not a function is a [TypeError]. *)
Definition call_updateStatus (task : value) (newStatus : value) : completion value :=
  cbind (get_prop task "updateStatus") (fun f =>
  match f with
  | VFunction name =>
      if String.eqb name "Task.prototype.updateStatus"
      then Return (updateStatus task newStatus)
      else Throw TypeError
  | _ => Throw TypeError
  end).

(** The time value of a Date is an integer number of milliseconds, of
    at most 8.64e15 in absolute value; a Date out of that range is an
    invalid Date, whose time value is NaN. *)
Definition valid_time (t : Z) : bool := Z.abs t <=? 8640000000000000.

(** [calculatePriority()], observed at time [now], on a task whose
    [createdAt] is a Date.  The four operations are those of doubles:
    the difference of the two time values, its quotient by the number of
    milliseconds of a day, the sum with 1 and the quotient of 1 by it,
    each rounded to the nearest double.  (The difference is below 2^54
    in absolute value, the age in days below 2^28, the sum is 0 or at
    least 2^-53 in absolute value, and the result at most 2^53: all in
    the normal range of doubles.)  [None] stands for a result that is no
    finite number: Infinity at the age of minus one day, where the sum
    is 0, and NaN on an invalid Date; and for the result on a
    [createdAt] that is not a Date. *)
Definition calculatePriority (now : Z) (this : value) : option Q :=
  match this with
  | VObject _ props =>
      match own_property "createdAt" props with
      | Some (VDate created) =>
          if valid_time now && valid_time created then
            let elapsed := RN (inject_Z now - inject_Z created) in
            let ageInDays := RN (elapsed / inject_Z ms_per_day) in
            let sum := RN (ageInDays + 1) in
            if Qeq_bool sum 0 then None else Some (RN (1 / sum))
          else None
      | _ => None
      end
  | _ => None
  end.

End Task.

(** ** class TodoApp *)

(** What [renderTasks] leaves on the page: one list item per task drawn
    (the task, and whether the item has the class [completed]), and the
    two counters.  The markup of an item is a function of its task. *)
Record list_item : Type := { li_task : value; li_completed : bool }.

(** The application object ([tasks], [currentFilter]) together with the
    two parts of the browser it works on: [localStorage] and the page.
    The page is taken to hold the elements that the script looks up
    ([taskList], [totalTasks], [completedTasks], the buttons), and the
    storage to have room for what is written to it. *)
Record app : Type := {
  tasks : value;
  currentFilter : string;
  localStorage : gmap string string;
  taskList : list list_item;
  totalTasks : nat;
  completedTasks : nat
}.

(** Methods run on the application state and return normally or throw;
    the state they leave is kept in both cases. *)
Definition M (A : Type) : Type := app -> completion A * app.

Definition ret {A} (a : A) : M A := fun st => (Return a, st).

Definition throw {A} (e : error) : M A := fun st => (Throw e, st).

Definition bind {A B} (m : M A) (k : A -> M B) : M B :=
  fun st =>
    match m st with
    | (Return a, st') => k a st'
    | (Throw e, st') => (Throw e, st')
    end.

Definition lift {A} (c : completion A) : M A := fun st => (c, st).

Definition get {A} (f : app -> A) : M A := fun st => (Return (f st), st).

Definition modify (f : app -> app) : M unit := fun st => (Return tt, f st).

Notation "'let*' x ':=' m 'in' k" := (bind m (fun x => k))
  (at level 10, x pattern, m at level 100, k at level 200).
Notation "m '>>' k" := (bind m (fun _ => k))
  (at level 80, right associativity).

Definition set_tasks (v : value) : M unit :=
  modify (fun st => {| tasks := v; currentFilter := currentFilter st;
                       localStorage := localStorage st; taskList := taskList st;
                       totalTasks := totalTasks st; completedTasks := completedTasks st |}).

Definition set_currentFilter (f : string) : M unit :=
  modify (fun st => {| tasks := tasks st; currentFilter := f;
                       localStorage := localStorage st; taskList := taskList st;
                       totalTasks := totalTasks st; completedTasks := completedTasks st |}).

Definition set_localStorage (ls : gmap string string) : M unit :=
  modify (fun st => {| tasks := tasks st; currentFilter := currentFilter st;
                       localStorage := ls; taskList := taskList st;
                       totalTasks := totalTasks st; completedTasks := completedTasks st |}).

Definition set_taskList (l : list list_item) : M unit :=
  modify (fun st => {| tasks := tasks st; currentFilter := currentFilter st;
                       localStorage := localStorage st; taskList := l;
                       totalTasks := totalTasks st; completedTasks := completedTasks st |}).

Definition set_counters (total completed : nat) : M unit :=
  modify (fun st => {| tasks := tasks st; currentFilter := currentFilter st;
                       localStorage := localStorage st; taskList := taskList st;
                       totalTasks := total; completedTasks := completed |}).

(** [localStorage.getItem(k)]: the stored string, or [None] for [null]. *)
Definition getItem (k : string) : M (option string) :=
  get (fun st => localStorage st !! k).

(** [localStorage.setItem(k, v)] stores the string of [v]; the string of
    [undefined] is "undefined". *)
Definition setItem (k : string) (v : option string) : M unit :=
  let* ls := get localStorage in
  set_localStorage (<[k := default "undefined" v]> ls).

(** Calling an array method on [this.tasks]: a [TypeError] unless it is an
    array. *)
Definition tasks_array : M (list value) :=
  let* t := get tasks in
  match t with
  | VArray l => ret l
  | _ => throw TypeError
  end.

(** [ToString(v)] returns normally: it throws a [TypeError] only on an
    object whose own [toString] property hides the inherited function
    (own properties are never functions here), or an array holding one. *)
Fixpoint to_string_ok (v : value) : bool :=
  match v with
  | VArray elems =>
      (fix all (l : list value) : bool :=
         match l with
         | [] => true
         | x :: rest => to_string_ok x && all rest
         end) elems
  | VObject _ props =>
      match own_property "toString" props with
      | Some _ => false
      | None => true
      end
  | _ => true
  end.

Definition to_text (v : value) : completion unit :=
  if to_string_ok v then Return tt else Throw TypeError.

Module TodoApp.

(** [saveTasks()]. *)
Definition saveTasks : M unit :=
  let* t := get tasks in
  setItem "tasks" (JSON.stringify t).

(** [loadTasks()].  [if (savedTasks)] is false for [null] (no item) and
    for the empty string. *)
Definition loadTasks : M unit :=
  let* savedTasks := getItem "tasks" in
  match savedTasks with
  | Some text =>
      if negb (String.eqb text "")
      then let* parsed := lift (JSON.parse text) in set_tasks parsed
      else ret tt
  | None => ret tt
  end.

(** [getFilteredTasks()]. *)
Definition getFilteredTasks : M value :=
  let* filter := get currentFilter in
  if String.eqb filter "all" then get tasks
  else
    let* l := tasks_array in
    let* l' := lift (array_filter (fun t =>
                 cbind (get_prop t "category") (fun c =>
                 Return (strict_equals_string c filter))) l) in
    ret (VArray l').

(** [getCategoryIcon(category)] and [getStatusText(status)], for a string
    argument: a lookup in an object literal, prototype chain included. *)
Definition icons : list (string * value) :=
  [ (TaskCategory.HOME, VString "🏠");
    (TaskCategory.WORK, VString "💼");
    (TaskCategory.STUDY, VString "📚") ].

Definition getCategoryIcon (category : string) : value :=
  let v := object_get ObjectPrototype icons category in
  if to_boolean v then v else VString "📌".

Definition texts : list (string * value) :=
  [ (TaskStatus.NOT_STARTED, VString "Не начато");
    (TaskStatus.IN_PROGRESS, VString "В процессе");
    (TaskStatus.COMPLETED, VString "Готово") ].

Definition getStatusText (status : string) : value :=
  object_get ObjectPrototype texts status.

(** One item of the list: the reads of [task.status], [task.category],
    [task.title] and [task.id], and their conversion to text. *)
Definition render_item (task : value) : completion list_item :=
  cbind (get_prop task "status") (fun status =>
  cbind (get_prop task "category") (fun category =>
  cbind (to_text category) (fun _ =>
  cbind (get_prop task "title") (fun title =>
  cbind (to_text title) (fun _ =>
  cbind (to_text status) (fun _ =>
  cbind (get_prop task "id") (fun id =>
  cbind (to_text id) (fun _ =>
  Return {| li_task := task;
            li_completed := strict_equals_string status TaskStatus.COMPLETED |})))))))).

Fixpoint render_items (l : list value) : M unit :=
  match l with
  | [] => ret tt
  | task :: rest =>
      let* li := lift (render_item task) in
      let* shown := get taskList in
      set_taskList (shown ++ [li]) >> render_items rest
  end.

(** [renderTasks()]: the list is emptied and redrawn item by item, then
    the counters are recomputed from the whole list. *)
Definition renderTasks : M unit :=
  set_taskList [] >>
  let* filtered := getFilteredTasks in
  match filtered with
  | VArray l =>
      render_items l >>
      let* all := tasks_array in
      let* done := lift (array_filter (fun t =>
                     cbind (get_prop t "status") (fun s =>
                     Return (strict_equals_string s TaskStatus.COMPLETED))) all) in
      set_counters (List.length all) (List.length done)
  | _ => throw TypeError
  end.

(** [addTask(title, category, status)]. *)
Definition addTask (r : random) (now : Z) (title category status : value) : M unit :=
  let task := Task.constructor r now title category status in
  (let* l := tasks_array in set_tasks (VArray (l ++ [task]))) >>
  saveTasks >>
  renderTasks.

(** [updateTaskStatus(taskId, newStatus)]: the task found is changed in
    place, at its index in the list. *)
Definition updateTaskStatus (taskId : string) (newStatus : value) : M unit :=
  let* l := tasks_array in
  let* found := lift (array_find (fun t =>
                  cbind (get_prop t "id") (fun id =>
                  Return (strict_equals_string id taskId))) l) in
  match found with
  | Some (i, task) =>
      if to_boolean task then
        let* task' := lift (Task.call_updateStatus task newStatus) in
        set_tasks (VArray (<[i := task']> l)) >>
        saveTasks >>
        renderTasks
      else ret tt
  | None => ret tt
  end.

(** [deleteTask(taskId)]. *)
Definition deleteTask (taskId : string) : M unit :=
  (let* l := tasks_array in
   let* l' := lift (array_filter (fun t =>
                cbind (get_prop t "id") (fun id =>
                Return (negb (strict_equals_string id taskId)))) l) in
   set_tasks (VArray l')) >>
  saveTasks >>
  renderTasks.

(** [setupEventListeners()] binds the listeners below to the controls of
    the page; nothing of the state changes. *)
Definition setupEventListeners : M unit := ret tt.

(** The click on the add button, with the values of the text input and of
    the two selectors: a title that is empty once trimmed adds nothing. *)
Definition add_click (r : random) (now : Z) (input category status : string) : M unit :=
  let title := trim input in
  if negb (String.eqb title "")
  then addTask r now (VString title) (VString category) (VString status)
  else ret tt.

(** The click on a filter button whose [data-category] is [category]. *)
Definition filter_click (category : string) : M unit :=
  set_currentFilter category >> renderTasks.

(** The change of the status selector of the row whose [data-id] is [id]
    to the option [value].

    The delete button of a row has no listener of the script: its
    [onclick] attribute is the text [app.deleteTask('<id>')], the
    identifier of the task pasted between the quotes, which the browser
    parses and runs as a program at each click.  For an identifier of
    digits and letters, as [Task] makes them, and once the global [app]
    is bound, that program is the call [deleteTask(id)] above.  For
    another identifier (one that the storage held, with a quote in it)
    the text is another program, or none; and before [app] is bound the
    click throws a [ReferenceError].  The click itself is therefore not
    defined here: a session has calls of [deleteTask] instead. *)
Definition status_change (id value : string) : M unit :=
  updateTaskStatus id (VString value).

(** [new TodoApp()]. *)
Definition constructor : M unit :=
  set_tasks (VArray []) >>
  set_currentFilter "all" >>
  loadTasks >>
  setupEventListeners >>
  renderTasks.

End TodoApp.

(** A browser with the given storage and an empty page, before the script
    runs. *)
Definition browser (storage : gmap string string) : app :=
  {| tasks := VUndefined; currentFilter := ""; localStorage := storage;
     taskList := []; totalTasks := 0; completedTasks := 0 |}.


(** ** Vocabulary of the specification *)

(** A property of [v] can be read: [v] is neither [undefined] nor [null]. *)
Definition readable (v : value) : bool :=
  match v with
  | VUndefined | VNull => false
  | _ => true
  end.

(** The value of [v.k] where it can be read. *)
Definition prop (v : value) (k : string) : value :=
  match v with
  | VObject p props => object_get p props k
  | _ => VUndefined
  end.

Definition has_id (taskId : string) (t : value) : bool :=
  strict_equals_string (prop t "id") taskId.

Definition in_category (category : string) (t : value) : bool :=
  strict_equals_string (prop t "category") category.

(** The search of [updateTaskStatus]: the first task whose [id] is
    [taskId], with its index. *)
Definition find_by_id (taskId : string) (l : list value)
  : completion (option (nat * value)) :=
  array_find (fun t =>
    cbind (get_prop t "id") (fun id =>
    Return (strict_equals_string id taskId))) l.

(** A property name that every plain object inherits. *)
Definition inherited_name (k : string) : bool :=
  string_mem k object_prototype_functions || String.eqb k "__proto__".

(** The state a method leaves, whether it returned or threw. *)
Definition state_after {A} (r : completion A * app) : app := snd r.

(** Two states with the same application data and storage (the page may
    differ). *)
Definition same_store (st st' : app) : Prop :=
  tasks st' = tasks st /\
  currentFilter st' = currentFilter st /\
  localStorage st' = localStorage st.

(** The state with another task list, and the state once the list is
    written to the storage. *)
Definition with_tasks (v : value) (st : app) : app :=
  {| tasks := v; currentFilter := currentFilter st;
     localStorage := localStorage st; taskList := taskList st;
     totalTasks := totalTasks st; completedTasks := completedTasks st |}.

Definition persisted (st : app) : app :=
  {| tasks := tasks st; currentFilter := currentFilter st;
     localStorage := <["tasks" := default "undefined" (JSON.stringify (tasks st))]>
                       (localStorage st);
     taskList := taskList st; totalTasks := totalTasks st;
     completedTasks := completedTasks st |}.

(** The application once the constructor has set its two fields. *)
Definition initialised (storage : gmap string string) : app :=
  {| tasks := VArray []; currentFilter := "all"; localStorage := storage;
     taskList := []; totalTasks := 0; completedTasks := 0 |}.

(** Example states: a fresh application in an empty browser, and the
    arguments of a first task. *)
Definition fresh_app : app := state_after (TodoApp.constructor (browser ∅)).

Definition some_random : random := {| rand_num := 1234567890123455; rand_exp := 53 |}.

Definition one_half : random := {| rand_num := 1; rand_exp := 1 |}.

Definition add_milk (st : app) : completion unit * app :=
  TodoApp.addTask some_random 1700000000000
    (VString "Buy milk") (VString "home") (VString "not-started") st.

(** The arguments of one call of [addTask], with the random number and
    the time its constructor reads. *)
Record add_input : Type := {
  arg_random : random;
  arg_now : Z;
  arg_title : string;
  arg_category : string;
  arg_status : string
}.

Definition add_one (st : app) (i : add_input) : app :=
  state_after (TodoApp.addTask (arg_random i) (arg_now i) (VString (arg_title i))
                 (VString (arg_category i)) (VString (arg_status i)) st).

(** The state after a sequence of [addTask] calls. *)
Definition add_all (inputs : list add_input) (st : app) : app :=
  fold_left add_one inputs st.

(** The task that a call of [addTask] makes, and what [loadTasks] makes of
    it once saved. *)
Definition new_task (i : add_input) : value :=
  Task.constructor (arg_random i) (arg_now i) (VString (arg_title i))
    (VString (arg_category i)) (VString (arg_status i)).

Definition loaded_task (i : add_input) : value :=
  VObject ObjectPrototype
    [ ("id", VString (js_substring (toString36 (arg_random i)) 2 11));
      ("title", VString (arg_title i));
      ("category", VString (arg_category i));
      ("status", VString (arg_status i));
      ("createdAt", VString (toISOString (arg_now i))) ].

(** [saveTasks()] followed by [loadTasks()]. *)
Definition save_then_load : M unit :=
  TodoApp.saveTasks >> TodoApp.loadTasks.

(** The text that [JSON.stringify] writes for a new task. *)
Definition task_text (i : add_input) : string :=
  "{" ++ JSON.quote "id" ++ ":" ++ JSON.quote (js_substring (toString36 (arg_random i)) 2 11) ++
  "," ++ JSON.quote "title" ++ ":" ++ JSON.quote (arg_title i) ++
  "," ++ JSON.quote "category" ++ ":" ++ JSON.quote (arg_category i) ++
  "," ++ JSON.quote "status" ++ ":" ++ JSON.quote (arg_status i) ++
  "," ++ JSON.quote "createdAt" ++ ":" ++ JSON.quote (toISOString (arg_now i)) ++ "}".

(** The elements of an array after the first, each with its comma. *)
Fixpoint tail_text (l : list string) : string :=
  match l with
  | [] => ""
  | x :: rest => "," ++ x ++ tail_text rest
  end.

(** What the parser has accumulated inside a string literal after reading
    the escaped text of [s]: the bytes of [s], last first; and the same
    bytes in the order of the text. *)
Fixpoint push_bytes (s : string) (acc : list JSON.item) : list JSON.item :=
  match s with
  | EmptyString => acc
  | String c rest => push_bytes rest (JSON.IByte c :: acc)
  end.

Fixpoint items_of (s : string) : list JSON.item :=
  match s with
  | EmptyString => []
  | String c rest => JSON.IByte c :: items_of rest
  end.

(** What two corresponding tasks share before and after a save and a
    load: the four string fields are the same, and the saved [createdAt]
    is a Date whose ISO text is the loaded [createdAt]. *)
Definition reloaded_from (saved loaded : value) : Prop :=
  prop loaded "id" = prop saved "id" /\
  prop loaded "title" = prop saved "title" /\
  prop loaded "category" = prop saved "category" /\
  prop loaded "status" = prop saved "status" /\
  exists t : Z,
    prop saved "createdAt" = VDate t /\
    prop loaded "createdAt" = VString (toISOString t).

(** The three operations that change the task list. *)
Inductive mutation : Type :=
| AddTask (r : random) (now : Z) (title category status : value)
| UpdateTaskStatus (taskId : string) (newStatus : value)
| DeleteTask (taskId : string).

Definition run_mutation (m : mutation) : M unit :=
  match m with
  | AddTask r now title category status => TodoApp.addTask r now title category status
  | UpdateTaskStatus taskId newStatus => TodoApp.updateTaskStatus taskId newStatus
  | DeleteTask taskId => TodoApp.deleteTask taskId
  end.

(** The storage mirrors the memory: the item "tasks" is the JSON text of
    the task list. *)
Definition in_sync (st : app) : Prop :=
  exists text : string,
    JSON.stringify (tasks st) = Some text /\
    localStorage st !! "tasks" = Some text.

(** [updateTaskStatus] is a mutation when a task with the identifier is
    in the list. *)
Definition on_present_id (m : mutation) (st : app) : Prop :=
  match m with
  | UpdateTaskStatus taskId _ =>
      exists l t, tasks st = VArray l /\ In t l /\ has_id taskId t = true
  | _ => True
  end.

(** The application as a reload of the page finds it: the constructor run
    in a browser that kept the storage of [st]. *)
Definition reload (st : app) : completion unit * app :=
  TodoApp.constructor (browser (localStorage st)).

(** The arguments of the tasks of the examples.  The two twins are made
    from the same random number, 1/2, whose base-36 text is "0.i": their
    identifier is "i". *)
Definition milk : add_input :=
  {| arg_random := some_random; arg_now := 1700000000000; arg_title := "Buy milk";
     arg_category := "home"; arg_status := "not-started" |}.

Definition twin_a : add_input :=
  {| arg_random := one_half; arg_now := 1700000000000; arg_title := "Buy milk";
     arg_category := "home"; arg_status := "not-started" |}.

Definition twin_b : add_input :=
  {| arg_random := one_half; arg_now := 1700000000500; arg_title := "Call Ann";
     arg_category := "work"; arg_status := "in-progress" |}.

Definition two_tasks_one_id : app := add_all [twin_a; twin_b] fresh_app.

(** ** Vocabulary of doubles *)

(** A double: a significand of at most 53 bits times a power of 2. *)
Definition double (x : Q) : Prop :=
  exists m e : Z, Z.abs m < 2 ^ 53 /\ (x == inject_Z m * pow2 e)%Q.

(** What the loop of [fraction_digits36] keeps: a fraction that is a
    double in [0, 1), a bound [delta] that is a positive double, and
    digits below 36. *)
Definition frac_ok (f : Q) : Prop := double f /\ (0 <= f)%Q /\ (f < 1)%Q.

Definition delta_ok (d : Q) : Prop := double d /\ (0 < d)%Q.

Definition digits_ok (l : list N) : Prop := Forall (fun d => (d < 36)%N) l.



(** ** Vocabulary of the page and of a session *)

(** The row that [renderTasks] draws for a task: the row is marked
    completed when the status of the task is ['completed']. *)
Definition is_completed (t : value) : bool :=
  strict_equals_string (prop t "status") TaskStatus.COMPLETED.

Definition item_of (t : value) : list_item :=
  {| li_task := t; li_completed := is_completed t |}.

(** A task that [renderTasks] can draw. *)
Definition renders (t : value) : Prop :=
  exists li, TodoApp.render_item t = Return li.

(** A list that can be drawn whatever the filter: an array whose tasks
    can all be drawn. *)
Definition drawable (st : app) : Prop :=
  exists l, tasks st = VArray l /\ Forall renders l.

(** What drawing a task needs: its properties can be read, and the four
    that the row shows can be converted to text. *)
Definition can_render (t : value) : bool :=
  readable t &&
  to_string_ok (prop t "category") && to_string_ok (prop t "title") &&
  to_string_ok (prop t "status") && to_string_ok (prop t "id").

(** The tasks that a filter lets through. *)
Definition shown (filter : string) (l : list value) : list value :=
  if String.eqb filter "all" then l else List.filter (in_category filter) l.

(** The state whose page is drawn from the list [l] under the filter of
    [st]: one row for each task shown, and the counters of the whole
    list. *)
Definition drawn (st : app) (l : list value) : app :=
  {| tasks := tasks st; currentFilter := currentFilter st;
     localStorage := localStorage st;
     taskList := List.map item_of (shown (currentFilter st) l);
     totalTasks := List.length l;
     completedTasks := List.length (List.filter is_completed l) |}.

Definition with_filter (f : string) (st : app) : app :=
  {| tasks := tasks st; currentFilter := f; localStorage := localStorage st;
     taskList := taskList st; totalTasks := totalTasks st;
     completedTasks := completedTasks st |}.

Definition with_rows (rows : list list_item) (st : app) : app :=
  {| tasks := tasks st; currentFilter := currentFilter st;
     localStorage := localStorage st; taskList := rows;
     totalTasks := totalTasks st; completedTasks := completedTasks st |}.

(** The identifier of the task made from the arguments [i], and the
    arguments with another status. *)
Definition task_id (i : add_input) : string :=
  js_substring (toString36 (arg_random i)) 2 11.

Definition with_status (s : string) (i : add_input) : add_input :=
  {| arg_random := arg_random i; arg_now := arg_now i; arg_title := arg_title i;
     arg_category := arg_category i; arg_status := s |}.

(** The text after one white-space character at the head of [s], if
    there is one. *)
Definition strip_space (s : string) : option string :=
  match s with
  | String a rest1 =>
      if ascii_space a then Some rest1
      else match rest1 with
           | String b rest2 =>
               if space2 a b then Some rest2
               else match rest2 with
                    | String c rest3 => if space3 a b c then Some rest3 else None
                    | EmptyString => None
                    end
           | EmptyString => None
           end
  | EmptyString => None
  end.

(** The digits of base 36, and a text made of them only. *)
Definition is_base36 (c : ascii) : bool :=
  let n := N_of_ascii c in
  (((48 <=? n) && (n <=? 57)) || ((97 <=? n) && (n <=? 122)))%N.

Fixpoint string_forall (p : ascii -> bool) (s : string) : bool :=
  match s with
  | EmptyString => true
  | String c rest => p c && string_forall p rest
  end.

(** The page agrees with the data: the list can be drawn, the rows are
    those of the tasks that the filter lets through, and the counters are
    those of the whole list. *)
Definition consistent (st : app) : Prop :=
  exists l, tasks st = VArray l /\ Forall renders l /\ st = drawn st l.

(** What a mutation makes of the task list [l], before anything is
    saved or drawn: the new list, [None] when the list is left alone
    (the search of [updateTaskStatus] found nothing), or the error
    thrown. *)
Definition changed_list (m : mutation) (l : list value)
  : completion (option (list value)) :=
  match m with
  | AddTask r now title category status =>
      Return (Some (l ++ [Task.constructor r now title category status])%list)
  | UpdateTaskStatus taskId newStatus =>
      cbind (find_by_id taskId l) (fun found =>
      match found with
      | Some (i, task) =>
          if to_boolean task
          then cbind (Task.call_updateStatus task newStatus) (fun task' =>
               Return (Some (<[i := task']> l)))
          else Return None
      | None => Return None
      end)
  | DeleteTask taskId =>
      cbind (array_filter (fun t =>
               cbind (get_prop t "id") (fun id =>
               Return (negb (strict_equals_string id taskId)))) l)
        (fun l' => Return (Some l'))
  end.

(** The events of a session: the three listeners that the script binds
    (the add button, a filter button, the status selector of a row) and a
    call of [deleteTask] with a string, which is what the delete button of
    a row runs when the identifier of the row is plain text. *)
Inductive event : Type :=
| AddClick (r : random) (now : Z) (input category status : string)
| FilterClick (category : string)
| StatusChange (id value : string)
| DeleteCall (taskId : string).

Definition handle (e : event) : M unit :=
  match e with
  | AddClick r now input category status => TodoApp.add_click r now input category status
  | FilterClick category => TodoApp.filter_click category
  | StatusChange id value => TodoApp.status_change id value
  | DeleteCall taskId => TodoApp.deleteTask taskId
  end.

(** The state after a sequence of events, each run on the state that the
    one before left. *)
Definition run_events (events : list event) (st : app) : app :=
  fold_left (fun s e => state_after (handle e s)) events st.

(** ** General lemmas *)

(** Unfolding of the monad's operations. *)
Ltac monad_unfold :=
  cbv beta iota zeta delta
    [bind ret throw lift get modify getItem setItem tasks_array set_tasks
     set_currentFilter set_localStorage set_taskList set_counters].

Lemma get_prop_readable (v : value) (k : string) :
  readable v = true -> get_prop v k = Return (prop v k).
Proof. destruct v; simpl; intros H; try discriminate; reflexivity. Qed.

Lemma array_filter_readable (g : value -> bool) (k : string) (l : list value) :
  Forall (fun t => readable t = true) l ->
  array_filter (fun t => cbind (get_prop t k) (fun v => Return (g v))) l
  = Return (List.filter (fun t => g (prop t k)) l).
Proof.
  induction 1 as [|x l Hx Hl IH]; simpl; [reflexivity|].
  rewrite (get_prop_readable _ _ Hx). simpl. rewrite IH. simpl.
  destruct (g (prop x k)); reflexivity.
Qed.

Lemma same_store_refl (st : app) : same_store st st.
Proof. repeat split. Qed.

Lemma same_store_trans (a b c : app) :
  same_store a b -> same_store b c -> same_store a c.
Proof.
  intros (H1 & H2 & H3) (H4 & H5 & H6). repeat split; congruence.
Qed.

Lemma getFilteredTasks_state (st : app) :
  snd (TodoApp.getFilteredTasks st) = st.
Proof.
  unfold TodoApp.getFilteredTasks. monad_unfold.
  destruct (String.eqb (currentFilter st) "all"); [reflexivity|].
  destruct (tasks st) as [ | |b|m e|s|t|name|elems|p props]; simpl; try reflexivity.
  destruct (array_filter _ elems); reflexivity.
Qed.

Lemma render_items_store (l : list value) (st : app) :
  same_store st (snd (TodoApp.render_items l st)).
Proof.
  revert st. induction l as [|x l IH]; intros st; simpl.
  - apply same_store_refl.
  - unfold bind at 1. unfold lift at 1.
    destruct (TodoApp.render_item x) as [li|e]; [|apply same_store_refl].
    monad_unfold.
    eapply same_store_trans; [|apply IH]. repeat split.
Qed.

Lemma renderTasks_store (st : app) :
  same_store st (snd (TodoApp.renderTasks st)).
Proof.
  unfold TodoApp.renderTasks.
  unfold bind at 1. simpl.
  set (st0 := {| tasks := tasks st |}).
  assert (H0 : same_store st st0) by (repeat split).
  eapply same_store_trans; [exact H0|]. clearbody st0. clear H0 st.
  unfold bind at 1.
  pose proof (getFilteredTasks_state st0) as Hs.
  destruct (TodoApp.getFilteredTasks st0) as [[v|e] st1]; simpl in Hs; subst st1;
    [|apply same_store_refl].
  destruct v as [ | |b|m e|s|t|name|elems|p props]; try apply same_store_refl.
  unfold bind at 1.
  pose proof (render_items_store elems st0) as Hr.
  destruct (TodoApp.render_items elems st0) as [[u|e] st1]; simpl in Hr; [|exact Hr].
  eapply same_store_trans; [exact Hr|].
  monad_unfold.
  destruct (tasks st1) as [ | |b|m e|s|t|name|all|p props]; simpl;
    try apply same_store_refl.
  destruct (array_filter _ all); simpl; repeat split.
Qed.

Lemma saveTasks_run (st : app) :
  TodoApp.saveTasks st =
  (Return tt,
   {| tasks := tasks st; currentFilter := currentFilter st;
      localStorage := <["tasks" := default "undefined" (JSON.stringify (tasks st))]>
                        (localStorage st);
      taskList := taskList st; totalTasks := totalTasks st;
      completedTasks := completedTasks st |}).
Proof. reflexivity. Qed.

Lemma addTask_run (st : app) (l : list value) (r : random) (now : Z)
    (title category status : value) :
  tasks st = VArray l ->
  TodoApp.addTask r now title category status st
  = TodoApp.renderTasks
      (persisted (with_tasks (VArray (l ++ [Task.constructor r now title category status])) st)).
Proof.
  intros Hl. unfold TodoApp.addTask.
  unfold bind at 1. unfold bind at 1. unfold tasks_array, bind, get.
  rewrite Hl. reflexivity.
Qed.

Lemma deleteTask_run (st : app) (l : list value) (taskId : string) :
  tasks st = VArray l ->
  Forall (fun t => readable t = true) l ->
  TodoApp.deleteTask taskId st
  = TodoApp.renderTasks
      (persisted (with_tasks (VArray (List.filter (fun t => negb (has_id taskId t)) l)) st)).
Proof.
  intros Hl Hr. unfold TodoApp.deleteTask.
  unfold bind at 1. unfold bind at 1. monad_unfold. rewrite Hl.
  rewrite (array_filter_readable (fun v => negb (strict_equals_string v taskId)) "id" l Hr).
  reflexivity.
Qed.

Lemma filter_length_split {A} (f : A -> bool) (l : list A) :
  (List.length (List.filter (fun x => negb (f x)) l) + List.length (List.filter f l)
   = List.length l)%nat.
Proof.
  induction l as [|x l IH]; simpl; [reflexivity|].
  destruct (f x); simpl; lia.
Qed.

Lemma filter_sublist {A} (f : A -> bool) (l : list A) :
  sublist (List.filter f l) l.
Proof.
  induction l as [|x l IH]; simpl; [constructor|].
  destruct (f x); [apply sublist_skip | apply sublist_cons]; exact IH.
Qed.

Lemma filter_all {A} (f : A -> bool) (l : list A) :
  (forall x, In x l -> f x = true) -> List.filter f l = l.
Proof.
  induction l as [|x l IH]; simpl; intros H; [reflexivity|].
  rewrite (H x (or_introl eq_refl)). f_equal. apply IH. intros y Hy. apply H. right. exact Hy.
Qed.

(** C2: for a state whose task list is an array and for string arguments,
    [addTask(title, category, status)] leaves the list one longer: the
    tasks that were there keep their places unchanged, and the task
    appended at the end has the title, category and status given. *)
Theorem addTask_appends (st : app) (l : list value) (r : random) (now : Z)
    (title category status : string) :
  tasks st = VArray l ->
  exists task,
    tasks (state_after (TodoApp.addTask r now (VString title) (VString category)
                          (VString status) st)) = VArray (l ++ [task]) /\
    List.length (l ++ [task])%list = S (List.length l) /\
    (forall (i : nat) (x : value), l !! i = Some x -> (l ++ [task])%list !! i = Some x) /\
    (l ++ [task])%list !! List.length l = Some task /\
    prop task "title" = VString title /\
    prop task "category" = VString category /\
    prop task "status" = VString status.
Proof.
  intros Hl.
  exists (Task.constructor r now (VString title) (VString category) (VString status)).
  rewrite (addTask_run st l _ _ _ _ _ Hl).
  unfold state_after.
  destruct (renderTasks_store
              (persisted (with_tasks
                 (VArray (l ++ [Task.constructor r now (VString title) (VString category)
                                  (VString status)])) st))) as (Ht & _ & _).
  rewrite Ht. simpl.
  split; [reflexivity|].
  split; [rewrite length_app; simpl; lia|].
  split; [intros i x Hi; apply lookup_app_l_Some; exact Hi|].
  split; [rewrite lookup_app_r by lia; replace (List.length l - List.length l)%nat with 0%nat by lia;
          reflexivity|].
  repeat split.
Qed.

Lemma addTask_appends_witness :
  exists task,
    tasks (state_after (TodoApp.addTask some_random 1700000000000 (VString "Buy milk")
                          (VString "home") (VString "not-started") fresh_app))
    = VArray ([] ++ [task]) /\
    List.length ([] ++ [task])%list = S (List.length ([] : list value)) /\
    (forall (i : nat) (x : value), ([] : list value) !! i = Some x -> ([] ++ [task])%list !! i = Some x) /\
    ([] ++ [task])%list !! List.length ([] : list value) = Some task /\
    prop task "title" = VString "Buy milk" /\
    prop task "category" = VString "home" /\
    prop task "status" = VString "not-started".
Proof.
  apply (addTask_appends fresh_app [] some_random 1700000000000
           "Buy milk" "home" "not-started").
  reflexivity.
Defined.

(** C3 (as the code has it): for a state whose task list is an array of
    readable elements, [deleteTask(id)] leaves exactly the tasks whose
    identifier differs from [id], in their order; the length decreases by
    the number of tasks that had the identifier, which is 1 when a single
    task has it; when no task has it the list is the same. *)
Theorem deleteTask_removes_all_with_id (st : app) (l : list value) (taskId : string) :
  tasks st = VArray l ->
  Forall (fun t => readable t = true) l ->
  let l' := List.filter (fun t => negb (has_id taskId t)) l in
  tasks (state_after (TodoApp.deleteTask taskId st)) = VArray l' /\
  sublist l' l /\
  (forall t, In t l' <-> In t l /\ has_id taskId t = false) /\
  (List.length l' + List.length (List.filter (has_id taskId) l) = List.length l)%nat /\
  (List.length (List.filter (has_id taskId) l) = 1%nat -> S (List.length l') = List.length l) /\
  ((forall t, In t l -> has_id taskId t = false) -> l' = l).
Proof.
  intros Hl Hr l'.
  rewrite (deleteTask_run st l taskId Hl Hr). unfold state_after.
  destruct (renderTasks_store
              (persisted (with_tasks (VArray l') st))) as (Ht & _ & _).
  fold l'. rewrite Ht. simpl.
  split; [reflexivity|].
  split; [apply filter_sublist|].
  split.
  { intros t. unfold l'. rewrite filter_In. rewrite negb_true_iff. reflexivity. }
  pose proof (filter_length_split (has_id taskId) l) as Hlen. fold l' in Hlen.
  split; [exact Hlen|].
  split; [intros H1; lia|].
  intros Hnone. unfold l'. apply filter_all. intros x Hx. rewrite (Hnone x Hx). reflexivity.
Qed.

Lemma deleteTask_removes_all_with_id_witness :
  let l := [Task.constructor some_random 1700000000000
              (VString "Buy milk") (VString "home") (VString "not-started")] in
  let l' := List.filter (fun t => negb (has_id "4xmvue8bu" t)) l in
  tasks (state_after (TodoApp.deleteTask "4xmvue8bu" (state_after (add_milk fresh_app))))
  = VArray l' /\
  sublist l' l /\
  (forall t, In t l' <-> In t l /\ has_id "4xmvue8bu" t = false) /\
  (List.length l' + List.length (List.filter (has_id "4xmvue8bu") l) = List.length l)%nat /\
  (List.length (List.filter (has_id "4xmvue8bu") l) = 1%nat -> S (List.length l') = List.length l) /\
  ((forall t, In t l -> has_id "4xmvue8bu" t = false) -> l' = l).
Proof.
  apply (deleteTask_removes_all_with_id (state_after (add_milk fresh_app))).
  - reflexivity.
  - repeat constructor.
Defined.

(** C3 as stated fails: in a list where two tasks share an identifier
    (two tasks made from the same random number, here 1/2 and the
    identifier "i"), [deleteTask] of that identifier removes both, so the
    length decreases by 2. *)
Lemma deleteTask_exactly_one_counterexample :
  ~ (forall (st : app) (l : list value) (taskId : string),
       tasks st = VArray l ->
       Forall (fun t => readable t = true) l ->
       (exists t, In t l /\ has_id taskId t = true) ->
       exists l', tasks (state_after (TodoApp.deleteTask taskId st)) = VArray l' /\
                  S (List.length l') = List.length l).
Proof.
  intros claim.
  destruct (claim two_tasks_one_id
              [new_task twin_a; new_task twin_b] "i") as (l' & Ht & Hlen).
  - reflexivity.
  - repeat constructor.
  - eexists. split; [left; reflexivity | reflexivity].
  - vm_compute in Ht. injection Ht as <-. simpl in Hlen. discriminate.
Qed.

(** C6: [getFilteredTasks()] leaves the state as it is; for a task list
    that is an array of readable elements it returns the whole list when
    the current filter is "all", and otherwise the tasks whose category is
    the current filter, in their original order. *)
Theorem getFilteredTasks_spec (st : app) (l : list value) :
  tasks st = VArray l ->
  Forall (fun t => readable t = true) l ->
  let selected := List.filter (in_category (currentFilter st)) l in
  snd (TodoApp.getFilteredTasks st) = st /\
  (currentFilter st = "all" -> fst (TodoApp.getFilteredTasks st) = Return (VArray l)) /\
  (currentFilter st <> "all" ->
     fst (TodoApp.getFilteredTasks st) = Return (VArray selected)) /\
  sublist selected l /\
  (forall t, In t selected <-> In t l /\ prop t "category" = VString (currentFilter st)).
Proof.
  intros Hl Hr selected.
  split; [apply getFilteredTasks_state|].
  split.
  { intros Hall. unfold TodoApp.getFilteredTasks. monad_unfold.
    rewrite Hall. simpl. rewrite Hl. reflexivity. }
  split.
  { intros Hne. unfold TodoApp.getFilteredTasks. monad_unfold.
    apply String.eqb_neq in Hne. rewrite Hne. rewrite Hl.
    rewrite (array_filter_readable
               (fun c => strict_equals_string c (currentFilter st)) "category" l Hr).
    reflexivity. }
  split; [apply filter_sublist|].
  intros t. unfold selected. rewrite filter_In. unfold in_category.
  split; intros [Hin Hc]; (split; [exact Hin|]).
  - destruct (prop t "category"); simpl in Hc; try discriminate.
    apply String.eqb_eq in Hc. subst. reflexivity.
  - rewrite Hc. simpl. apply String.eqb_refl.
Qed.

Lemma getFilteredTasks_spec_witness :
  let st := state_after (TodoApp.filter_click "work" two_tasks_one_id) in
  let l := [new_task twin_a; new_task twin_b] in
  let selected := List.filter (in_category (currentFilter st)) l in
  snd (TodoApp.getFilteredTasks st) = st /\
  (currentFilter st = "all" -> fst (TodoApp.getFilteredTasks st) = Return (VArray l)) /\
  (currentFilter st <> "all" ->
     fst (TodoApp.getFilteredTasks st) = Return (VArray selected)) /\
  sublist selected l /\
  (forall t, In t selected <-> In t l /\ prop t "category" = VString (currentFilter st)).
Proof.
  apply (getFilteredTasks_spec (state_after (TodoApp.filter_click "work" two_tasks_one_id))).
  - reflexivity.
  - repeat constructor.
Defined.

(** *** Loading *)

Lemma parse_throws_SyntaxError (text : string) (e : error) :
  JSON.parse text = Throw e -> e = SyntaxError.
Proof.
  unfold JSON.parse, JSON.finish.
  destruct (JSON.run (JSON.MValue, []) text) as [m stack].
  destruct m; try (intros H; injection H as <-; reflexivity); try discriminate.
  destruct stack; [|intros H; injection H as <-; reflexivity].
  destruct (JSON.number_final st); [discriminate|].
  intros H; injection H as <-; reflexivity.
Qed.

Lemma loadTasks_run (st : app) :
  TodoApp.loadTasks st =
  match localStorage st !! "tasks" with
  | None => (Return tt, st)
  | Some text =>
      if String.eqb text "" then (Return tt, st)
      else match JSON.parse text with
           | Return v => (Return tt, with_tasks v st)
           | Throw e => (Throw e, st)
           end
  end.
Proof.
  unfold TodoApp.loadTasks. monad_unfold.
  destruct (localStorage st !! "tasks") as [text|]; [|reflexivity].
  destruct (String.eqb text ""); simpl; [reflexivity|].
  destruct (JSON.parse text); reflexivity.
Qed.

Lemma constructor_run (storage : gmap string string) :
  TodoApp.constructor (browser storage) =
  match TodoApp.loadTasks (initialised storage) with
  | (Return _, st) => TodoApp.renderTasks st
  | (Throw e, st) => (Throw e, st)
  end.
Proof. reflexivity. Qed.

(** C8 (as the code has it): [loadTasks()] leaves the state as it is when
    no item is stored under "tasks" or when the item is the empty string;
    when the item is a non-empty valid JSON text the task list becomes the
    parsed value, whatever its shape; when it is a non-empty malformed
    text a [SyntaxError] is thrown and the state is as it was.  At startup
    this leaves the list empty in the first case, and aborts the
    constructor before anything is drawn in the last. *)
Theorem loadTasks_cases :
  (forall st : app,
     (localStorage st !! "tasks" = None -> TodoApp.loadTasks st = (Return tt, st)) /\
     (localStorage st !! "tasks" = Some "" -> TodoApp.loadTasks st = (Return tt, st)) /\
     (forall text v,
        localStorage st !! "tasks" = Some text -> text <> "" ->
        JSON.parse text = Return v ->
        TodoApp.loadTasks st = (Return tt, with_tasks v st)) /\
     (forall text e,
        localStorage st !! "tasks" = Some text -> text <> "" ->
        JSON.parse text = Throw e ->
        TodoApp.loadTasks st = (Throw SyntaxError, st))) /\
  (forall storage : gmap string string,
     (storage !! "tasks" = None \/ storage !! "tasks" = Some "" ->
      tasks (state_after (TodoApp.constructor (browser storage))) = VArray []) /\
     (forall text e,
        storage !! "tasks" = Some text -> text <> "" ->
        JSON.parse text = Throw e ->
        TodoApp.constructor (browser storage)
        = (Throw SyntaxError, initialised storage))).
Proof.
  split.
  - intros st. rewrite loadTasks_run.
    split; [intros ->; reflexivity|].
    split; [intros ->; reflexivity|].
    split.
    + intros text v -> Hne Hp. apply String.eqb_neq in Hne. rewrite Hne, Hp. reflexivity.
    + intros text e -> Hne Hp. apply String.eqb_neq in Hne. rewrite Hne, Hp.
      rewrite (parse_throws_SyntaxError _ _ Hp). reflexivity.
  - intros storage. rewrite constructor_run, loadTasks_run. cbn [localStorage initialised].
    split.
    + unfold state_after.
      intros [-> | ->]; simpl String.eqb; cbv iota;
        match goal with
        | |- tasks (snd (TodoApp.renderTasks ?s)) = _ =>
            destruct (renderTasks_store s) as (Ht & _ & _); rewrite Ht; reflexivity
        end.
    + intros text e -> Hne Hp. apply String.eqb_neq in Hne. rewrite Hne, Hp.
      rewrite (parse_throws_SyntaxError _ _ Hp). reflexivity.
Qed.

Lemma loadTasks_cases_witness :
  TodoApp.loadTasks (browser {[ "tasks" := "[]" ]})
  = (Return tt, with_tasks (VArray []) (browser {[ "tasks" := "[]" ]})) /\
  TodoApp.loadTasks (browser {[ "tasks" := "{oops" ]})
  = (Throw SyntaxError, browser {[ "tasks" := "{oops" ]}) /\
  TodoApp.loadTasks (browser ∅) = (Return tt, browser ∅).
Proof.
  split; [|split].
  - apply (proj1 (proj2 (proj2 (proj1 loadTasks_cases (browser {[ "tasks" := "[]" ]}))))
             "[]" (VArray [])).
    + reflexivity.
    + discriminate.
    + reflexivity.
  - apply (proj2 (proj2 (proj2 (proj1 loadTasks_cases (browser {[ "tasks" := "{oops" ]}))))
             "{oops" SyntaxError).
    + reflexivity.
    + discriminate.
    + reflexivity.
  - apply (proj1 (proj1 loadTasks_cases (browser ∅))). reflexivity.
Defined.

(** C8 as stated fails for one stored value: the empty string is present
    and is not valid JSON, yet [loadTasks()] throws nothing, because
    [if (savedTasks)] is false for it. *)
Lemma loadTasks_malformed_counterexample :
  ~ (forall (st : app) (text : string),
       localStorage st !! "tasks" = Some text ->
       JSON.parse text = Throw SyntaxError ->
       fst (TodoApp.loadTasks st) = Throw SyntaxError).
Proof.
  intros claim.
  specialize (claim (browser {[ "tasks" := "" ]}) "" eq_refl eq_refl).
  vm_compute in claim. discriminate.
Qed.

(** *** Lookup tables *)

(** C10 (as the code has it): for a name that is not inherited from
    [Object.prototype], [getStatusText] returns [undefined] outside the
    three statuses, and [getCategoryIcon] returns the fallback icon
    outside the three categories. *)
Theorem label_partial_icon_total (k : string) :
  inherited_name k = false ->
  (k <> "not-started" -> k <> "in-progress" -> k <> "completed" ->
   TodoApp.getStatusText k = VUndefined) /\
  (k <> "home" -> k <> "work" -> k <> "study" ->
   TodoApp.getCategoryIcon k = VString "📌").
Proof.
  unfold inherited_name. intros Hk. apply orb_false_elim in Hk as [Hf Hp].
  assert (Hget : object_prototype_get k = VUndefined)
    by (unfold object_prototype_get; rewrite Hf, Hp; reflexivity).
  split.
  - intros H1 H2 H3.
    apply not_eq_sym in H1, H2, H3.
    apply String.eqb_neq in H1, H2, H3.
    cbv beta iota delta [TodoApp.getStatusText object_get TodoApp.texts own_property
      prototype_get TaskStatus.NOT_STARTED TaskStatus.IN_PROGRESS TaskStatus.COMPLETED].
    rewrite H1, H2, H3. exact Hget.
  - intros H1 H2 H3.
    apply not_eq_sym in H1, H2, H3.
    apply String.eqb_neq in H1, H2, H3.
    cbv beta iota zeta delta [TodoApp.getCategoryIcon object_get TodoApp.icons own_property
      prototype_get TaskCategory.HOME TaskCategory.WORK TaskCategory.STUDY].
    rewrite H1, H2, H3. rewrite Hget. reflexivity.
Qed.

Lemma label_partial_icon_total_witness :
  (("archived" : string) <> "not-started" -> ("archived" : string) <> "in-progress" ->
   ("archived" : string) <> "completed" ->
   TodoApp.getStatusText "archived" = VUndefined) /\
  (("archived" : string) <> "home" -> ("archived" : string) <> "work" ->
   ("archived" : string) <> "study" ->
   TodoApp.getCategoryIcon "archived" = VString "📌").
Proof.
  apply (label_partial_icon_total "archived"). reflexivity.
Defined.

(** C10 as stated fails on the names a plain object inherits: "toString"
    is none of the three statuses, and [getStatusText("toString")] is the
    inherited function, not [undefined]. *)
Lemma getStatusText_inherited_counterexample :
  ~ (forall k : string,
       (k <> "not-started" -> k <> "in-progress" -> k <> "completed" ->
        TodoApp.getStatusText k = VUndefined) /\
       (k <> "home" -> k <> "work" -> k <> "study" ->
        TodoApp.getCategoryIcon k = VString "📌")).
Proof.
  intros claim.
  destruct (claim "toString") as [Hs _].
  assert (H : TodoApp.getStatusText "toString" = VUndefined)
    by (apply Hs; discriminate).
  vm_compute in H. discriminate.
Qed.

(** *** Identifiers *)

Lemma substring_length_le (n m : nat) (s : string) :
  (String.length (String.substring n m s) <= m)%nat.
Proof.
  revert n m. induction s as [|c s IH]; intros n m.
  - destruct n, m; simpl; lia.
  - destruct n as [|n].
    + destruct m as [|m]; simpl; [lia|]. specialize (IH 0%nat m). lia.
    + simpl. apply IH.
Qed.

Lemma substring_length_eq (n m : nat) (s : string) :
  (n + m <= String.length s)%nat ->
  String.length (String.substring n m s) = m.
Proof.
  revert n m. induction s as [|c s IH]; intros n m H.
  - simpl in H. assert (n = 0%nat) by lia. assert (m = 0%nat) by lia. subst. reflexivity.
  - destruct n as [|n].
    + destruct m as [|m]; simpl; [reflexivity|]. f_equal. apply IH. simpl in H. lia.
    + simpl. apply IH. simpl in H. lia.
Qed.

Lemma replace_value_other (k k' : string) (v : value) (props props' : list (string * value)) :
  k <> k' ->
  JSON.replace_value k' v props = Some props' ->
  own_property k props' = own_property k props.
Proof.
  intros Hne. revert props'.
  induction props as [|[k0 v0] props IH]; intros props' H; simpl in H; [discriminate|].
  destruct (String.eqb k0 k') eqn:E.
  - injection H as <-. simpl. apply String.eqb_eq in E. subst k0.
    apply not_eq_sym in Hne. apply String.eqb_neq in Hne. rewrite Hne. reflexivity.
  - destruct (JSON.replace_value k' v props) as [rest|]; [|discriminate].
    injection H as <-. simpl. rewrite (IH rest eq_refl). reflexivity.
Qed.

Lemma replace_value_same (k : string) (v : value) (props props' : list (string * value)) :
  JSON.replace_value k v props = Some props' ->
  own_property k props' = Some v.
Proof.
  revert props'.
  induction props as [|[k0 v0] props IH]; intros props' H; simpl in H; [discriminate|].
  destruct (String.eqb k0 k) eqn:E.
  - injection H as <-. simpl. rewrite E. reflexivity.
  - destruct (JSON.replace_value k v props) as [rest|]; [|discriminate].
    injection H as <-. simpl. rewrite E. apply IH. reflexivity.
Qed.

Lemma replace_value_None (k : string) (v : value) (props : list (string * value)) :
  JSON.replace_value k v props = None -> own_property k props = None.
Proof.
  induction props as [|[k0 v0] props IH]; simpl; [reflexivity|].
  destruct (String.eqb k0 k); [discriminate|].
  destruct (JSON.replace_value k v props); [discriminate|]. exact IH.
Qed.

Lemma own_property_app (k : string) (props more : list (string * value)) :
  own_property k (props ++ more) =
  match own_property k props with
  | Some v => Some v
  | None => own_property k more
  end.
Proof.
  induction props as [|[k0 v0] props IH]; simpl; [reflexivity|].
  destruct (String.eqb k0 k); [reflexivity | exact IH].
Qed.

(** Assigning [status] changes the [status] property and no other. *)
Lemma set_status_other (p : proto) (props : list (string * value)) (v : value) (k : string) :
  k <> "status" ->
  prop (Task.updateStatus (VObject p props) v) k = prop (VObject p props) k.
Proof.
  intros Hne. unfold Task.updateStatus, Task.set_property, prop, object_get.
  unfold JSON.define_property.
  destruct (JSON.replace_value "status" v props) as [props'|] eqn:E.
  - rewrite (replace_value_other k "status" v props props' Hne E). reflexivity.
  - change (JSON.index_of_key "status") with (@None N). cbv iota.
    rewrite own_property_app. cbn [own_property].
    apply not_eq_sym in Hne. apply String.eqb_neq in Hne. rewrite Hne.
    destruct (own_property k props); reflexivity.
Qed.

Lemma set_status_same (p : proto) (props : list (string * value)) (v : value) :
  prop (Task.updateStatus (VObject p props) v) "status" = v.
Proof.
  unfold Task.updateStatus, Task.set_property, prop, object_get.
  unfold JSON.define_property.
  destruct (JSON.replace_value "status" v props) as [props'|] eqn:E.
  - rewrite (replace_value_same "status" v props props' E). reflexivity.
  - change (JSON.index_of_key "status") with (@None N). cbv iota.
    rewrite own_property_app. rewrite (replace_value_None _ _ _ E).
    cbn [own_property]. rewrite String.eqb_refl. reflexivity.
Qed.

Lemma updateStatus_id (t v : value) :
  prop (Task.updateStatus t v) "id" = prop t "id".
Proof.
  destruct t; try reflexivity. apply set_status_other. discriminate.
Qed.

Lemma call_updateStatus_Return (task newStatus task' : value) :
  Task.call_updateStatus task newStatus = Return task' ->
  task' = Task.updateStatus task newStatus.
Proof.
  unfold Task.call_updateStatus.
  destruct (get_prop task "updateStatus") as [f|e]; simpl; [|discriminate].
  destruct f; try discriminate.
  destruct (String.eqb name "Task.prototype.updateStatus"); [|discriminate].
  intros H. injection H as <-. reflexivity.
Qed.

Lemma array_find_Some (f : value -> completion bool) (l : list value) (i : nat) (t : value) :
  array_find f l = Return (Some (i, t)) ->
  l !! i = Some t /\ f t = Return true.
Proof.
  revert i. induction l as [|x l IH]; intros i; simpl; [discriminate|].
  destruct (f x) as [[|]|e] eqn:E; simpl; try discriminate.
  - intros H. injection H as <- <-. split; [reflexivity | exact E].
  - destruct (array_find f l) as [[[j y]|]|e]; simpl; try discriminate.
    intros H. injection H as <- <-. apply IH. reflexivity.
Qed.

Lemma updateTaskStatus_run (st : app) (l : list value) (taskId : string) (newStatus : value) :
  tasks st = VArray l ->
  TodoApp.updateTaskStatus taskId newStatus st =
  match find_by_id taskId l with
  | Throw e => (Throw e, st)
  | Return None => (Return tt, st)
  | Return (Some (i, task)) =>
      if to_boolean task then
        match Task.call_updateStatus task newStatus with
        | Return task' =>
            TodoApp.renderTasks (persisted (with_tasks (VArray (<[i := task']> l)) st))
        | Throw e => (Throw e, st)
        end
      else (Return tt, st)
  end.
Proof.
  intros Hl. unfold TodoApp.updateTaskStatus, find_by_id.
  unfold bind at 1. unfold tasks_array, bind at 1, get. rewrite Hl.
  unfold ret at 1. unfold bind at 1. unfold lift at 1.
  destruct (array_find _ l) as [[[i task]|]|e]; try reflexivity.
  destruct (to_boolean task); [|reflexivity].
  unfold bind at 1. unfold lift at 1.
  destruct (Task.call_updateStatus task newStatus); reflexivity.
Qed.

Lemma array_filter_sublist (f : value -> completion bool) (l l' : list value) :
  array_filter f l = Return l' -> sublist l' l.
Proof.
  revert l'. induction l as [|x l IH]; intros l'; simpl.
  - intros H. injection H as <-. constructor.
  - destruct (f x) as [keep|e]; simpl; [|discriminate].
    destruct (array_filter f l) as [rest|e]; simpl; [|discriminate].
    intros H. injection H as <-.
    destruct keep; [apply sublist_skip | apply sublist_cons]; apply IH; reflexivity.
Qed.

Lemma deleteTask_run_any (st : app) (l : list value) (taskId : string) :
  tasks st = VArray l ->
  TodoApp.deleteTask taskId st =
  match array_filter (fun t =>
          cbind (get_prop t "id") (fun id =>
          Return (negb (strict_equals_string id taskId)))) l with
  | Return l' => TodoApp.renderTasks (persisted (with_tasks (VArray l') st))
  | Throw e => (Throw e, st)
  end.
Proof.
  intros Hl. unfold TodoApp.deleteTask.
  unfold bind at 1. unfold bind at 1. monad_unfold. rewrite Hl.
  destruct (array_filter _ l); reflexivity.
Qed.

Lemma renderTasks_tasks (st : app) :
  tasks (snd (TodoApp.renderTasks st)) = tasks st.
Proof. destruct (renderTasks_store st) as (H & _). exact H. Qed.

Lemma updateTaskStatus_ids (st : app) (l : list value) (taskId : string) (newStatus : value) :
  tasks st = VArray l ->
  exists l',
    tasks (state_after (TodoApp.updateTaskStatus taskId newStatus st)) = VArray l' /\
    List.map (fun t => prop t "id") l' = List.map (fun t => prop t "id") l.
Proof.
  intros Hl. rewrite (updateTaskStatus_run st l taskId newStatus Hl). unfold state_after.
  destruct (find_by_id taskId l) as [[[i task]|]|e] eqn:Ef;
    try (exists l; split; [exact Hl | reflexivity]).
  destruct (to_boolean task); [|exists l; split; [exact Hl | reflexivity]].
  destruct (Task.call_updateStatus task newStatus) as [task'|e] eqn:Ec;
    [|exists l; split; [exact Hl | reflexivity]].
  exists (<[i := task']> l). split; [rewrite renderTasks_tasks; reflexivity|].
  apply call_updateStatus_Return in Ec. subst task'.
  apply array_find_Some in Ef as [Hi _].
  change (List.map (fun t => prop t "id") (<[i := Task.updateStatus task newStatus]> l))
    with ((fun t => prop t "id") <$> (<[i := Task.updateStatus task newStatus]> l)).
  rewrite list_fmap_insert. rewrite updateStatus_id.
  rewrite list_insert_id; [reflexivity|].
  rewrite list_lookup_fmap, Hi. reflexivity.
Qed.

(** C9 (as the code has it): the identifier given by the constructor is a
    string of at most 9 characters, whatever the arguments and the random
    number (exactly 9 when the base-36 text of the random number, as
    [toString36] gives it, has 9 digits or more after "0.");
    [updateStatus] leaves it as it is, and so do the operations of the
    store: [addTask] keeps the tasks that were
    there, [updateTaskStatus] keeps the identifier of every task, and
    [deleteTask] only removes tasks.  ([calculatePriority] returns a number
    and changes nothing.) *)
Theorem task_id_at_most_9_and_stable (r : random) (now : Z)
    (title category status : value) :
  let task := Task.constructor r now title category status in
  exists id : string,
    prop task "id" = VString id /\
    (String.length id <= 9)%nat /\
    ((11 <= String.length (toString36 r))%nat -> String.length id = 9%nat) /\
    (forall newStatus : value,
       prop (Task.updateStatus task newStatus) "id" = VString id) /\
    (forall (st : app) (l : list value),
       tasks st = VArray l ->
       (forall r' now' title' category' status',
          exists new,
            tasks (state_after (TodoApp.addTask r' now' title' category' status' st))
            = VArray (l ++ [new])) /\
       (forall taskId newStatus,
          exists l',
            tasks (state_after (TodoApp.updateTaskStatus taskId newStatus st)) = VArray l' /\
            List.map (fun t => prop t "id") l' = List.map (fun t => prop t "id") l) /\
       (forall taskId,
          exists l',
            tasks (state_after (TodoApp.deleteTask taskId st)) = VArray l' /\
            sublist l' l)).
Proof.
  intros task. exists (js_substring (toString36 r) 2 11).
  split; [reflexivity|].
  split; [apply substring_length_le|].
  split; [intros H; apply substring_length_eq; simpl; lia|].
  split; [intros newStatus; unfold task; rewrite updateStatus_id; reflexivity|].
  intros st l Hl. split; [|split].
  - intros r' now' title' category' status'. eexists.
    rewrite (addTask_run st l _ _ _ _ _ Hl). unfold state_after.
    rewrite renderTasks_tasks. reflexivity.
  - intros taskId newStatus. apply updateTaskStatus_ids. exact Hl.
  - intros taskId. rewrite (deleteTask_run_any st l taskId Hl). unfold state_after.
    destruct (array_filter _ l) as [l'|e] eqn:E.
    + exists l'. split; [rewrite renderTasks_tasks; reflexivity|].
      eapply array_filter_sublist. exact E.
    + exists l. split; [exact Hl | reflexivity].
Qed.

Lemma task_id_at_most_9_and_stable_witness :
  exists id : string,
    prop (Task.constructor some_random 1700000000000
            (VString "Buy milk") (VString "home") (VString "not-started")) "id"
    = VString id /\
    (String.length id <= 9)%nat /\
    String.length id = 9%nat /\
    tasks (state_after (TodoApp.updateTaskStatus id (VString "completed")
                          (state_after (add_milk fresh_app))))
    = VArray [Task.constructor some_random 1700000000000
                (VString "Buy milk") (VString "home") (VString "completed")].
Proof.
  destruct (task_id_at_most_9_and_stable some_random 1700000000000
              (VString "Buy milk") (VString "home") (VString "not-started"))
    as (id & Hid & Hle & H9 & _).
  exists id. split; [exact Hid|]. split; [exact Hle|].
  split; [apply H9; vm_compute; lia|].
  vm_compute in Hid. injection Hid as <-. reflexivity.
Defined.

(** C9 as stated fails: the random number 1/2 is written "0.i" in base
    36, so the identifier is "i", one character long. *)
Lemma task_id_length_counterexample :
  ~ (forall (r : random) (now : Z) (title category status : value),
       random_in_range r = true ->
       exists id : string,
         prop (Task.constructor r now title category status) "id" = VString id /\
         String.length id = 9%nat).
Proof.
  intros claim.
  destruct (claim one_half 1700000000000 (VString "Buy milk") (VString "home")
              (VString "not-started") eq_refl) as (id & Hid & Hlen).
  vm_compute in Hid. injection Hid as <-. discriminate.
Qed.

(** *** Doubles *)

(** Powers of two. *)

Lemma two_neq_0 : ~ (2 == 0)%Q.
Proof. discriminate. Qed.

Lemma pow2_pos (e : Z) : (0 < pow2 e)%Q.
Proof. apply Qpower_0_lt. reflexivity. Qed.

Lemma pow2_add (a b : Z) : (pow2 (a + b) == pow2 a * pow2 b)%Q.
Proof. apply Qpower_plus, two_neq_0. Qed.

Lemma pow2_le (a b : Z) : a <= b -> (pow2 a <= pow2 b)%Q.
Proof. intros H. apply Qpower_le_compat_l; [exact H | discriminate]. Qed.

Lemma pow2_lt (a b : Z) : a < b -> (pow2 a < pow2 b)%Q.
Proof. intros H. apply Qpower_lt_compat_l; [exact H | reflexivity]. Qed.

Lemma pow2_lt_inv (a b : Z) : (pow2 a < pow2 b)%Q -> a < b.
Proof. intros H. eapply Qpower_lt_compat_l_inv; [exact H | reflexivity]. Qed.

Lemma pow2_Z (n : Z) : 0 <= n -> (pow2 n == inject_Z (2 ^ n))%Q.
Proof. intros H. unfold pow2. rewrite Zpower_Qpower by exact H. reflexivity. Qed.

Lemma pow2_succ (e : Z) : (pow2 (e + 1) == 2 * pow2 e)%Q.
Proof. rewrite pow2_add. change (pow2 1) with 2%Q. ring. Qed.

Lemma pow2_cancel (e : Z) : (pow2 e * pow2 (- e) == 1)%Q.
Proof. rewrite <- pow2_add. replace (e + - e) with 0 by lia. reflexivity. Qed.

(** The binary exponent of a positive number. *)

Lemma ilog2_unique (x : Q) (e e' : Z) :
  (pow2 e <= x)%Q -> (x < pow2 (e + 1))%Q ->
  (pow2 e' <= x)%Q -> (x < pow2 (e' + 1))%Q -> e = e'.
Proof.
  intros H1 H2 H3 H4.
  assert (e < e' + 1) by (apply pow2_lt_inv; lra).
  assert (e' < e + 1) by (apply pow2_lt_inv; lra).
  lia.
Qed.

Lemma Q_as_fraction (x : Q) : (x == inject_Z (Qnum x) / inject_Z (Zpos (Qden x)))%Q.
Proof. destruct x as [n d]. cbn [Qnum Qden]. apply Qmake_Qdiv. Qed.

Lemma ilog2_spec (x : Q) :
  (0 < x)%Q -> (pow2 (ilog2 x) <= x)%Q /\ (x < pow2 (ilog2 x + 1))%Q.
Proof.
  intros Hx. unfold ilog2.
  set (n := Qnum x). set (d := Zpos (Qden x)).
  assert (Hn : 0 < n) by (destruct x as [xn xd]; unfold Qlt in Hx; cbn in *; lia).
  assert (Hd : 0 < d) by (unfold d; lia).
  destruct (Z.log2_spec n Hn) as [Hn1 Hn2].
  destruct (Z.log2_spec d Hd) as [Hd1 Hd2].
  set (a := Z.log2 n) in *. set (b := Z.log2 d) in *.
  assert (Ha : 0 <= a) by apply Z.log2_nonneg.
  assert (Hb : 0 <= b) by apply Z.log2_nonneg.
  assert (Hxe : (x * inject_Z d == inject_Z n)%Q).
  { rewrite (Q_as_fraction x) at 1. fold n d. field.
    intros E. apply (inject_Z_injective d 0) in E. lia. }
  assert (Qn1 : (pow2 a <= inject_Z n)%Q) by (rewrite pow2_Z by lia; rewrite <- Zle_Qle; exact Hn1).
  assert (Qn2 : (inject_Z n < pow2 (a + 1))%Q)
    by (rewrite pow2_Z by lia; rewrite <- Zlt_Qlt; unfold Z.succ in Hn2; exact Hn2).
  assert (Qd1 : (pow2 b <= inject_Z d)%Q) by (rewrite pow2_Z by lia; rewrite <- Zle_Qle; exact Hd1).
  assert (Qd2 : (inject_Z d < pow2 (b + 1))%Q)
    by (rewrite pow2_Z by lia; rewrite <- Zlt_Qlt; unfold Z.succ in Hd2; exact Hd2).
  assert (Hupper : (x < pow2 (a - b + 1))%Q).
  { apply Qmult_lt_r with (z := pow2 b); [apply pow2_pos|].
    rewrite <- pow2_add. replace (a - b + 1 + b) with (a + 1) by lia.
    apply Qle_lt_trans with (y := (x * inject_Z d)%Q); [|rewrite Hxe; exact Qn2].
    apply Qmult_le_l; [exact Hx | exact Qd1]. }
  assert (Hlower : (pow2 (a - b - 1) < x)%Q).
  { apply Qmult_lt_r with (z := pow2 (b + 1)); [apply pow2_pos|].
    rewrite <- pow2_add. replace (a - b - 1 + (b + 1)) with a by lia.
    apply Qle_lt_trans with (y := (x * inject_Z d)%Q); [rewrite Hxe; exact Qn1|].
    apply Qmult_lt_l; [exact Hx | exact Qd2]. }
  destruct (Qle_bool (pow2 (a - b)) x) eqn:E.
  - apply Qle_bool_iff in E. split; assumption.
  - assert (Hlt : (x < pow2 (a - b))%Q).
    { apply Qnot_le_lt. intros H. apply Qle_bool_iff in H. congruence. }
    replace (a - b - 1 + 1) with (a - b) by lia. split; [lra | exact Hlt].
Qed.

Lemma ilog2_eq (x : Q) (e : Z) :
  (pow2 e <= x)%Q -> (x < pow2 (e + 1))%Q -> ilog2 x = e.
Proof.
  intros H1 H2.
  assert (Hx : (0 < x)%Q) by (pose proof (pow2_pos e); lra).
  destruct (ilog2_spec x Hx) as [H3 H4].
  eapply ilog2_unique; eassumption.
Qed.

Lemma ilog2_comp (x y : Q) : (0 < x)%Q -> (x == y)%Q -> ilog2 x = ilog2 y.
Proof.
  intros Hx E. destruct (ilog2_spec x Hx) as [H1 H2].
  symmetry. apply ilog2_eq; rewrite <- E; assumption.
Qed.

Lemma ilog2_mono (x y : Q) : (0 < x)%Q -> (x <= y)%Q -> ilog2 x <= ilog2 y.
Proof.
  intros Hx Hxy.
  destruct (ilog2_spec x Hx) as [H1 _].
  destruct (ilog2_spec y) as [_ H4]; [lra|].
  assert (ilog2 x < ilog2 y + 1) by (apply pow2_lt_inv; lra). lia.
Qed.

(** Rounding to the nearest integer, ties to even. *)

Lemma rne_cases (q : Q) :
  let f := Qfloor q in
  let r := (q - inject_Z f)%Q in
  (0 <= r)%Q /\ (r < 1)%Q /\
  ((r < 1 # 2)%Q /\ rne q = f \/
   (1 # 2 < r)%Q /\ rne q = f + 1 \/
   (r == 1 # 2)%Q /\ (rne q = f \/ rne q = f + 1)).
Proof.
  intros f r.
  pose proof (Qfloor_le q) as H1. pose proof (Qlt_floor q) as H2.
  fold f in H1, H2. rewrite inject_Z_plus in H2. change (inject_Z 1) with 1%Q in H2.
  assert (Hr0 : (0 <= r)%Q) by (unfold r; lra).
  assert (Hr1 : (r < 1)%Q) by (unfold r; lra).
  split; [exact Hr0|]. split; [exact Hr1|].
  unfold rne. fold f. fold r.
  destruct (r ?= 1 # 2)%Q eqn:E.
  - apply Qeq_alt in E. right. right. split; [exact E|].
    destruct (Z.even f); [left | right]; reflexivity.
  - apply Qlt_alt in E. left. split; [exact E | reflexivity].
  - apply Qgt_alt in E. right. left. split; [exact E | reflexivity].
Qed.

Lemma rne_comp (q q' : Q) : (q == q')%Q -> rne q = rne q'.
Proof.
  intros E. unfold rne. rewrite (Qfloor_comp q q' E).
  assert (E' : (q - inject_Z (Qfloor q') == q' - inject_Z (Qfloor q'))%Q)
    by (rewrite E; reflexivity).
  rewrite (Qcompare_comp _ _ E' (1 # 2) (1 # 2) (Qeq_refl _)). reflexivity.
Qed.

Lemma rne_Z (z : Z) : rne (inject_Z z) = z.
Proof.
  unfold rne. rewrite Qfloor_Z.
  assert (E : (inject_Z z - inject_Z z == 0)%Q) by ring.
  rewrite (Qcompare_comp _ _ E (1 # 2) (1 # 2) (Qeq_refl _)). reflexivity.
Qed.


Lemma rne_mono (q q' : Q) : (q <= q')%Q -> rne q <= rne q'.
Proof.
  intros Hle.
  pose proof (Qfloor_resp_le q q' Hle) as Hf.
  destruct (rne_cases q) as (H0 & H1 & Hq).
  destruct (rne_cases q') as (H0' & H1' & Hq').
  destruct (Z.eq_dec (Qfloor q) (Qfloor q')) as [E|NE].
  - assert (Hr : (q - inject_Z (Qfloor q) <= q' - inject_Z (Qfloor q'))%Q)
      by (rewrite E; lra).
    destruct Hq as [[H ->]|[[H ->]|[H Hq]]];
      destruct Hq' as [[H' ->]|[[H' ->]|[H' Hq']]]; try lia; try lra.
    assert (Eq : (q == q')%Q) by (rewrite E in H; lra).
    rewrite (rne_comp q q' Eq). lia.
  - assert (Qfloor q + 1 <= Qfloor q') by lia.
    assert (rne q <= Qfloor q + 1)
      by (destruct Hq as [[_ ->]|[[_ ->]|[_ [-> | ->]]]]; lia).
    assert (Qfloor q' <= rne q')
      by (destruct Hq' as [[_ ->]|[[_ ->]|[_ [-> | ->]]]]; lia).
    lia.
Qed.

(** Rounding to the nearest double. *)

Lemma scaled_bounds (x : Q) :
  (0 < x)%Q ->
  (pow2 52 <= x * pow2 (52 - ilog2 x))%Q /\ (x * pow2 (52 - ilog2 x) < pow2 53)%Q.
Proof.
  intros Hx. destruct (ilog2_spec x Hx) as [H1 H2].
  set (e := ilog2 x) in *.
  pose proof (pow2_pos (52 - e)) as Hp.
  assert (E1 : (pow2 52 == pow2 e * pow2 (52 - e))%Q)
    by (rewrite <- pow2_add; replace (e + (52 - e)) with 52 by lia; reflexivity).
  assert (E2 : (pow2 53 == pow2 (e + 1) * pow2 (52 - e))%Q)
    by (rewrite <- pow2_add; replace (e + 1 + (52 - e)) with 53 by lia; reflexivity).
  split.
  - rewrite E1. apply Qmult_le_r; assumption.
  - rewrite E2. apply Qmult_lt_r; assumption.
Qed.

Lemma RN_pos_eq (x : Q) :
  (RN_pos x == inject_Z (rne (x * pow2 (52 - ilog2 x))) * pow2 (ilog2 x - 52))%Q.
Proof. unfold RN_pos. apply Qred_correct. Qed.

Lemma mantissa_bounds (x : Q) :
  (0 < x)%Q ->
  2 ^ 52 <= rne (x * pow2 (52 - ilog2 x)) <= 2 ^ 53.
Proof.
  intros Hx. destruct (scaled_bounds x Hx) as [H1 H2].
  split.
  - rewrite <- (rne_Z (2 ^ 52)). apply rne_mono.
    rewrite <- pow2_Z by lia. exact H1.
  - rewrite <- (rne_Z (2 ^ 53)). apply rne_mono.
    rewrite <- pow2_Z by lia. apply Qlt_le_weak. exact H2.
Qed.

Lemma RN_pos_bounds (x : Q) :
  (0 < x)%Q ->
  (pow2 (ilog2 x) <= RN_pos x)%Q /\ (RN_pos x <= pow2 (ilog2 x + 1))%Q.
Proof.
  intros Hx. destruct (mantissa_bounds x Hx) as [H1 H2].
  rewrite RN_pos_eq. set (e := ilog2 x). set (M := rne _) in *.
  pose proof (pow2_pos (e - 52)) as Hp.
  assert (E1 : (pow2 e == pow2 52 * pow2 (e - 52))%Q)
    by (rewrite <- pow2_add; replace (52 + (e - 52)) with e by lia; reflexivity).
  assert (E2 : (pow2 (e + 1) == pow2 53 * pow2 (e - 52))%Q)
    by (rewrite <- pow2_add; replace (53 + (e - 52)) with (e + 1) by lia; reflexivity).
  split.
  - rewrite E1. apply Qmult_le_r; [exact Hp|].
    rewrite pow2_Z by lia. rewrite <- Zle_Qle. exact H1.
  - rewrite E2. apply Qmult_le_r; [exact Hp|].
    rewrite pow2_Z by lia. rewrite <- Zle_Qle. exact H2.
Qed.

Lemma RN_pos_comp (x y : Q) : (0 < x)%Q -> (x == y)%Q -> (RN_pos x == RN_pos y)%Q.
Proof.
  intros Hx E. rewrite !RN_pos_eq. rewrite <- (ilog2_comp x y Hx E).
  rewrite (rne_comp (x * pow2 (52 - ilog2 x)) (y * pow2 (52 - ilog2 x)));
    [reflexivity | apply Qmult_comp; [exact E | reflexivity]].
Qed.

Lemma RN_pos_mono (x y : Q) : (0 < x)%Q -> (x <= y)%Q -> (RN_pos x <= RN_pos y)%Q.
Proof.
  intros Hx Hxy. assert (Hy : (0 < y)%Q) by lra.
  pose proof (ilog2_mono x y Hx Hxy) as He.
  destruct (Z.eq_dec (ilog2 x) (ilog2 y)) as [E|NE].
  - rewrite !RN_pos_eq. rewrite <- E.
    apply Qmult_le_r; [apply pow2_pos|].
    rewrite <- Zle_Qle. apply rne_mono.
    apply Qmult_le_r; [apply pow2_pos | exact Hxy].
  - destruct (RN_pos_bounds x Hx) as [_ H1]. destruct (RN_pos_bounds y Hy) as [H2 _].
    assert (Hp : (pow2 (ilog2 x + 1) <= pow2 (ilog2 y))%Q) by (apply pow2_le; lia).
    lra.
Qed.

Lemma RN_pos_exact (m e : Z) :
  0 < m < 2 ^ 53 ->
  (RN_pos (inject_Z m * pow2 e) == inject_Z m * pow2 e)%Q.
Proof.
  intros Hm. set (x := (inject_Z m * pow2 e)%Q).
  destruct (Z.log2_spec m) as [H1 H2]; [lia|]. set (a := Z.log2 m) in *.
  assert (Ha0 : 0 <= a) by apply Z.log2_nonneg.
  assert (Ha : a < 53).
  { apply Z.log2_lt_pow2; lia. }
  assert (Hlog : ilog2 x = a + e).
  { apply ilog2_eq; unfold x.
    - rewrite pow2_add.
      apply Qmult_le_r; [apply pow2_pos|]. rewrite pow2_Z by lia.
      rewrite <- Zle_Qle. exact H1.
    - replace (a + e + 1) with (a + 1 + e) by lia. rewrite pow2_add.
      apply Qmult_lt_r; [apply pow2_pos|]. rewrite pow2_Z by lia.
      rewrite <- Zlt_Qlt. exact H2. }
  rewrite RN_pos_eq, Hlog.
  assert (Es : (x * pow2 (52 - (a + e)) == inject_Z (m * 2 ^ (52 - a)))%Q).
  { unfold x. rewrite inject_Z_mult. rewrite <- pow2_Z by lia.
    rewrite <- Qmult_assoc, <- pow2_add.
    replace (e + (52 - (a + e))) with (52 - a) by lia. reflexivity. }
  rewrite (rne_comp _ _ Es), rne_Z. rewrite inject_Z_mult, <- pow2_Z by lia.
  unfold x. rewrite <- Qmult_assoc, <- pow2_add.
  replace (52 - a + (a + e - 52)) with e by lia. reflexivity.
Qed.

Lemma RN_0 : RN 0 = 0%Q.
Proof. reflexivity. Qed.

Lemma RN_pos_case (x : Q) : (0 < x)%Q -> RN x = RN_pos x.
Proof.
  intros H. unfold RN.
  destruct (x ?= 0)%Q eqn:E;
    [apply Qeq_alt in E; lra | apply Qlt_alt in E; lra | reflexivity].
Qed.

Lemma RN_neg_case (x : Q) : (x < 0)%Q -> RN x = (- RN_pos (- x))%Q.
Proof.
  intros H. unfold RN.
  destruct (x ?= 0)%Q eqn:E;
    [apply Qeq_alt in E; lra | reflexivity | apply Qgt_alt in E; lra].
Qed.

Lemma RN_zero_case (x : Q) : (x == 0)%Q -> RN x = 0%Q.
Proof.
  intros H. unfold RN.
  destruct (x ?= 0)%Q eqn:E;
    [reflexivity | apply Qlt_alt in E; lra | apply Qgt_alt in E; lra].
Qed.

Lemma RN_pos_pos (x : Q) : (0 < x)%Q -> (0 < RN_pos x)%Q.
Proof.
  intros H. destruct (RN_pos_bounds x H) as [H1 _].
  pose proof (pow2_pos (ilog2 x)). lra.
Qed.

Lemma RN_comp (x y : Q) : (x == y)%Q -> (RN x == RN y)%Q.
Proof.
  intros E. destruct (Q_dec x 0) as [[H|H]|H].
  - rewrite (RN_neg_case x H), (RN_neg_case y) by lra.
    rewrite (RN_pos_comp (- x) (- y)); [reflexivity | lra | apply Qopp_comp; exact E].
  - rewrite (RN_pos_case x H), (RN_pos_case y) by lra.
    apply RN_pos_comp; assumption.
  - rewrite (RN_zero_case x H), (RN_zero_case y); [reflexivity | lra].
Qed.

Lemma RN_mono (x y : Q) : (x <= y)%Q -> (RN x <= RN y)%Q.
Proof.
  intros Hxy.
  destruct (Q_dec x 0) as [[Hx|Hx]|Hx]; destruct (Q_dec y 0) as [[Hy|Hy]|Hy];
    try lra.
  - rewrite (RN_neg_case x Hx), (RN_neg_case y Hy).
    pose proof (RN_pos_mono (- y) (- x)). lra.
  - rewrite (RN_neg_case x Hx), (RN_pos_case y Hy).
    pose proof (RN_pos_pos (- x)). pose proof (RN_pos_pos y Hy). lra.
  - rewrite (RN_neg_case x Hx), (RN_zero_case y Hy).
    pose proof (RN_pos_pos (- x)). lra.
  - rewrite (RN_pos_case x Hx), (RN_pos_case y Hy). apply RN_pos_mono; assumption.
  - rewrite (RN_zero_case x Hx), (RN_pos_case y Hy).
    pose proof (RN_pos_pos y Hy). lra.
  - rewrite (RN_zero_case x Hx), (RN_zero_case y Hy). lra.
Qed.

Lemma RN_exact (m e : Z) :
  Z.abs m < 2 ^ 53 -> (RN (inject_Z m * pow2 e) == inject_Z m * pow2 e)%Q.
Proof.
  intros Hm. pose proof (pow2_pos e) as Hp.
  destruct (Z.lt_trichotomy m 0) as [H|[H|H]].
  - assert (Hx : (inject_Z m * pow2 e < 0)%Q).
    { assert (Hneg : (inject_Z m < 0)%Q)
        by (change 0%Q with (inject_Z 0); rewrite <- Zlt_Qlt; lia).
      assert (H0 : (inject_Z m * pow2 e < 0 * pow2 e)%Q)
        by (apply Qmult_lt_r; assumption).
      rewrite Qmult_0_l in H0. exact H0. }
    rewrite (RN_neg_case _ Hx).
    assert (E : (- (inject_Z m * pow2 e) == inject_Z (- m) * pow2 e)%Q)
      by (rewrite inject_Z_opp; ring).
    assert (Hx' : (0 < - (inject_Z m * pow2 e))%Q).
    { apply (Qplus_lt_l _ _ (inject_Z m * pow2 e)). ring_simplify. exact Hx. }
    rewrite (RN_pos_comp _ _ Hx' E), RN_pos_exact by lia.
    rewrite inject_Z_opp. ring.
  - subst m. rewrite RN_zero_case; [|ring]. ring.
  - assert (Hx : (0 < inject_Z m * pow2 e)%Q).
    { assert (Hpos : (0 < inject_Z m)%Q)
        by (change 0%Q with (inject_Z 0); rewrite <- Zlt_Qlt; lia).
      assert (H0 : (0 * pow2 e < inject_Z m * pow2 e)%Q)
        by (apply Qmult_lt_r; assumption).
      rewrite Qmult_0_l in H0. exact H0. }
    rewrite (RN_pos_case _ Hx). apply RN_pos_exact. lia.
Qed.

Lemma RN_Z (z : Z) : Z.abs z < 2 ^ 53 -> (RN (inject_Z z) == inject_Z z)%Q.
Proof.
  intros H. pose proof (RN_exact z 0 H) as E. change (pow2 0) with 1%Q in E.
  rewrite (RN_comp (inject_Z z) (inject_Z z * 1)) by ring. rewrite E. ring.
Qed.

Lemma double_comp (x y : Q) : (x == y)%Q -> double x -> double y.
Proof. intros E (m & e & Hm & Hx). exists m, e. split; [exact Hm|]. rewrite <- E. exact Hx. Qed.

Lemma RN_double (x : Q) : double x -> (RN x == x)%Q.
Proof.
  intros (m & e & Hm & Hx). rewrite (RN_comp _ _ Hx), Hx. apply RN_exact. exact Hm.
Qed.

Lemma double_RN_pos (x : Q) : (0 < x)%Q -> double (RN_pos x).
Proof.
  intros Hx. destruct (mantissa_bounds x Hx) as [H1 H2].
  set (M := rne (x * pow2 (52 - ilog2 x))) in *.
  destruct (Z.eq_dec M (2 ^ 53)) as [E|NE].
  - exists (2 ^ 52), (ilog2 x - 51). split; [reflexivity|].
    rewrite RN_pos_eq. fold M. rewrite E.
    rewrite <- !pow2_Z by lia. rewrite <- !pow2_add.
    replace (53 + (ilog2 x - 52)) with (52 + (ilog2 x - 51)) by lia. reflexivity.
  - exists M, (ilog2 x - 52). split; [lia|]. apply RN_pos_eq.
Qed.

Lemma double_opp (x : Q) : double x -> double (- x).
Proof.
  intros (m & e & Hm & Hx). exists (- m), e. split; [lia|].
  rewrite Hx, inject_Z_opp. ring.
Qed.

Lemma double_0 : double 0.
Proof. exists 0, 0. split; [reflexivity | reflexivity]. Qed.

Lemma double_RN (x : Q) : double (RN x).
Proof.
  destruct (Q_dec x 0) as [[H|H]|H].
  - rewrite (RN_neg_case x H). apply double_opp, double_RN_pos. lra.
  - rewrite (RN_pos_case x H). apply double_RN_pos. exact H.
  - rewrite (RN_zero_case x H). apply double_0.
Qed.

Lemma double_pow2 (e : Z) : double (pow2 e).
Proof. exists 1, e. split; [reflexivity | ring]. Qed.

Lemma double_twice (x : Q) : double x -> double (2 * x).
Proof.
  intros (m & e & Hm & Hx). exists m, (e + 1). split; [exact Hm|].
  rewrite Hx, pow2_succ. ring.
Qed.

Lemma RN_nonneg (x : Q) : (0 <= x)%Q -> (0 <= RN x)%Q.
Proof. intros H. apply (RN_mono 0 x H). Qed.

Lemma Qfloor_unique (x : Q) (z : Z) :
  (inject_Z z <= x)%Q -> (x < inject_Z (z + 1))%Q -> Qfloor x = z.
Proof.
  intros H1 H2. pose proof (Qfloor_le x) as H3. pose proof (Qlt_floor x) as H4.
  assert (z < Qfloor x + 1) by (rewrite Zlt_Qlt; lra).
  assert (Qfloor x < z + 1) by (rewrite Zlt_Qlt; lra).
  lia.
Qed.

Lemma inject_Z_pos_mult (m : Z) (e : Z) (x : Q) :
  (x == inject_Z m * pow2 e)%Q -> (0 <= x)%Q -> 0 <= m.
Proof.
  intros Hx H0. destruct (Z_lt_le_dec m 0) as [Hneg|Hok]; [|exact Hok].
  exfalso. pose proof (pow2_pos e) as Hp.
  assert (Hlt : (inject_Z m < 0)%Q)
    by (change 0%Q with (inject_Z 0); rewrite <- Zlt_Qlt; exact Hneg).
  assert (H1 : (inject_Z m * pow2 e < 0 * pow2 e)%Q) by (apply Qmult_lt_r; assumption).
  rewrite Qmult_0_l, <- Hx in H1. lra.
Qed.

(** The fraction of a double that is not negative is a double. *)
Lemma double_fraction (x : Q) :
  double x -> (0 <= x)%Q -> double (x - inject_Z (Qfloor x)).
Proof.
  intros (m & e & Hm & Hx) H0.
  pose proof (inject_Z_pos_mult m e x Hx H0) as Hm0.
  destruct (Z_le_gt_dec 0 e) as [He|He].
  - (* an integer *)
    assert (Ex : (x == inject_Z (m * 2 ^ e))%Q)
      by (rewrite Hx, inject_Z_mult, <- pow2_Z by lia; reflexivity).
    apply (double_comp 0); [|apply double_0].
    rewrite (Qfloor_comp _ _ Ex), Qfloor_Z, Ex. ring.
  - set (d := 2 ^ (- e)).
    assert (Hd : 0 < d) by (apply Z.pow_pos_nonneg; lia).
    assert (Ed : (pow2 e * inject_Z d == 1)%Q).
    { unfold d. rewrite <- pow2_Z by lia. apply pow2_cancel. }
    assert (Hfloor : Qfloor x = m / d).
    { apply Qfloor_unique.
      - apply Qmult_le_r with (z := inject_Z d);
          [change 0%Q with (inject_Z 0); rewrite <- Zlt_Qlt; exact Hd|].
        rewrite Hx, <- Qmult_assoc, Ed, Qmult_1_r, <- inject_Z_mult, <- Zle_Qle.
        pose proof (Z.mul_div_le m d Hd). lia.
      - apply Qmult_lt_r with (z := inject_Z d);
          [change 0%Q with (inject_Z 0); rewrite <- Zlt_Qlt; exact Hd|].
        rewrite Hx, <- Qmult_assoc, Ed, Qmult_1_r, <- inject_Z_mult, <- Zlt_Qlt.
        pose proof (Z.mul_succ_div_gt m d Hd). lia. }
    exists (m mod d), e. split.
    + pose proof (Z.mod_pos_bound m d Hd). pose proof (Z.mod_le m d Hm0 Hd). lia.
    + rewrite Hfloor, Hx.
      assert (Em : (inject_Z m == inject_Z (d * (m / d)) + inject_Z (m mod d))%Q).
      { rewrite <- inject_Z_plus, <- Z.div_mod by lia. reflexivity. }
      rewrite Em, inject_Z_mult.
      assert (Ed' : (inject_Z d * pow2 e == 1)%Q) by (rewrite Qmult_comm; exact Ed).
      transitivity (inject_Z (m / d) * (inject_Z d * pow2 e)
                    + inject_Z (m mod d) * pow2 e - inject_Z (m / d))%Q; [ring|].
      rewrite Ed'. ring.
Qed.

(** A double below 1 is at most 1 - 2^-53. *)
Lemma double_below_1 (x : Q) :
  double x -> (x < 1)%Q -> (x <= 1 - pow2 (-53))%Q.
Proof.
  intros (m & e & Hm & Hx) H1.
  pose proof (pow2_pos e) as Hp.
  destruct (Z_le_gt_dec (-53) e) as [He|He].
  - (* x * 2^53 is an integer below 2^53 *)
    assert (Ex : (x * pow2 53 == inject_Z (m * 2 ^ (e + 53)))%Q).
    { rewrite Hx, inject_Z_mult, <- pow2_Z by lia.
      rewrite <- Qmult_assoc, <- pow2_add. reflexivity. }
    assert (Hlt : (x * pow2 53 < 1 * pow2 53)%Q) by (apply Qmult_lt_r; [apply pow2_pos | exact H1]).
    rewrite Ex, Qmult_1_l, pow2_Z, <- Zlt_Qlt in Hlt by lia.
    assert (Hle : (x * pow2 53 <= inject_Z (2 ^ 53 - 1))%Q) by (rewrite Ex, <- Zle_Qle; lia).
    apply Qmult_le_r with (z := pow2 53); [apply pow2_pos|].
    eapply Qle_trans; [exact Hle|]. vm_compute. discriminate.
  - assert (Hm' : (inject_Z m <= pow2 53)%Q)
      by (rewrite pow2_Z by lia; rewrite <- Zle_Qle; lia).
    assert (He' : (pow2 e <= pow2 (-54))%Q) by (apply pow2_le; lia).
    assert (H : (x <= pow2 53 * pow2 (-54))%Q).
    { rewrite Hx. destruct (Z_lt_le_dec m 0) as [Hneg|Hpos].
      - assert (Hlt : (inject_Z m < 0)%Q)
          by (change 0%Q with (inject_Z 0); rewrite <- Zlt_Qlt; exact Hneg).
        assert (H2 : (inject_Z m * pow2 e < 0 * pow2 e)%Q) by (apply Qmult_lt_r; assumption).
        rewrite Qmult_0_l in H2.
        pose proof (pow2_pos 53). pose proof (pow2_pos (-54)).
        assert (0 < pow2 53 * pow2 (-54))%Q by (apply Qmult_lt_0_compat; assumption). lra.
      - apply Qle_trans with (y := (inject_Z m * pow2 (-54))%Q).
        + rewrite (Qmult_comm _ (pow2 e)), (Qmult_comm _ (pow2 (-54))).
          apply Qmult_le_compat_r; [exact He'|].
          change 0%Q with (inject_Z 0). rewrite <- Zle_Qle. exact Hpos.
        + apply Qmult_le_r; [apply pow2_pos | exact Hm']. }
    eapply Qle_trans; [exact H|]. vm_compute. discriminate.
Qed.

(** *** The digits that [toString36] writes *)


Lemma Qle_bool_false (x y : Q) : Qle_bool x y = false <-> (y < x)%Q.
Proof.
  split.
  - intros H. apply Qnot_le_lt. intros Hle. apply Qle_bool_iff in Hle. congruence.
  - intros H. destruct (Qle_bool x y) eqn:E; [|reflexivity].
    apply Qle_bool_iff in E. lra.
Qed.

Lemma shifted_fraction (f : Q) :
  frac_ok f ->
  double (RN (f * 36)) /\ (0 <= RN (f * 36))%Q /\ (RN (f * 36) < 36)%Q.
Proof.
  intros (Hd & H0 & H1). split; [apply double_RN|]. split.
  - apply RN_nonneg. lra.
  - pose proof (double_below_1 f Hd H1) as Hle.
    apply Qle_lt_trans with (y := RN ((1 - pow2 (-53)) * 36)).
    + apply RN_mono. lra.
    + vm_compute. reflexivity.
Qed.

Lemma next_digit (f : Q) :
  frac_ok f ->
  let f1 := RN (f * 36) in
  let digit := Z.to_N (Qfloor f1) in
  (digit < 36)%N /\ frac_ok (RN (f1 - inject_Z (Z.of_N digit))).
Proof.
  intros Hf f1 digit.
  destruct (shifted_fraction f Hf) as (Hd & H0 & H36). fold f1 in Hd, H0, H36.
  pose proof (Qfloor_le f1) as Hfl. pose proof (Qlt_floor f1) as Hfu.
  rewrite inject_Z_plus in Hfu. change (inject_Z 1) with 1%Q in Hfu.
  assert (Hz0 : 0 <= Qfloor f1).
  { rewrite <- (Qfloor_Z 0). apply Qfloor_resp_le. exact H0. }
  assert (Hz36 : Qfloor f1 < 36).
  { rewrite Zlt_Qlt. change (inject_Z 36) with 36%Q. lra. }
  assert (Hdigit : Z.of_N digit = Qfloor f1) by (unfold digit; apply Z2N.id; exact Hz0).
  split; [unfold digit; lia|].
  rewrite Hdigit.
  pose proof (double_fraction f1 Hd H0) as Hfrac.
  pose proof (RN_double _ Hfrac) as E.
  split; [apply double_RN|]. rewrite E. split; lra.
Qed.


Lemma carry_ok (written l : list N) :
  digits_ok written -> carry written = Some l -> digits_ok l.
Proof.
  induction 1 as [|d rest Hd Hrest IH]; cbn [carry]; [discriminate|].
  destruct (d + 1 <? 36)%N eqn:E.
  - intros H. injection H as <-. apply N.ltb_lt in E. constructor; assumption.
  - exact IH.
Qed.

Lemma fraction_digits36_ok (fuel : nat) (f d : Q) (written l : list N) :
  frac_ok f -> digits_ok written ->
  fraction_digits36 fuel f d written = Some l -> digits_ok l.
Proof.
  revert f d written. induction fuel as [|fuel IH]; intros f d written Hf Hw.
  - cbn. intros H. injection H as <-. exact Hw.
  - cbn [fraction_digits36]. cbv zeta.
    destruct (next_digit f Hf) as [Hdigit Hf2].
    set (f1 := RN (f * 36)) in *. set (digit := Z.to_N (Qfloor f1)) in *.
    set (f2 := RN (f1 - inject_Z (Z.of_N digit))) in *.
    assert (Hw' : digits_ok (digit :: written)) by (constructor; assumption).
    destruct (_ && _).
    + apply carry_ok. exact Hw'.
    + destruct (Qle_bool _ f2).
      * apply IH; assumption.
      * intros H. injection H as <-. exact Hw'.
Qed.

(** The fuel is never used up: the bound on the error grows by a factor
    of 2 at least at every digit, and the loop ends when it is above the
    fraction, which is below 1. *)

Lemma next_delta (d : Q) :
  delta_ok d -> delta_ok (RN (d * 36)) /\ (2 * d <= RN (d * 36))%Q.
Proof.
  intros (Hd & H0).
  assert (H2 : (2 * d <= RN (d * 36))%Q).
  { rewrite <- (RN_double (2 * d)) by (apply double_twice; exact Hd).
    apply RN_mono. lra. }
  split; [|exact H2]. split; [apply double_RN | lra].
Qed.

Lemma fraction_digits36_fuel (fuel extra : nat) (f d : Q) (written : list N) :
  frac_ok f -> delta_ok d -> (pow2 (- Z.of_nat fuel) <= d)%Q ->
  fraction_digits36 (S fuel + extra) f d written
  = fraction_digits36 (S fuel) f d written.
Proof.
  revert f d written. induction fuel as [|fuel IH]; intros f d written Hf Hd Hle;
    cbn [Nat.add]; cbn [fraction_digits36]; cbv zeta;
    destruct (next_digit f Hf) as [_ Hf2];
    destruct (next_delta d Hd) as [Hd1 Hgrow];
    set (f1 := RN (f * 36)) in *; set (digit := Z.to_N (Qfloor f1)) in *;
    set (f2 := RN (f1 - inject_Z (Z.of_N digit))) in *;
    set (d1 := RN (d * 36)) in *;
    destruct (_ && _); try reflexivity.
  - assert (Hstop : Qle_bool d1 f2 = false).
    { apply Qle_bool_false. destruct Hf2 as (_ & _ & H1).
      change (pow2 (- Z.of_nat 0)) with 1%Q in Hle. lra. }
    rewrite Hstop. reflexivity.
  - destruct (Qle_bool d1 f2); [|reflexivity].
    apply (IH f2 d1 (digit :: written) Hf2 Hd1).
    assert (E : (pow2 (- Z.of_nat fuel) == 2 * pow2 (- Z.of_nat (S fuel)))%Q).
    { rewrite <- pow2_succ. replace (- Z.of_nat (S fuel) + 1) with (- Z.of_nat fuel) by lia.
      reflexivity. }
    rewrite E. lra.
Qed.

(** *** Priority *)

Lemma RN_1 : (RN 1 == 1)%Q.
Proof. reflexivity. Qed.


















(** *** The parser on the text that [JSON.stringify] writes *)

Lemma append_nil_l (s : string) : "" ++ s = s.
Proof. reflexivity. Qed.

Lemma append_cons (c : ascii) (a b : string) : String c a ++ b = String c (a ++ b).
Proof. reflexivity. Qed.

Lemma append_assoc (a b c : string) : (a ++ b) ++ c = a ++ (b ++ c).
Proof.
  induction a as [|x a IH]; [reflexivity|].
  rewrite !append_cons, IH. reflexivity.
Qed.

(** Text with a known first character is put in the form the parser
    steps on. *)
Ltac text_head := rewrite ?append_cons, ?append_nil_l; cbn [JSON.run].

Ltac text_norm := rewrite ?append_assoc, ?append_cons, ?append_nil_l.

Lemma run_app (ps : JSON.pstate) (a b : string) :
  JSON.run ps (a ++ b) = JSON.run (JSON.run ps a) b.
Proof.
  revert ps. induction a as [|x a IH]; intros ps; [reflexivity|].
  rewrite append_cons. cbn [JSON.run]. apply IH.
Qed.

Lemma run_escape_char (c : ascii) (ctx : JSON.string_context) (acc : list JSON.item)
    (stack : list JSON.frame) (rest : string) :
  JSON.run (JSON.MString ctx acc, stack) (JSON.escape_char c ++ rest)
  = JSON.run (JSON.MString ctx (JSON.IByte c :: acc), stack) rest.
Proof.
  destruct c as [[] [] [] [] [] [] [] []]; reflexivity.
Qed.

Lemma run_escape (s : string) (ctx : JSON.string_context) (acc : list JSON.item)
    (stack : list JSON.frame) (rest : string) :
  JSON.run (JSON.MString ctx acc, stack) (JSON.escape s ++ rest)
  = JSON.run (JSON.MString ctx (push_bytes s acc), stack) rest.
Proof.
  revert acc. induction s as [|c s IH]; intros acc; [reflexivity|].
  cbn [JSON.escape push_bytes].
  rewrite append_assoc, run_escape_char. apply IH.
Qed.

Lemma push_bytes_rev (s : string) (acc : list JSON.item) :
  rev (push_bytes s acc) = (rev acc ++ items_of s)%list.
Proof.
  revert acc. induction s as [|c s IH]; intros acc; simpl.
  - rewrite app_nil_r. reflexivity.
  - rewrite IH. simpl. rewrite <- app_assoc. reflexivity.
Qed.

Lemma decode_items_of (s : string) : JSON.decode (items_of s) = s.
Proof. induction s as [|c s IH]; simpl; [reflexivity | rewrite IH; reflexivity]. Qed.

Lemma run_quote_value (s : string) (stack : list JSON.frame) (rest : string) :
  JSON.run (JSON.MValue, stack) (JSON.quote s ++ rest)
  = JSON.run (JSON.complete (VString s) stack) rest.
Proof.
  unfold JSON.quote. text_head.
  change (JSON.step (JSON.MValue, stack) JSON.dquote)
    with (JSON.MString JSON.SValue [], stack).
  rewrite append_assoc, run_escape. text_head.
  change (JSON.step (JSON.MString JSON.SValue (push_bytes s []), stack) JSON.dquote)
    with (JSON.end_string JSON.SValue (push_bytes s []) stack).
  unfold JSON.end_string. rewrite push_bytes_rev. cbn [rev]. rewrite app_nil_l.
  rewrite decode_items_of. reflexivity.
Qed.

Lemma run_quote_first_key (k : string) (stack : list JSON.frame) (rest : string) :
  JSON.run (JSON.MObjectStart, stack) (JSON.quote k ++ rest)
  = JSON.run (JSON.MObjectColon [] k, stack) rest.
Proof.
  unfold JSON.quote. text_head.
  change (JSON.step (JSON.MObjectStart, stack) JSON.dquote)
    with (JSON.MString (JSON.SKey []) [], stack).
  rewrite append_assoc, run_escape. text_head.
  change (JSON.step (JSON.MString (JSON.SKey []) (push_bytes k []), stack) JSON.dquote)
    with (JSON.end_string (JSON.SKey []) (push_bytes k []) stack).
  unfold JSON.end_string. rewrite push_bytes_rev. cbn [rev]. rewrite app_nil_l.
  rewrite decode_items_of. reflexivity.
Qed.

Lemma run_quote_next_key (k : string) (done : list (string * value))
    (stack : list JSON.frame) (rest : string) :
  JSON.run (JSON.MObjectKey done, stack) (JSON.quote k ++ rest)
  = JSON.run (JSON.MObjectColon done k, stack) rest.
Proof.
  unfold JSON.quote. text_head.
  change (JSON.step (JSON.MObjectKey done, stack) JSON.dquote)
    with (JSON.MString (JSON.SKey done) [], stack).
  rewrite append_assoc, run_escape. text_head.
  change (JSON.step (JSON.MString (JSON.SKey done) (push_bytes k []), stack) JSON.dquote)
    with (JSON.end_string (JSON.SKey done) (push_bytes k []) stack).
  unfold JSON.end_string. rewrite push_bytes_rev. cbn [rev]. rewrite app_nil_l.
  rewrite decode_items_of. reflexivity.
Qed.

(** A member whose value is a string, as the first member of an object
    and as a later one. *)
Lemma run_first_member (k s : string) (stack : list JSON.frame) (rest : string) :
  JSON.run (JSON.MObjectStart, stack)
    (JSON.quote k ++ String ":" (JSON.quote s ++ rest))
  = JSON.run (JSON.MObjectNext [(k, VString s)], stack) rest.
Proof.
  rewrite run_quote_first_key. cbn [JSON.run].
  change (JSON.step (JSON.MObjectColon [] k, stack) ":")
    with (JSON.MValue, JSON.FMember [] k :: stack).
  rewrite run_quote_value. reflexivity.
Qed.

Lemma run_next_member (k s : string) (done : list (string * value))
    (stack : list JSON.frame) (rest : string) :
  JSON.run (JSON.MObjectNext done, stack)
    (String "," (JSON.quote k ++ String ":" (JSON.quote s ++ rest)))
  = JSON.run (JSON.MObjectNext ((k, VString s) :: done), stack) rest.
Proof.
  cbn [JSON.run].
  change (JSON.step (JSON.MObjectNext done, stack) ",")
    with (JSON.MObjectKey done, stack).
  rewrite run_quote_next_key. cbn [JSON.run].
  change (JSON.step (JSON.MObjectColon done k, stack) ":")
    with (JSON.MValue, JSON.FMember done k :: stack).
  rewrite run_quote_value. reflexivity.
Qed.

Lemma stringify_new_task (i : add_input) :
  JSON.stringify (new_task i) = Some (task_text i).
Proof.
  unfold new_task, Task.constructor, task_text.
  cbn [JSON.stringify Task.default_parameter String.concat].
  text_norm. reflexivity.
Qed.

Lemma stringify_array (l : list value) :
  JSON.stringify (VArray l)
  = Some ("[" ++ String.concat "," (List.map (fun x => default "null" (JSON.stringify x)) l)
          ++ "]").
Proof.
  reflexivity.
Qed.

Lemma append_nil_r (s : string) : s ++ "" = s.
Proof.
  induction s as [|c s IH]; [reflexivity|]. rewrite append_cons, IH. reflexivity.
Qed.

Lemma concat_cons (x : string) (xs : list string) :
  String.concat "," (x :: xs) = x ++ tail_text xs.
Proof.
  revert x. induction xs as [|y ys IH]; intros x.
  - cbn [String.concat tail_text]. rewrite append_nil_r. reflexivity.
  - change (String.concat "," (x :: y :: ys)) with (x ++ "," ++ String.concat "," (y :: ys)).
    rewrite IH. reflexivity.
Qed.

Lemma run_task (i : add_input) (stack : list JSON.frame) (rest : string) :
  JSON.run (JSON.MObjectStart, stack)
    (JSON.quote "id" ++ String ":" (JSON.quote (js_substring (toString36 (arg_random i)) 2 11) ++
     String "," (JSON.quote "title" ++ String ":" (JSON.quote (arg_title i) ++
     String "," (JSON.quote "category" ++ String ":" (JSON.quote (arg_category i) ++
     String "," (JSON.quote "status" ++ String ":" (JSON.quote (arg_status i) ++
     String "," (JSON.quote "createdAt" ++ String ":" (JSON.quote (toISOString (arg_now i)) ++
     String "}" rest))))))))))
  = JSON.run (JSON.complete (loaded_task i) stack) rest.
Proof.
  rewrite run_first_member. rewrite !run_next_member. cbn [JSON.run].
  reflexivity.
Qed.

(** One task at the place of an element: after a comma, and as the first
    element of the array. *)
Lemma run_task_element (i : add_input) (done : list value) (stack : list JSON.frame)
    (rest : string) :
  JSON.run (JSON.MValue, JSON.FArray done :: stack) (task_text i ++ rest)
  = JSON.run (JSON.MArrayNext (loaded_task i :: done), stack) rest.
Proof.
  unfold task_text. text_norm. cbn [JSON.run].
  change (JSON.step (JSON.MValue, JSON.FArray done :: stack) "{")
    with (JSON.MObjectStart, JSON.FArray done :: stack).
  rewrite run_task. reflexivity.
Qed.

Lemma run_task_first (i : add_input) (stack : list JSON.frame) (rest : string) :
  JSON.run (JSON.MArrayStart, stack) (task_text i ++ rest)
  = JSON.run (JSON.MArrayNext [loaded_task i], stack) rest.
Proof.
  unfold task_text. text_norm. cbn [JSON.run].
  change (JSON.step (JSON.MArrayStart, stack) "{")
    with (JSON.MObjectStart, JSON.FArray [] :: stack).
  rewrite run_task. reflexivity.
Qed.

Lemma run_tail (inputs : list add_input) (done : list value) :
  JSON.run (JSON.MArrayNext done, []) (tail_text (List.map task_text inputs) ++ "]")
  = (JSON.MDone (VArray (rev done ++ List.map loaded_task inputs)), []).
Proof.
  revert done. induction inputs as [|i inputs IH]; intros done.
  - cbn [List.map tail_text]. rewrite app_nil_r. reflexivity.
  - cbn [List.map tail_text]. rewrite !append_assoc, append_cons, append_nil_l.
    cbn [JSON.run].
    change (JSON.step (JSON.MArrayNext done, []) ",")
      with (JSON.MValue, [JSON.FArray done]).
    rewrite run_task_element. rewrite IH. cbn [rev]. rewrite <- app_assoc. reflexivity.
Qed.

(** Parsing the text of a list of new tasks gives the list of their
    loaded forms. *)
Lemma parse_new_tasks (inputs : list add_input) :
  JSON.parse ("[" ++ String.concat "," (List.map task_text inputs) ++ "]")
  = Return (VArray (List.map loaded_task inputs)).
Proof.
  unfold JSON.parse. rewrite append_cons, append_nil_l. cbn [JSON.run].
  change (JSON.step (JSON.MValue, []) "[") with (JSON.MArrayStart, @nil JSON.frame).
  destruct inputs as [|i inputs]; [reflexivity|].
  cbn [List.map]. rewrite concat_cons, append_assoc, run_task_first, run_tail.
  reflexivity.
Qed.

(** *** Saving and loading *)

Lemma add_one_tasks (st : app) (l : list value) (i : add_input) :
  tasks st = VArray l -> tasks (add_one st i) = VArray (l ++ [new_task i]).
Proof.
  intros Hl. unfold add_one, state_after.
  rewrite (addTask_run st l _ _ _ _ _ Hl), renderTasks_tasks. reflexivity.
Qed.

Lemma add_all_tasks (inputs : list add_input) (st : app) (l : list value) :
  tasks st = VArray l ->
  tasks (add_all inputs st) = VArray (l ++ List.map new_task inputs).
Proof.
  revert st l. induction inputs as [|i inputs IH]; intros st l Hl.
  - cbn [add_all fold_left List.map]. rewrite app_nil_r. exact Hl.
  - change (add_all (i :: inputs) st) with (add_all inputs (add_one st i)).
    cbn [List.map].
    rewrite (IH (add_one st i) (l ++ [new_task i])%list (add_one_tasks st l i Hl)).
    rewrite <- app_assoc. reflexivity.
Qed.

Lemma text_of_new_tasks (inputs : list add_input) :
  JSON.stringify (VArray (List.map new_task inputs))
  = Some ("[" ++ String.concat "," (List.map task_text inputs) ++ "]").
Proof.
  rewrite stringify_array.
  assert (Hmap : List.map (fun x => default "null" (JSON.stringify x))
                   (List.map new_task inputs) = List.map task_text inputs).
  { induction inputs as [|i inputs IH]; [reflexivity|].
    cbn [List.map]. rewrite IH, stringify_new_task. reflexivity. }
  rewrite Hmap. reflexivity.
Qed.

Lemma save_then_load_run (st : app) (inputs : list add_input) :
  tasks st = VArray (List.map new_task inputs) ->
  save_then_load st
  = (Return tt, with_tasks (VArray (List.map loaded_task inputs)) (persisted st)).
Proof.
  intros Ht. unfold save_then_load. unfold bind. rewrite saveTasks_run.
  fold (persisted st). rewrite loadTasks_run.
  unfold persisted at 1. cbn [localStorage]. rewrite lookup_insert_eq.
  rewrite Ht, text_of_new_tasks. cbn [default from_option id].
  rewrite append_cons. cbn [String.eqb]. rewrite append_nil_l.
  rewrite <- (append_nil_l (String.concat "," (List.map task_text inputs) ++ "]")).
  rewrite <- append_cons. rewrite parse_new_tasks. reflexivity.
Qed.

Lemma new_tasks_reloaded (inputs : list add_input) :
  Forall2 reloaded_from (List.map new_task inputs) (List.map loaded_task inputs).
Proof.
  induction inputs as [|i inputs IH]; cbn [List.map]; constructor; [|exact IH].
  repeat split. exists (arg_now i). split; reflexivity.
Qed.

(** C1 (as the code has it): for a task list built by [addTask] calls from
    an empty list, [saveTasks()] followed by [loadTasks()] returns and
    yields a list of the same length in which every task has the same
    [id], [title], [category] and [status] as the task saved, and whose
    [createdAt] is the ISO 8601 text of the instant of the saved Date. *)
Theorem save_then_load_keeps_fields (st0 : app) (inputs : list add_input) :
  tasks st0 = VArray [] ->
  let st := add_all inputs st0 in
  exists saved loaded : list value,
    tasks st = VArray saved /\
    fst (save_then_load st) = Return tt /\
    tasks (state_after (save_then_load st)) = VArray loaded /\
    List.length loaded = List.length saved /\
    Forall2 reloaded_from saved loaded.
Proof.
  intros H0 st.
  assert (Ht : tasks st = VArray (List.map new_task inputs))
    by (unfold st; rewrite (add_all_tasks inputs st0 [] H0); reflexivity).
  exists (List.map new_task inputs), (List.map loaded_task inputs).
  rewrite (save_then_load_run st inputs Ht).
  split; [exact Ht|].
  split; [reflexivity|].
  split; [reflexivity|].
  split; [rewrite !length_map; reflexivity|].
  apply new_tasks_reloaded.
Qed.

Lemma save_then_load_keeps_fields_witness :
  exists saved loaded : list value,
    tasks (add_all [milk] fresh_app) = VArray saved /\
    fst (save_then_load (add_all [milk] fresh_app)) = Return tt /\
    tasks (state_after (save_then_load (add_all [milk] fresh_app))) = VArray loaded /\
    List.length loaded = List.length saved /\
    Forall2 reloaded_from saved loaded.
Proof.
  apply (save_then_load_keeps_fields fresh_app [milk]). reflexivity.
Defined.

(** C1 as stated fails on [createdAt]: the task saved holds a Date, the
    task loaded holds a string, so the two lists are not the same field
    for field. *)
Lemma save_then_load_createdAt_counterexample :
  ~ (forall (st0 : app) (inputs : list add_input),
       tasks st0 = VArray [] ->
       exists saved loaded : list value,
         tasks (add_all inputs st0) = VArray saved /\
         tasks (state_after (save_then_load (add_all inputs st0))) = VArray loaded /\
         Forall2 (fun s l =>
                    prop l "id" = prop s "id" /\
                    prop l "title" = prop s "title" /\
                    prop l "category" = prop s "category" /\
                    prop l "status" = prop s "status" /\
                    prop l "createdAt" = prop s "createdAt") saved loaded).
Proof.
  intros claim.
  destruct (claim fresh_app [milk] eq_refl) as (saved & loaded & Hs & Hl & Hall).
  vm_compute in Hs. injection Hs as <-.
  vm_compute in Hl. injection Hl as <-.
  inversion Hall as [|s l ss ls (_ & _ & _ & _ & Hc) _]; subst.
  vm_compute in Hc. discriminate.
Qed.

(** *** Updating a status *)

Lemma get_prop_Return (v w : value) (k : string) :
  get_prop v k = Return w -> w = prop v k /\ readable v = true.
Proof.
  destruct v; simpl; intros H; try discriminate; injection H as <-; split; reflexivity.
Qed.

Lemma find_by_id_None (taskId : string) (l : list value) :
  find_by_id taskId l = Return None ->
  forall t, In t l -> has_id taskId t = false.
Proof.
  unfold find_by_id. induction l as [|x l IH]; intros H t Hin; [destruct Hin|].
  cbn [array_find] in H.
  destruct (get_prop x "id") as [v|e] eqn:Ev; cbn [cbind] in H; [|discriminate].
  apply get_prop_Return in Ev as [-> _].
  destruct (strict_equals_string (prop x "id") taskId) eqn:Eid; [discriminate|].
  destruct (array_find _ l) as [[[j y]|]|e] eqn:Ef; cbn [cbind] in H; try discriminate.
  destruct Hin as [<- | Hin]; [exact Eid | apply IH; [reflexivity | exact Hin]].
Qed.

Lemma find_by_id_Some (taskId : string) (l : list value) (i : nat) (t : value) :
  find_by_id taskId l = Return (Some (i, t)) ->
  l !! i = Some t /\ has_id taskId t = true /\ to_boolean t = true.
Proof.
  intros H. apply array_find_Some in H as [Hi Hf].
  split; [exact Hi|].
  destruct (get_prop t "id") as [v|e] eqn:Ev; cbn [cbind] in Hf; [|discriminate].
  injection Hf as Hv.
  destruct t; simpl in Ev; try discriminate; injection Ev as <-;
    try (simpl in Hv; discriminate).
  split; [exact Hv | reflexivity].
Qed.

(** What holds of C4 on a list of readable tasks: when no task has the
    identifier, [updateTaskStatus] returns and changes nothing, neither
    the list nor the storage nor the page. *)
Lemma updateTaskStatus_absent (st : app) (l : list value) (taskId : string)
    (newStatus : value) :
  tasks st = VArray l ->
  Forall (fun t => readable t = true) l ->
  (forall t, In t l -> has_id taskId t = false) ->
  TodoApp.updateTaskStatus taskId newStatus st = (Return tt, st).
Proof.
  intros Hl Hr Hnone. rewrite (updateTaskStatus_run st l taskId newStatus Hl).
  assert (Hf : find_by_id taskId l = Return None).
  { unfold find_by_id. clear Hl.
    induction Hr as [|x l Hx Hr IH]; [reflexivity|].
    cbn [array_find]. rewrite (get_prop_readable _ _ Hx). cbn [cbind].
    change (strict_equals_string (prop x "id") taskId) with (has_id taskId x).
    rewrite (Hnone x (or_introl eq_refl)).
    rewrite IH; [reflexivity|]. intros t Ht. apply Hnone. right. exact Ht. }
  rewrite Hf. reflexivity.
Qed.

(** What holds of C4 on an instance of [Task]: when the first task with
    the identifier was made by [new Task], the list after
    [updateTaskStatus] differs at that task only, whose [status] is the new
    one and whose other properties are as before. *)
Lemma updateTaskStatus_on_instance (st : app) (l : list value) (taskId : string)
    (newStatus : value) (i : nat) (props : list (string * value)) :
  tasks st = VArray l ->
  find_by_id taskId l = Return (Some (i, VObject TaskPrototype props)) ->
  own_property "updateStatus" props = None ->
  let task' := Task.updateStatus (VObject TaskPrototype props) newStatus in
  tasks (state_after (TodoApp.updateTaskStatus taskId newStatus st))
  = VArray (<[i := task']> l) /\
  prop task' "status" = newStatus /\
  (forall k, k <> "status" -> prop task' k = prop (VObject TaskPrototype props) k) /\
  (forall j : nat, j <> i -> (<[i := task']> l) !! j = l !! j).
Proof.
  intros Hl Hf Hown task'.
  rewrite (updateTaskStatus_run st l taskId newStatus Hl), Hf.
  cbn [to_boolean].
  assert (Hc : Task.call_updateStatus (VObject TaskPrototype props) newStatus
               = Return task').
  { unfold Task.call_updateStatus. cbn [get_prop]. unfold object_get. rewrite Hown.
    reflexivity. }
  rewrite Hc. unfold state_after. rewrite renderTasks_tasks.
  split; [reflexivity|].
  split; [apply set_status_same|].
  split; [intros k Hk; apply set_status_other; exact Hk|].
  intros j Hj. apply list_lookup_insert_ne. congruence.
Qed.

(** A task read back from the storage is a plain object: the call
    [task.updateStatus(...)] on it throws. *)
Lemma call_updateStatus_loaded (i : add_input) (newStatus : value) :
  Task.call_updateStatus (loaded_task i) newStatus = Throw TypeError.
Proof. reflexivity. Qed.

Lemma find_by_id_head (taskId : string) (t : value) (rest : list value) :
  get_prop t "id" = Return (VString taskId) ->
  find_by_id taskId (t :: rest) = Return (Some (0%nat, t)).
Proof.
  intros H. unfold find_by_id. cbn [array_find]. rewrite H. cbn [cbind strict_equals_string].
  rewrite String.eqb_refl. reflexivity.
Qed.

(** Drawing the page returns normally when the filter is "all" and every
    task of the list can be drawn. *)
Lemma render_items_returns (l : list value) (st : app) :
  Forall (fun t => exists li, TodoApp.render_item t = Return li) l ->
  fst (TodoApp.render_items l st) = Return tt.
Proof.
  intros H. revert st. induction H as [|x l [li Hx] Hl IH]; intros st; [reflexivity|].
  cbn [TodoApp.render_items]. unfold bind at 1. unfold lift at 1. rewrite Hx.
  monad_unfold. apply IH.
Qed.

Lemma render_item_readable (t : value) (li : list_item) :
  TodoApp.render_item t = Return li -> readable t = true.
Proof.
  unfold TodoApp.render_item.
  destruct (get_prop t "status") as [v|e] eqn:E; cbn [cbind]; [|discriminate].
  intros _. apply get_prop_Return in E. apply E.
Qed.

Lemma renderTasks_returns (st : app) (l : list value) :
  tasks st = VArray l ->
  currentFilter st = "all" ->
  Forall (fun t => exists li, TodoApp.render_item t = Return li) l ->
  fst (TodoApp.renderTasks st) = Return tt.
Proof.
  intros Hl Hf Hr. unfold TodoApp.renderTasks.
  unfold bind at 1. unfold set_taskList at 1, modify at 1.
  unfold bind at 1. unfold TodoApp.getFilteredTasks at 1.
  unfold bind at 1. unfold get at 1. cbn [currentFilter]. rewrite Hf.
  cbn [String.eqb Ascii.eqb Bool.eqb]. unfold get at 1. cbn [tasks]. rewrite Hl.
  unfold bind at 1.
  match goal with
  | |- context [TodoApp.render_items l ?s0] =>
      pose proof (render_items_returns l s0 Hr) as Hret;
      pose proof (render_items_store l s0) as (Ht & _ & _);
      destruct (TodoApp.render_items l s0) as [c st1]
  end.
  cbn [fst snd] in Hret, Ht. subst c.
  cbn [tasks] in Ht. monad_unfold. rewrite Ht.
  rewrite (array_filter_readable
             (fun s => strict_equals_string s TaskStatus.COMPLETED) "status" l).
  - reflexivity.
  - eapply Forall_impl; [exact Hr|]. intros t [li Hli].
    eapply render_item_readable. exact Hli.
Qed.

(** C4, at the failing input: a task is added to a fresh application and
    saved, the page is reloaded, and [updateTaskStatus] is called with the
    identifier of that task, as the status selector of its row does.
    Before the reload the call sets the status.  After the reload, which
    returns normally and finds the task, the same call throws a
    [TypeError] and changes nothing: the task read from the storage is a
    plain object and has no [updateStatus]. *)
Theorem updateTaskStatus_after_reload_throws (i : add_input) (newStatus : value) :
  let id := js_substring (toString36 (arg_random i)) 2 11 in
  let saved := add_one fresh_app i in
  let st := state_after (reload saved) in
  tasks saved = VArray [new_task i] /\
  tasks (state_after (TodoApp.updateTaskStatus id newStatus saved))
  = VArray [Task.updateStatus (new_task i) newStatus] /\
  fst (reload saved) = Return tt /\
  tasks st = VArray [loaded_task i] /\
  has_id id (loaded_task i) = true /\
  TodoApp.updateTaskStatus id newStatus st = (Throw TypeError, st).
Proof.
  intros id saved st.
  assert (Hsaved : tasks saved = VArray [new_task i])
    by (apply (add_one_tasks fresh_app [] i); reflexivity).
  assert (Hstore : localStorage saved
                   = <["tasks" := "[" ++ String.concat "," (List.map task_text [i]) ++ "]"]>
                       (localStorage fresh_app)).
  { unfold saved, add_one, state_after.
    rewrite (addTask_run fresh_app [] _ _ _ _ _ eq_refl).
    match goal with
    | |- localStorage (snd (TodoApp.renderTasks ?s)) = _ =>
        destruct (renderTasks_store s) as (_ & _ & Hs); rewrite Hs
    end.
    unfold persisted. cbn [localStorage with_tasks tasks].
    change ([] ++ [Task.constructor (arg_random i) (arg_now i) (VString (arg_title i))
                     (VString (arg_category i)) (VString (arg_status i))])%list
      with (List.map new_task [i]).
    rewrite text_of_new_tasks. reflexivity. }
  assert (Hreload : reload saved
                    = TodoApp.renderTasks
                        (with_tasks (VArray (List.map loaded_task [i]))
                           (initialised (localStorage saved)))).
  { unfold reload. rewrite constructor_run, loadTasks_run. cbn [localStorage initialised].
    rewrite Hstore at 1. rewrite lookup_insert_eq.
    rewrite append_cons at 1. cbn [String.eqb negb].
    rewrite parse_new_tasks. reflexivity. }
  assert (Hst : tasks st = VArray [loaded_task i])
    by (unfold st, state_after; rewrite Hreload, renderTasks_tasks; reflexivity).
  split; [exact Hsaved|].
  split.
  { destruct (updateTaskStatus_on_instance saved [new_task i] id newStatus 0%nat
                [ ("id", VString id); ("title", VString (arg_title i));
                  ("category", VString (arg_category i));
                  ("status", VString (arg_status i));
                  ("createdAt", VDate (arg_now i)) ] Hsaved) as (Ht & _).
    - apply find_by_id_head. reflexivity.
    - reflexivity.
    - exact Ht. }
  split.
  { rewrite Hreload.
    apply (renderTasks_returns _ [loaded_task i]); [reflexivity | reflexivity |].
    constructor; [|constructor]. eexists. reflexivity. }
  split; [exact Hst|].
  split; [unfold has_id; cbn [prop loaded_task object_get own_property String.eqb
                               Ascii.eqb Bool.eqb strict_equals_string];
          apply String.eqb_refl|].
  rewrite (updateTaskStatus_run st [loaded_task i] id newStatus Hst).
  rewrite (find_by_id_head id (loaded_task i) []); [|reflexivity].
  reflexivity.
Qed.

(** *** The storage after a change *)

Lemma render_persisted (st st' : app) (c : completion unit) :
  TodoApp.renderTasks (persisted st) = (c, st') ->
  tasks st' = tasks st /\
  localStorage st' !! "tasks" = Some (default "undefined" (JSON.stringify (tasks st))).
Proof.
  intros H. destruct (renderTasks_store (persisted st)) as (Ht & _ & Hs).
  rewrite H in Ht, Hs. cbn [snd] in Ht, Hs. split; [exact Ht|].
  rewrite Hs. unfold persisted. cbn [localStorage]. apply lookup_insert_eq.
Qed.

Lemma render_persisted_array (st0 st' : app) (l : list value) (c : completion unit) :
  TodoApp.renderTasks (persisted (with_tasks (VArray l) st0)) = (c, st') ->
  in_sync st'.
Proof.
  intros H. unfold in_sync. apply render_persisted in H as [Ht Hs].
  cbn [with_tasks tasks] in Ht, Hs. rewrite Ht.
  rewrite stringify_array in *. eexists. split; [reflexivity | exact Hs].
Qed.

(** Every run of a mutation either leaves the state as it was, or ends
    with the page drawn from a state whose list was just written to the
    storage. *)
Lemma run_mutation_shape (m : mutation) (st : app) :
  (exists c, run_mutation m st = (c, st)) \/
  (exists l, run_mutation m st
             = TodoApp.renderTasks (persisted (with_tasks (VArray l) st))).
Proof.
  destruct m as [r now title category status | taskId newStatus | taskId];
    cbn [run_mutation].
  - destruct (tasks st) as [ | |b|m e|s|t|name|l|p props] eqn:E;
      try (left; eexists; unfold TodoApp.addTask; unfold bind at 1; unfold bind at 1;
           unfold tasks_array, bind, get; rewrite E; reflexivity).
    right. eexists. apply addTask_run. exact E.
  - destruct (tasks st) as [ | |b|m e|s|t|name|l|p props] eqn:E;
      try (left; eexists; unfold TodoApp.updateTaskStatus; unfold bind at 1;
           unfold tasks_array, bind, get; rewrite E; reflexivity).
    rewrite (updateTaskStatus_run st l taskId newStatus E).
    destruct (find_by_id taskId l) as [[[i task]|]|e]; try (left; eexists; reflexivity).
    destruct (to_boolean task); [|left; eexists; reflexivity].
    destruct (Task.call_updateStatus task newStatus) as [task'|e];
      [right; eexists; reflexivity | left; eexists; reflexivity].
  - destruct (tasks st) as [ | |b|m e|s|t|name|l|p props] eqn:E;
      try (left; eexists; unfold TodoApp.deleteTask; unfold bind at 1; unfold bind at 1;
           unfold tasks_array, bind, get; rewrite E; reflexivity).
    rewrite (deleteTask_run_any st l taskId E).
    destruct (array_filter _ l) as [l'|e];
      [right; eexists; reflexivity | left; eexists; reflexivity].
Qed.

(** C5: when [addTask], [deleteTask], or [updateTaskStatus] with an
    identifier that a task of the list has, returns normally, the item
    "tasks" of the storage is the JSON text of the task list in memory;
    and once that holds it holds after every further call of the three,
    whether the call returns, finds no task, or throws. *)
Theorem storage_mirrors_tasks_after_mutation (m : mutation) (st st' : app)
    (c : completion unit) :
  run_mutation m st = (c, st') ->
  (c = Return tt -> on_present_id m st -> in_sync st') /\
  (in_sync st -> in_sync st').
Proof.
  intros Hrun. split.
  - intros -> Hpresent.
    destruct m as [r now title category status | taskId newStatus | taskId];
      cbn [run_mutation] in Hrun.
    + destruct (tasks st) as [ | |b|m e|s|t|name|l|p props] eqn:E;
        try (unfold TodoApp.addTask in Hrun; unfold bind at 1 in Hrun;
             unfold bind at 1 in Hrun; unfold tasks_array, bind, get in Hrun;
             rewrite E in Hrun; discriminate).
      rewrite (addTask_run st l _ _ _ _ _ E) in Hrun.
      eapply render_persisted_array. exact Hrun.
    + destruct Hpresent as (l & t & Hl & Hin & Hid).
      rewrite (updateTaskStatus_run st l taskId newStatus Hl) in Hrun.
      destruct (find_by_id taskId l) as [[[i task]|]|e] eqn:Ef; [| |discriminate].
      * apply find_by_id_Some in Ef as (_ & _ & Htrue). rewrite Htrue in Hrun.
        destruct (Task.call_updateStatus task newStatus) as [task'|e]; [|discriminate].
        eapply render_persisted_array. exact Hrun.
      * rewrite (find_by_id_None taskId l Ef t Hin) in Hid. discriminate.
    + destruct (tasks st) as [ | |b|m e|s|t|name|l|p props] eqn:E;
        try (unfold TodoApp.deleteTask in Hrun; unfold bind at 1 in Hrun;
             unfold bind at 1 in Hrun; unfold tasks_array, bind, get in Hrun;
             rewrite E in Hrun; discriminate).
      rewrite (deleteTask_run_any st l taskId E) in Hrun.
      destruct (array_filter _ l) as [l'|e]; [|discriminate].
      eapply render_persisted_array. exact Hrun.
  - intros Hsync.
    destruct (run_mutation_shape m st) as [[c' Hsame] | [l Hdrawn]].
    + rewrite Hsame in Hrun. injection Hrun as _ <-. exact Hsync.
    + rewrite Hdrawn in Hrun. eapply render_persisted_array. exact Hrun.
Qed.

Lemma storage_mirrors_tasks_after_mutation_witness :
  in_sync (state_after (run_mutation (UpdateTaskStatus "4xmvue8bu" (VString "completed"))
                          (state_after (add_milk fresh_app)))).
Proof.
  refine (proj1 (storage_mirrors_tasks_after_mutation
                   (UpdateTaskStatus "4xmvue8bu" (VString "completed"))
                   (state_after (add_milk fresh_app)) _ (Return tt) _) eq_refl _).
  - vm_compute. reflexivity.
  - exists [new_task milk], (new_task milk).
    split; [reflexivity|]. split; [left; reflexivity | reflexivity].
Defined.

(** *** The two scenarios of the specification *)

(** Adding "Buy milk" to a fresh application: one task with the fields
    given, one item on the page, one task counted, none completed. *)
Example scenario_add :
  let st := state_after (add_milk fresh_app) in
  fst (add_milk fresh_app) = Return tt /\
  tasks st = VArray [new_task milk] /\
  taskList st = [{| li_task := new_task milk; li_completed := false |}] /\
  totalTasks st = 1%nat /\ completedTasks st = 0%nat.
Proof. cbv zeta. repeat split; vm_compute; reflexivity. Qed.

(** Completing that task: the counter of completed tasks becomes 1. *)
Example scenario_complete :
  let st := state_after (TodoApp.updateTaskStatus "4xmvue8bu" (VString "completed")
                           (state_after (add_milk fresh_app))) in
  prop (new_task milk) "id" = VString "4xmvue8bu" /\
  totalTasks st = 1%nat /\ completedTasks st = 1%nat.
Proof. cbv zeta. repeat split; vm_compute; reflexivity. Qed.

(** The add button: a title of white space only adds nothing, and any
    other title is added trimmed. *)
Lemma add_click_run (r : random) (now : Z) (input category status : string) (st : app) :
  TodoApp.add_click r now input category status st =
  if String.eqb (trim input) "" then (Return tt, st)
  else TodoApp.addTask r now (VString (trim input)) (VString category) (VString status) st.
Proof.
  unfold TodoApp.add_click. destruct (String.eqb (trim input) ""); reflexivity.
Qed.

Example add_click_blank :
  TodoApp.add_click some_random 1700000000000 "   " "home" "not-started" fresh_app
  = (Return tt, fresh_app).
Proof. reflexivity. Qed.

Example add_click_trims :
  tasks (state_after (TodoApp.add_click some_random 1700000000000 "  Buy milk "
                        "home" "not-started" fresh_app))
  = VArray [new_task milk].
Proof. vm_compute. reflexivity. Qed.

(** ** The page, the start of the application and its events *)

Lemma render_item_Return (t : value) (li : list_item) :
  TodoApp.render_item t = Return li -> li = item_of t.
Proof.
  unfold TodoApp.render_item. intros H.
  destruct (get_prop t "status") as [v|e] eqn:E; cbn [cbind] in H; [|discriminate].
  apply get_prop_Return in E as [-> _].
  repeat match type of H with
  | cbind ?c _ = _ => destruct c; cbn [cbind] in H; [|discriminate]
  end.
  injection H as <-. reflexivity.
Qed.

Lemma render_items_Return (l : list value) (st st' : app) :
  TodoApp.render_items l st = (Return tt, st') ->
  st' = with_rows (taskList st ++ List.map item_of l)%list st /\ Forall renders l.
Proof.
  revert st. induction l as [|x l IH]; intros st H.
  - cbn in H. injection H as <-. split; [|constructor].
    unfold with_rows. rewrite app_nil_r. destruct st; reflexivity.
  - cbn [TodoApp.render_items] in H. unfold bind at 1 in H. unfold lift at 1 in H.
    destruct (TodoApp.render_item x) as [li|e] eqn:E; [|discriminate].
    monad_unfold. apply IH in H as [-> Hl].
    rewrite (render_item_Return _ _ E). split.
    + unfold with_rows. cbn. rewrite <- app_assoc. reflexivity.
    + constructor; [eexists; exact E | exact Hl].
Qed.

Lemma render_items_run (l : list value) (st : app) :
  Forall renders l ->
  TodoApp.render_items l st
  = (Return tt, with_rows (taskList st ++ List.map item_of l)%list st).
Proof.
  intros H. revert st. induction H as [|x l [li Hx] Hl IH]; intros st.
  - cbn. unfold with_rows. rewrite app_nil_r. destruct st; reflexivity.
  - cbn [TodoApp.render_items]. unfold bind at 1. unfold lift at 1. rewrite Hx.
    monad_unfold. rewrite IH. rewrite (render_item_Return _ _ Hx).
    unfold with_rows. cbn. rewrite <- app_assoc. reflexivity.
Qed.

Lemma array_filter_Return (g : value -> bool) (k : string) (l l' : list value) :
  array_filter (fun t => cbind (get_prop t k) (fun v => Return (g v))) l = Return l' ->
  Forall (fun t => readable t = true) l /\ l' = List.filter (fun t => g (prop t k)) l.
Proof.
  revert l'. induction l as [|x l IH]; intros l' H.
  - cbn in H. injection H as <-. split; [constructor | reflexivity].
  - cbn [array_filter] in H.
    destruct (get_prop x k) as [v|e] eqn:E; cbn [cbind] in H; [|discriminate].
    apply get_prop_Return in E as [-> Hx].
    destruct (array_filter _ l) as [r|e]; cbn [cbind] in H; [|discriminate].
    destruct (IH r eq_refl) as [Hl ->]. split; [constructor; assumption|].
    cbn [List.filter]. destruct (g (prop x k)); injection H as <-; reflexivity.
Qed.

Lemma getFilteredTasks_run (st : app) (l : list value) :
  tasks st = VArray l ->
  Forall (fun t => readable t = true) l ->
  TodoApp.getFilteredTasks st = (Return (VArray (shown (currentFilter st) l)), st).
Proof.
  intros Hl Hr. unfold TodoApp.getFilteredTasks, shown. monad_unfold.
  destruct (String.eqb (currentFilter st) "all"); [rewrite Hl; reflexivity|].
  rewrite Hl.
  rewrite (array_filter_readable (fun c => strict_equals_string c (currentFilter st))
             "category" l Hr).
  reflexivity.
Qed.

Lemma renderTasks_run (st : app) (l : list value) :
  tasks st = VArray l ->
  Forall (fun t => readable t = true) l ->
  Forall renders (shown (currentFilter st) l) ->
  TodoApp.renderTasks st = (Return tt, drawn st l).
Proof.
  intros Hl Hr Hs. unfold TodoApp.renderTasks.
  unfold bind at 1. unfold set_taskList at 1, modify at 1.
  unfold bind at 1.
  change {| tasks := tasks st; currentFilter := currentFilter st;
            localStorage := localStorage st; taskList := [];
            totalTasks := totalTasks st; completedTasks := completedTasks st |}
    with (with_rows [] st).
  rewrite (getFilteredTasks_run (with_rows [] st) l Hl Hr). cbn [with_rows currentFilter].
  unfold bind at 1. rewrite (render_items_run _ _ Hs).
  monad_unfold. cbn [with_rows tasks]. rewrite Hl.
  rewrite (array_filter_readable
             (fun s => strict_equals_string s TaskStatus.COMPLETED) "status" l Hr).
  reflexivity.
Qed.

Lemma renderTasks_Return (st st' : app) :
  TodoApp.renderTasks st = (Return tt, st') ->
  exists l, tasks st = VArray l /\
            Forall (fun t => readable t = true) l /\
            Forall renders (shown (currentFilter st) l) /\
            st' = drawn st l.
Proof.
  intros H.
  assert (exists l, tasks st = VArray l /\ Forall (fun t => readable t = true) l /\
                    Forall renders (shown (currentFilter st) l)) as (l & Hl & Hr & Hs).
  { unfold TodoApp.renderTasks in H.
    unfold bind at 1 in H. unfold set_taskList at 1, modify at 1 in H.
    unfold bind at 1 in H.
    match type of H with
    | context [TodoApp.getFilteredTasks ?s0] =>
        pose proof (getFilteredTasks_state s0) as Hg;
        destruct (TodoApp.getFilteredTasks s0) as [[v|e] s1] eqn:Eg; [|discriminate]
    end.
    cbn [snd] in Hg. subst s1.
    destruct v as [ | |b|m e|s|t|name|shown_l|p props]; try discriminate.
    unfold bind at 1 in H.
    destruct (TodoApp.render_items shown_l _) as [[[]|e] s2] eqn:Er; [|discriminate].
    apply render_items_Return in Er as [-> Hshown].
    revert H. monad_unfold. cbn [with_rows tasks].
    destruct (tasks st) as [ | |b|m e|s|t|name|l|p props] eqn:Hl; try discriminate.
    destruct (array_filter _ l) as [done|e] eqn:Ed; [|discriminate]. intros _.
    apply array_filter_Return in Ed as [Hr _].
    exists l. split; [reflexivity|]. split; [exact Hr|].
    revert Eg. unfold TodoApp.getFilteredTasks, shown. monad_unfold.
    cbn [currentFilter tasks].
    destruct (String.eqb (currentFilter st) "all").
    - intros Eg. injection Eg as <-. exact Hshown.
    - cbn [tasks].
      rewrite (array_filter_readable (fun c => strict_equals_string c (currentFilter st))
                 "category" l Hr).
      intros Eg. injection Eg as <-. exact Hshown. }
  exists l. repeat split; try assumption.
  rewrite (renderTasks_run st l Hl Hr Hs) in H. injection H as <-. reflexivity.
Qed.

(** Every mutation is its change of the list followed, when there is
    one, by a save and a redraw. *)
Lemma run_mutation_run (m : mutation) (st : app) (l : list value) :
  tasks st = VArray l ->
  run_mutation m st =
  match changed_list m l with
  | Return (Some l') => TodoApp.renderTasks (persisted (with_tasks (VArray l') st))
  | Return None => (Return tt, st)
  | Throw e => (Throw e, st)
  end.
Proof.
  intros Hl. destruct m as [r now title category status | taskId newStatus | taskId];
    cbn [run_mutation changed_list].
  - apply addTask_run. exact Hl.
  - rewrite (updateTaskStatus_run st l taskId newStatus Hl).
    destruct (find_by_id taskId l) as [[[i task]|]|e]; cbn [cbind]; try reflexivity.
    destruct (to_boolean task); [|reflexivity].
    destruct (Task.call_updateStatus task newStatus); reflexivity.
  - rewrite (deleteTask_run_any st l taskId Hl).
    destruct (array_filter _ l); reflexivity.
Qed.

Lemma run_mutation_not_array (m : mutation) (st : app) :
  (forall l, tasks st <> VArray l) ->
  run_mutation m st = (Throw TypeError, st).
Proof.
  intros H.
  destruct m as [r now title category status | taskId newStatus | taskId];
    cbn [run_mutation];
    [unfold TodoApp.addTask | unfold TodoApp.updateTaskStatus | unfold TodoApp.deleteTask];
    monad_unfold;
    destruct (tasks st) as [ | |b|n e|s|t|name|l|p props] eqn:E;
    try reflexivity; destruct (H l); reflexivity.
Qed.

Lemma drawn_same_store (st1 st2 : app) (l : list value) :
  same_store st1 st2 -> drawn st2 l = drawn st1 l.
Proof. intros (Ht & Hf & Hs). unfold drawn. rewrite Ht, Hf, Hs. reflexivity. Qed.

Lemma renderTasks_same_store (st1 st2 s : app) :
  same_store st1 st2 ->
  TodoApp.renderTasks st1 = (Return tt, s) ->
  TodoApp.renderTasks st2 = (Return tt, s).
Proof.
  intros Hsame H. pose proof Hsame as (Ht & Hf & Hs).
  apply renderTasks_Return in H as (l & Hl & Hr & Hshown & ->).
  rewrite <- (drawn_same_store st1 st2 l Hsame).
  apply renderTasks_run; [congruence | exact Hr | rewrite Hf; exact Hshown].
Qed.

Lemma render_items_fst (l : list value) (st1 st2 : app) :
  fst (TodoApp.render_items l st1) = fst (TodoApp.render_items l st2).
Proof.
  revert st1 st2. induction l as [|x l IH]; intros st1 st2; [reflexivity|].
  cbn [TodoApp.render_items]. unfold bind at 1 3. unfold lift at 1 2.
  destruct (TodoApp.render_item x) as [li|e]; [|reflexivity].
  monad_unfold. apply IH.
Qed.

Lemma getFilteredTasks_fst (st1 st2 : app) :
  tasks st2 = tasks st1 -> currentFilter st2 = currentFilter st1 ->
  fst (TodoApp.getFilteredTasks st1) = fst (TodoApp.getFilteredTasks st2).
Proof.
  intros Ht Hf. unfold TodoApp.getFilteredTasks. monad_unfold. rewrite Hf.
  destruct (String.eqb (currentFilter st1) "all"); rewrite Ht; [reflexivity|].
  destruct (tasks st1) as [ | |b|n e|s|t|name|l|p props]; try reflexivity.
  destruct (array_filter _ l); reflexivity.
Qed.

Lemma renderTasks_unfold (st : app) :
  TodoApp.renderTasks st =
  match TodoApp.getFilteredTasks (with_rows [] st) with
  | (Return (VArray l), s) =>
      match TodoApp.render_items l s with
      | (Return _, s') =>
          match tasks s' with
          | VArray all =>
              match array_filter (fun t =>
                      cbind (get_prop t "status") (fun s =>
                      Return (strict_equals_string s TaskStatus.COMPLETED))) all with
              | Return done =>
                  (Return tt,
                   {| tasks := tasks s'; currentFilter := currentFilter s';
                      localStorage := localStorage s'; taskList := taskList s';
                      totalTasks := List.length all;
                      completedTasks := List.length done |})
              | Throw e => (Throw e, s')
              end
          | _ => (Throw TypeError, s')
          end
      | (Throw e, s') => (Throw e, s')
      end
  | (Return _, s) => (Throw TypeError, s)
  | (Throw e, s) => (Throw e, s)
  end.
Proof.
  unfold TodoApp.renderTasks.
  unfold bind at 1. unfold set_taskList at 1, modify at 1.
  unfold bind at 1.
  change {| tasks := tasks st; currentFilter := currentFilter st;
            localStorage := localStorage st; taskList := [];
            totalTasks := totalTasks st; completedTasks := completedTasks st |}
    with (with_rows [] st).
  destruct (TodoApp.getFilteredTasks (with_rows [] st)) as [[v|e] s]; [|reflexivity].
  destruct v as [ | |b|n e|s0|t|name|l|p props]; try reflexivity.
  unfold bind at 1.
  destruct (TodoApp.render_items l s) as [[u|e] s']; [|reflexivity].
  monad_unfold.
  destruct (tasks s') as [ | |b|n e|s0|t|name|all|p props] eqn:E; try reflexivity.
  destruct (array_filter _ all); rewrite ?E; reflexivity.
Qed.

Lemma renderTasks_fst (st1 st2 : app) :
  same_store st1 st2 ->
  fst (TodoApp.renderTasks st1) = fst (TodoApp.renderTasks st2).
Proof.
  intros (Ht & Hf & _). rewrite !renderTasks_unfold.
  pose proof (getFilteredTasks_fst (with_rows [] st1) (with_rows [] st2) Ht Hf) as Hg.
  pose proof (getFilteredTasks_state (with_rows [] st1)) as Ha.
  pose proof (getFilteredTasks_state (with_rows [] st2)) as Hb.
  destruct (TodoApp.getFilteredTasks (with_rows [] st1)) as [ca sa].
  destruct (TodoApp.getFilteredTasks (with_rows [] st2)) as [cb sb].
  cbn [fst snd] in Hg, Ha, Hb. subst cb sa sb.
  destruct ca as [v|e]; [|reflexivity].
  destruct v as [ | |b|n e|s|t|name|l|p props]; try reflexivity.
  pose proof (render_items_fst l (with_rows [] st1) (with_rows [] st2)) as Hg.
  pose proof (render_items_store l (with_rows [] st1)) as (Ha & _ & _).
  pose proof (render_items_store l (with_rows [] st2)) as (Hb & _ & _).
  destruct (TodoApp.render_items l (with_rows [] st1)) as [ca sa].
  destruct (TodoApp.render_items l (with_rows [] st2)) as [cb sb].
  cbn [fst snd tasks with_rows] in Hg, Ha, Hb. subst cb.
  destruct ca as [u|e]; [|reflexivity].
  rewrite Ha, Hb, Ht.
  destruct (tasks st1) as [ | |b|n e|s|t|name|all|p props]; try reflexivity.
  destruct (array_filter _ all); reflexivity.
Qed.

(** *** Errors of the page *)

Lemma get_prop_Throw (v : value) (k : string) (e : error) :
  get_prop v k = Throw e -> e = TypeError.
Proof.
  destruct v as [ | |b|n x|s|t|name|l|p props]; cbn; intros H;
    try discriminate; injection H as <-; reflexivity.
Qed.

Lemma to_text_Throw (v : value) (e : error) :
  to_text v = Throw e -> e = TypeError.
Proof.
  unfold to_text. destruct (to_string_ok v); intros H; [discriminate|].
  injection H as <-. reflexivity.
Qed.

Lemma array_filter_Throw (g : value -> bool) (k : string) (l : list value) (e : error) :
  array_filter (fun t => cbind (get_prop t k) (fun v => Return (g v))) l = Throw e ->
  e = TypeError.
Proof.
  induction l as [|x l IH]; cbn [array_filter]; [discriminate|].
  destruct (get_prop x k) as [v|e'] eqn:E; cbn [cbind].
  - destruct (array_filter _ l) as [r|e']; cbn [cbind].
    + destruct (g v); discriminate.
    + intros H. injection H as <-. apply IH. reflexivity.
  - intros H. injection H as <-. eapply get_prop_Throw. exact E.
Qed.

Lemma render_item_Throw (t : value) (e : error) :
  TodoApp.render_item t = Throw e -> e = TypeError.
Proof.
  unfold TodoApp.render_item. intros H.
  repeat match type of H with
  | cbind ?c _ = _ =>
      let E := fresh "E" in
      destruct c eqn:E; cbn [cbind] in H;
      [| injection H as <-;
         first [eapply get_prop_Throw; exact E | eapply to_text_Throw; exact E]]
  end.
  discriminate.
Qed.

Lemma render_items_Throw (l : list value) (st : app) (e : error) :
  fst (TodoApp.render_items l st) = Throw e -> e = TypeError.
Proof.
  revert st. induction l as [|x l IH]; intros st; [discriminate|].
  cbn [TodoApp.render_items]. unfold bind at 1. unfold lift at 1.
  destruct (TodoApp.render_item x) as [li|e'] eqn:E.
  - monad_unfold. apply IH.
  - cbn [fst]. intros H. injection H as <-. eapply render_item_Throw. exact E.
Qed.

Lemma getFilteredTasks_Throw (st : app) (e : error) :
  fst (TodoApp.getFilteredTasks st) = Throw e -> e = TypeError.
Proof.
  unfold TodoApp.getFilteredTasks. monad_unfold.
  destruct (String.eqb (currentFilter st) "all"); [discriminate|].
  destruct (tasks st) as [ | |b|n x|s|t|name|l|p props]; cbn [fst];
    try (intros H; injection H as <-; reflexivity).
  destruct (array_filter _ l) as [r|e'] eqn:E; cbn [fst]; [discriminate|].
  intros H. injection H as <-. eapply array_filter_Throw. exact E.
Qed.

Lemma renderTasks_Throw (st : app) (e : error) :
  fst (TodoApp.renderTasks st) = Throw e -> e = TypeError.
Proof.
  rewrite renderTasks_unfold.
  pose proof (getFilteredTasks_Throw (with_rows [] st)) as Hg.
  destruct (TodoApp.getFilteredTasks (with_rows [] st)) as [[v|e'] s]; cbn [fst] in *.
  - destruct v as [ | |b|n x|s0|t|name|l|p props]; cbn [fst];
      try (intros H; injection H as <-; reflexivity).
    pose proof (render_items_Throw l s) as Hr.
    destruct (TodoApp.render_items l s) as [[u|e'] s']; cbn [fst] in *.
    + destruct (tasks s') as [ | |b|n x|s0|t|name|all|p props]; cbn [fst];
        try (intros H; injection H as <-; reflexivity).
      destruct (array_filter _ all) as [r|e'] eqn:E; cbn [fst]; [discriminate|].
      intros H. injection H as <-. eapply array_filter_Throw. exact E.
    + intros H. injection H as <-. apply Hr. reflexivity.
  - intros H. injection H as <-. apply Hg. reflexivity.
Qed.

Lemma find_by_id_Throw (taskId : string) (l : list value) (e : error) :
  find_by_id taskId l = Throw e -> e = TypeError.
Proof.
  unfold find_by_id. induction l as [|x l IH]; cbn [array_find]; [discriminate|].
  destruct (get_prop x "id") as [v|e'] eqn:E; cbn [cbind].
  - destruct (strict_equals_string v taskId); [discriminate|].
    destruct (array_find _ l) as [r|e']; cbn [cbind]; [discriminate|].
    intros H. injection H as <-. apply IH. reflexivity.
  - intros H. injection H as <-. eapply get_prop_Throw. exact E.
Qed.

Lemma call_updateStatus_Throw (task newStatus : value) (e : error) :
  Task.call_updateStatus task newStatus = Throw e -> e = TypeError.
Proof.
  unfold Task.call_updateStatus.
  destruct (get_prop task "updateStatus") as [f|e'] eqn:E; cbn [cbind].
  - destruct f as [ | |b|n x|s|t|name|l|p props];
      try (intros H; injection H as <-; reflexivity).
    destruct (String.eqb name "Task.prototype.updateStatus"); [discriminate|].
    intros H; injection H as <-; reflexivity.
  - intros H. injection H as <-. eapply get_prop_Throw. exact E.
Qed.

Lemma changed_list_Throw (m : mutation) (l : list value) (e : error) :
  changed_list m l = Throw e -> e = TypeError.
Proof.
  destruct m as [r now title category status | taskId newStatus | taskId];
    cbn [changed_list].
  - discriminate.
  - destruct (find_by_id taskId l) as [[[i task]|]|e'] eqn:E; cbn [cbind];
      try discriminate.
    + destruct (to_boolean task); [|discriminate].
      destruct (Task.call_updateStatus task newStatus) as [t'|e'] eqn:E';
        cbn [cbind]; [discriminate|].
      intros H. injection H as <-. eapply call_updateStatus_Throw. exact E'.
    + intros H. injection H as <-. eapply find_by_id_Throw. exact E.
  - destruct (array_filter _ l) as [r|e'] eqn:E; cbn [cbind]; [discriminate|].
    intros H. injection H as <-.
    eapply (array_filter_Throw (fun id => negb (strict_equals_string id taskId))).
    exact E.
Qed.

Lemma tasks_array_or_not (st : app) :
  (exists l, tasks st = VArray l) \/ (forall l, tasks st <> VArray l).
Proof.
  destruct (tasks st) as [ | |b|n x|s|t|name|l|p props];
    try (right; intros l'; discriminate).
  left. exists l. reflexivity.
Qed.

Lemma run_mutation_Throw (m : mutation) (st : app) (e : error) :
  fst (run_mutation m st) = Throw e -> e = TypeError.
Proof.
  destruct (tasks_array_or_not st) as [[l Hl]|Hn].
  - rewrite (run_mutation_run m st l Hl).
    destruct (changed_list m l) as [[l'|]|e'] eqn:E; cbn [fst].
    + apply renderTasks_Throw.
    + discriminate.
    + intros H. injection H as <-. eapply changed_list_Throw. exact E.
  - rewrite (run_mutation_not_array m st Hn). cbn [fst].
    intros H. injection H as <-. reflexivity.
Qed.

Lemma filter_click_run (category : string) (st : app) :
  TodoApp.filter_click category st = TodoApp.renderTasks (with_filter category st).
Proof. reflexivity. Qed.

(** A start that returns has loaded an array, empty when nothing was
    stored, and drawn all of it. *)
Lemma constructor_Return (storage : gmap string string) (st' : app) :
  TodoApp.constructor (browser storage) = (Return tt, st') ->
  exists l : list value,
    TodoApp.loadTasks (initialised storage)
    = (Return tt, with_tasks (VArray l) (initialised storage)) /\
    Forall renders l /\
    st' = drawn (with_tasks (VArray l) (initialised storage)) l.
Proof.
  rewrite constructor_run, loadTasks_run. cbn [initialised localStorage].
  assert (Hr : forall v, TodoApp.renderTasks (with_tasks v (initialised storage))
                         = (Return tt, st') ->
               exists l, v = VArray l /\ Forall renders l /\
                         st' = drawn (with_tasks (VArray l) (initialised storage)) l).
  { intros v H. apply renderTasks_Return in H as (l & Hl & _ & Hs & ->).
    cbn [with_tasks tasks] in Hl. subst v. exists l.
    split; [reflexivity|]. split; [exact Hs | reflexivity]. }
  destruct (storage !! "tasks") as [text|].
  - destruct (String.eqb text "").
    + intros H. destruct (Hr (VArray []) H) as (l & Hl & Hd & ->).
      injection Hl as <-. exists []. repeat split. exact Hd.
    + destruct (JSON.parse text) as [v|e]; [|discriminate].
      intros H. destruct (Hr v H) as (l & -> & Hd & ->). exists l. repeat split.
      exact Hd.
  - intros H. destruct (Hr (VArray []) H) as (l & Hl & Hd & ->).
    injection Hl as <-. exists []. repeat split. exact Hd.
Qed.

(** *** Tasks of a session *)

Lemma new_task_renders (i : add_input) : renders (new_task i).
Proof. eexists. reflexivity. Qed.

Lemma loaded_task_renders (i : add_input) : renders (loaded_task i).
Proof. eexists. reflexivity. Qed.

Lemma is_completed_new_task (i : add_input) :
  is_completed (new_task i) = String.eqb (arg_status i) TaskStatus.COMPLETED.
Proof. reflexivity. Qed.

Lemma is_completed_loaded_task (i : add_input) :
  is_completed (loaded_task i) = String.eqb (arg_status i) TaskStatus.COMPLETED.
Proof. reflexivity. Qed.

Lemma stringify_loaded_task (i : add_input) :
  JSON.stringify (loaded_task i) = Some (task_text i).
Proof.
  unfold loaded_task, task_text.
  cbn [JSON.stringify String.concat].
  text_norm. reflexivity.
Qed.

Lemma text_of_loaded_tasks (inputs : list add_input) :
  JSON.stringify (VArray (List.map loaded_task inputs))
  = Some ("[" ++ String.concat "," (List.map task_text inputs) ++ "]").
Proof.
  rewrite stringify_array.
  assert (Hmap : List.map (fun x => default "null" (JSON.stringify x))
                   (List.map loaded_task inputs) = List.map task_text inputs).
  { induction inputs as [|i inputs IH]; [reflexivity|].
    cbn [List.map]. rewrite IH, stringify_loaded_task. reflexivity. }
  rewrite Hmap. reflexivity.
Qed.

Lemma count_completed (f : add_input -> value) (inputs : list add_input) :
  (forall i, is_completed (f i) = String.eqb (arg_status i) TaskStatus.COMPLETED) ->
  List.length (List.filter is_completed (List.map f inputs))
  = List.length (List.filter (fun i => String.eqb (arg_status i) TaskStatus.COMPLETED)
                   inputs).
Proof.
  intros H. induction inputs as [|i l IH]; [reflexivity|].
  cbn [List.map List.filter]. rewrite H.
  destruct (String.eqb (arg_status i) TaskStatus.COMPLETED); cbn [List.length];
    rewrite IH; reflexivity.
Qed.

Lemma Forall_map_all {A} (P : value -> Prop) (f : A -> value) (l : list A) :
  (forall x, P (f x)) -> Forall P (List.map f l).
Proof. intros H. induction l; constructor; auto. Qed.

Lemma Forall_filter_keep {A} (P : A -> Prop) (f : A -> bool) (l : list A) :
  Forall P l -> Forall P (List.filter f l).
Proof.
  induction 1 as [|x l Hx Hl IH]; cbn [List.filter]; [constructor|].
  destruct (f x); [constructor|]; assumption.
Qed.

Lemma Forall_shown (P : value -> Prop) (filter : string) (l : list value) :
  Forall P l -> Forall P (shown filter l).
Proof.
  intros H. unfold shown. destruct (String.eqb filter "all"); [exact H|].
  apply Forall_filter_keep. exact H.
Qed.

Lemma renders_readable (l : list value) :
  Forall renders l -> Forall (fun t => readable t = true) l.
Proof.
  intros H. eapply Forall_impl; [exact H|]. intros t [li Hli].
  eapply render_item_readable. exact Hli.
Qed.

(** A list whose tasks can all be drawn is drawn under every filter. *)
Lemma renderTasks_run_all (st : app) (l : list value) :
  tasks st = VArray l -> Forall renders l ->
  TodoApp.renderTasks st = (Return tt, drawn st l).
Proof.
  intros Hl Hr. apply renderTasks_run; [exact Hl | apply renders_readable; exact Hr|].
  apply Forall_shown. exact Hr.
Qed.

Lemma find_by_id_session (before after : list add_input) (i : add_input) :
  Forall (fun j => task_id j <> task_id i) before ->
  find_by_id (task_id i) (List.map new_task (before ++ i :: after))
  = Return (Some (List.length before, new_task i)).
Proof.
  unfold find_by_id. induction 1 as [|j before Hj Hb IH].
  - rewrite app_nil_l. cbn [List.map array_find List.length].
    change (get_prop (new_task i) "id") with (Return (VString (task_id i))).
    cbn [cbind strict_equals_string]. rewrite String.eqb_refl. reflexivity.
  - rewrite <- app_comm_cons. cbn [List.map array_find List.length].
    change (get_prop (new_task j) "id") with (Return (VString (task_id j))).
    cbn [cbind strict_equals_string].
    apply String.eqb_neq in Hj. rewrite Hj, IH. reflexivity.
Qed.

Lemma call_updateStatus_new_task (i : add_input) (s : string) :
  Task.call_updateStatus (new_task i) (VString s) = Return (new_task (with_status s i)).
Proof. reflexivity. Qed.

Lemma insert_session (before after : list add_input) (i i' : add_input) :
  <[List.length before := new_task i']> (List.map new_task (before ++ i :: after))
  = List.map new_task (before ++ i' :: after).
Proof.
  induction before as [|j before IH]; [reflexivity|].
  rewrite <- !app_comm_cons. cbn [List.length List.map insert list_insert].
  f_equal. exact IH.
Qed.

Lemma filter_idem {A} (f : A -> bool) (l : list A) :
  List.filter f (List.filter f l) = List.filter f l.
Proof.
  induction l as [|x l IH]; [reflexivity|]. cbn [List.filter].
  destruct (f x) eqn:E; [|exact IH]. cbn [List.filter]. rewrite E, IH. reflexivity.
Qed.

(** *** The alphabet of an identifier *)

Lemma digit36_base36 (d : N) : (d < 36)%N -> is_base36 (digit36 d) = true.
Proof.
  intros Hd. unfold is_base36, digit36.
  destruct (d <? 10)%N eqn:E.
  - apply N.ltb_lt in E. rewrite N_ascii_embedding by lia.
    apply orb_true_iff. left. apply andb_true_iff. split; apply N.leb_le; lia.
  - apply N.ltb_ge in E. rewrite N_ascii_embedding by lia.
    apply orb_true_iff. right. apply andb_true_iff. split; apply N.leb_le; lia.
Qed.

Lemma random_value_range (r : random) :
  (0 <= random_value r)%Q /\ (random_in_range r = true -> (random_value r <= 1)%Q).
Proof.
  unfold random_value, random_in_range.
  pose proof (pow2_pos (- Z.of_nat (rand_exp r))) as Hp.
  assert (Hn : (0 <= inject_Z (Z.of_N (rand_num r)))%Q)
    by (change 0%Q with (inject_Z 0); rewrite <- Zle_Qle; lia).
  split.
  - apply RN_nonneg. apply Qmult_le_0_compat; lra.
  - intros Hr. apply N.ltb_lt in Hr. rewrite <- RN_1. apply RN_mono.
    assert (Hz : (inject_Z (Z.of_N (rand_num r)) <= pow2 (Z.of_nat (rand_exp r)))%Q).
    { rewrite pow2_Z by lia. rewrite <- Zle_Qle.
      apply N2Z.inj_lt in Hr. rewrite N2Z.inj_pow, nat_N_Z in Hr.
      change (Z.of_N 2) with 2 in Hr. lia. }
    apply Qle_trans
      with (y := (pow2 (Z.of_nat (rand_exp r)) * pow2 (- Z.of_nat (rand_exp r)))%Q).
    + apply Qmult_le_compat_r; lra.
    + rewrite <- pow2_add. replace (Z.of_nat (rand_exp r) + - Z.of_nat (rand_exp r)) with 0 by lia.
      apply Qle_refl.
Qed.

Lemma value_fraction_ok (value : Q) :
  double value -> (0 <= value)%Q ->
  frac_ok (RN (value - inject_Z (Z.of_N (Z.to_N (Qfloor value))))).
Proof.
  intros Hd H0.
  assert (Hf : 0 <= Qfloor value) by (change 0 with (Qfloor 0); apply Qfloor_resp_le; exact H0).
  rewrite Z2N.id by exact Hf.
  pose proof (double_fraction value Hd H0) as Hd'.
  pose proof (RN_double _ Hd') as E.
  pose proof (Qfloor_le value). pose proof (Qlt_floor value) as Hlt.
  rewrite inject_Z_plus in Hlt. change (inject_Z 1) with 1%Q in Hlt.
  split; [apply double_RN|]. split; lra.
Qed.

Lemma half_gap_ok (value : Q) :
  delta_ok (half_gap value) /\ (pow2 (- Z.of_nat 1074) <= half_gap value)%Q.
Proof.
  unfold half_gap. destruct (Qle_bool value 0).
  - split; [split; [apply double_pow2 | apply pow2_pos] | apply Qle_refl].
  - split; [split; [apply double_pow2 | apply pow2_pos] | apply pow2_le; lia].
Qed.

(** The fuel of [toString36] is enough: more of it gives the same
    digits, for every number. *)
Lemma toString36_fuel (r : random) (extra : nat) :
  let value := random_value r in
  let fraction := RN (value - inject_Z (Z.of_N (Z.to_N (Qfloor value)))) in
  fraction_digits36 (1075 + extra) fraction (half_gap value) []
  = fraction_digits36 1075 fraction (half_gap value) [].
Proof.
  cbv zeta. destruct (half_gap_ok (random_value r)) as [Hd Hle].
  apply (fraction_digits36_fuel 1074 extra); [|exact Hd|exact Hle].
  apply value_fraction_ok; [apply double_RN | apply random_value_range].
Qed.

Lemma integer_digits36_small (fuel : nat) (n : N) :
  (n < 36)%N -> integer_digits36 (S fuel) n "" = String (digit36 n) "".
Proof.
  intros Hn. cbn [integer_digits36]. cbv zeta.
  rewrite N.div_small, N.mod_small by exact Hn. reflexivity.
Qed.

Lemma digits_text_base36 (l : list N) :
  digits_ok l -> string_forall is_base36 (digits_text l) = true.
Proof.
  induction 1 as [|d rest Hd Hrest IH]; [reflexivity|].
  cbn [digits_text string_forall]. rewrite (digit36_base36 d Hd), IH. reflexivity.
Qed.

Lemma substring_forall (p : ascii -> bool) (n m : nat) (s : string) :
  string_forall p s = true -> string_forall p (String.substring n m s) = true.
Proof.
  revert n m. induction s as [|c s IH]; intros n m H.
  - destruct n, m; reflexivity.
  - cbn [string_forall] in H. apply andb_true_iff in H as [Hc Hs].
    destruct n as [|n]; cbn [String.substring].
    + destruct m as [|m]; [reflexivity|]. cbn [string_forall].
      rewrite Hc. apply (IH 0%nat m Hs).
    + apply IH. exact Hs.
Qed.

Lemma toString36_id_base36 (r : random) :
  random_in_range r = true ->
  string_forall is_base36 (js_substring (toString36 r) 2 11) = true.
Proof.
  intros Hr. destruct (random_value_range r) as [H0 H1]. specialize (H1 Hr).
  unfold js_substring, toString36. cbn [Nat.min Nat.max Nat.sub]. cbv zeta.
  set (value := random_value r) in *.
  assert (Hf0 : 0 <= Qfloor value) by (change 0 with (Qfloor 0); apply Qfloor_resp_le; exact H0).
  assert (Hf1 : Qfloor value <= 1) by (change 1 with (Qfloor 1); apply Qfloor_resp_le; exact H1).
  set (integer := Z.to_N (Qfloor value)).
  assert (Hi : (integer < 35)%N) by (unfold integer; lia).
  pose proof (value_fraction_ok value (double_RN _) H0) as Hfrac.
  fold integer in Hfrac.
  rewrite !integer_digits36_small by lia.
  destruct (Qle_bool _ _); [|reflexivity].
  destruct (fraction_digits36 _ _ _ _) as [written|] eqn:Hrun; [|reflexivity].
  rewrite !append_cons, append_nil_l. cbn [String.substring].
  apply substring_forall, digits_text_base36.
  apply Forall_rev. eapply fraction_digits36_ok; [exact Hfrac | constructor | exact Hrun].
Qed.

(** The texts of some numbers, as the engine prints them: 1/2, the
    doubles nearest to 1/3 and to 1/10, a double whose exact expansion
    in base 36 has 11 digits, and the number of the examples below. *)
Example toString36_one_half : toString36 one_half = "0.i".
Proof. vm_compute. reflexivity. Qed.

Example toString36_one_third :
  toString36 {| rand_num := 6004799503160661; rand_exp := 54 |} = "0.c".
Proof. vm_compute. reflexivity. Qed.

Example toString36_one_tenth :
  toString36 {| rand_num := 3602879701896397; rand_exp := 55 |} = "0.3lllllllllm".
Proof. vm_compute. reflexivity. Qed.

Example toString36_short :
  toString36 {| rand_num := 2501999792983609; rand_exp := 52 |} = "0.k".
Proof. vm_compute. reflexivity. Qed.

Example toString36_some_random : toString36 some_random = "0.4xmvue8buuk".
Proof. vm_compute. reflexivity. Qed.

(** The priority of a task after one day, one day before its creation
    (where the code divides by zero), and at the end of the range of
    Dates. *)
Example calculatePriority_one_day :
  Task.calculatePriority 1700086400000 (new_task milk) = Some (1 # 2).
Proof. vm_compute. reflexivity. Qed.

Example calculatePriority_minus_one_day :
  Task.calculatePriority 1699913600000 (new_task milk) = None.
Proof. vm_compute. reflexivity. Qed.

Example calculatePriority_far :
  Task.calculatePriority 8640000000000000
    (Task.constructor some_random 3 (VString "Buy milk") VUndefined VUndefined)
  = Some (6044629037626857 # 604462909807314587353088).
Proof. vm_compute. reflexivity. Qed.

(** *** White space at the ends of a text *)

Lemma trim_start_eq (s : string) :
  trim_start s = match strip_space s with
                 | Some rest => trim_start rest
                 | None => s
                 end.
Proof.
  destruct s as [|a [|b [|c r3]]]; cbn [trim_start strip_space]; try reflexivity.
  - destruct (ascii_space a); reflexivity.
  - destruct (ascii_space a); [reflexivity|]. destruct (space2 a b); reflexivity.
  - destruct (ascii_space a); [reflexivity|]. destruct (space2 a b); [reflexivity|].
    destruct (space3 a b c); reflexivity.
Qed.

Lemma strip_space_split (s rest : string) :
  strip_space s = Some rest ->
  exists u, s = u ++ rest /\ strip_space u = Some "" /\
            (String.length rest < String.length s)%nat.
Proof.
  destruct s as [|a [|b [|c r3]]]; cbn [strip_space]; try discriminate.
  - destruct (ascii_space a) eqn:Ea; [|discriminate].
    intros H. injection H as <-. exists (String a "").
    cbn [strip_space String.length]. rewrite Ea. repeat split. lia.
  - destruct (ascii_space a) eqn:Ea.
    + intros H. injection H as <-. exists (String a "").
      cbn [strip_space String.length]. rewrite Ea. repeat split. lia.
    + destruct (space2 a b) eqn:Eb; [|discriminate].
      intros H. injection H as <-. exists (String a (String b "")).
      cbn [strip_space String.length]. rewrite Ea, Eb. repeat split. lia.
  - destruct (ascii_space a) eqn:Ea.
    + intros H. injection H as <-. exists (String a "").
      cbn [strip_space String.length]. rewrite Ea. repeat split. lia.
    + destruct (space2 a b) eqn:Eb.
      * intros H. injection H as <-. exists (String a (String b "")).
        cbn [strip_space String.length]. rewrite Ea, Eb. repeat split. lia.
      * destruct (space3 a b c) eqn:Ec; [|discriminate].
        intros H. injection H as <-. exists (String a (String b (String c ""))).
        cbn [strip_space String.length]. rewrite Ea, Eb, Ec. repeat split. lia.
Qed.

Lemma strip_space_app (s rest w : string) :
  strip_space s = Some rest -> strip_space (s ++ w) = Some (rest ++ w).
Proof.
  destruct s as [|a [|b [|c r3]]]; cbn [strip_space]; try discriminate;
    rewrite ?append_cons, ?append_nil_l; cbn [strip_space].
  - destruct (ascii_space a); [|discriminate]. intros H. injection H as <-.
    rewrite append_nil_l. reflexivity.
  - destruct (ascii_space a).
    + intros H. injection H as <-. rewrite append_cons, append_nil_l. reflexivity.
    + destruct (space2 a b); [|discriminate]. intros H. injection H as <-.
      rewrite append_nil_l. reflexivity.
  - destruct (ascii_space a).
    + intros H. injection H as <-. rewrite !append_cons. reflexivity.
    + destruct (space2 a b).
      * intros H. injection H as <-. rewrite !append_cons. reflexivity.
      * destruct (space3 a b c); [|discriminate]. intros H. injection H as <-.
        reflexivity.
Qed.

Lemma trim_start_length (n : nat) (s : string) :
  (String.length s <= n)%nat ->
  (String.length (trim_start s) <= String.length s)%nat.
Proof.
  revert s. induction n as [|n IH]; intros s Hn.
  - destruct s; [cbn; lia | cbn [String.length] in Hn; lia].
  - rewrite trim_start_eq. destruct (strip_space s) as [rest|] eqn:E; [|lia].
    apply strip_space_split in E as (u & _ & _ & Hlt).
    specialize (IH rest). lia.
Qed.

Lemma trim_start_fixed (s : string) :
  trim_start s = s -> strip_space s = None.
Proof.
  intros H. destruct (strip_space s) as [rest|] eqn:E; [|reflexivity].
  rewrite trim_start_eq, E in H.
  apply strip_space_split in E as (u & _ & _ & Hlt).
  pose proof (trim_start_length (String.length rest) rest (le_n _)) as Hle.
  rewrite H in Hle. lia.
Qed.

Lemma trim_start_idem_n (n : nat) (s : string) :
  (String.length s <= n)%nat -> trim_start (trim_start s) = trim_start s.
Proof.
  revert s. induction n as [|n IH]; intros s Hn.
  - destruct s; [reflexivity | cbn [String.length] in Hn; lia].
  - rewrite (trim_start_eq s). destruct (strip_space s) as [rest|] eqn:E.
    + apply IH. apply strip_space_split in E as (u & _ & _ & Hlt). lia.
    + rewrite trim_start_eq, E. reflexivity.
Qed.

Lemma trim_start_idem (s : string) : trim_start (trim_start s) = trim_start s.
Proof. apply (trim_start_idem_n (String.length s)). lia. Qed.

Lemma all_spaces_trim_start (s : string) : all_spaces (trim_start s) = all_spaces s.
Proof. unfold all_spaces. rewrite trim_start_idem. reflexivity. Qed.

Lemma all_spaces_empty (s : string) : all_spaces s = true <-> trim_start s = "".
Proof. unfold all_spaces. apply String.eqb_eq. Qed.

Lemma trim_start_app_n (n : nat) (a b : string) :
  (String.length a <= n)%nat ->
  all_spaces a = true -> trim_start (a ++ b) = trim_start b.
Proof.
  revert a. induction n as [|n IH]; intros a Hn Ha.
  - destruct a; [rewrite append_nil_l; reflexivity | cbn [String.length] in Hn; lia].
  - destruct a as [|c a']; [rewrite append_nil_l; reflexivity|].
    apply all_spaces_empty in Ha. rewrite trim_start_eq in Ha.
    destruct (strip_space (String c a')) as [rest|] eqn:E; [|discriminate].
    rewrite trim_start_eq, (strip_space_app _ _ b E).
    apply IH; [|apply all_spaces_empty; exact Ha].
    apply strip_space_split in E as (u & _ & _ & Hlt). lia.
Qed.

Lemma trim_start_app (a b : string) :
  all_spaces a = true -> trim_start (a ++ b) = trim_start b.
Proof. apply (trim_start_app_n (String.length a)). lia. Qed.

Lemma trim_start_split_n (n : nat) (s : string) :
  (String.length s <= n)%nat ->
  exists lead, s = lead ++ trim_start s /\ all_spaces lead = true.
Proof.
  revert s. induction n as [|n IH]; intros s Hn.
  - destruct s; [exists ""; split; reflexivity | cbn [String.length] in Hn; lia].
  - rewrite trim_start_eq. destruct (strip_space s) as [rest|] eqn:E.
    + apply strip_space_split in E as (u & -> & Hu & Hlt).
      destruct (IH rest) as (lead & Hlead & Hsp); [lia|].
      exists (u ++ lead). split.
      * rewrite append_assoc, <- Hlead. reflexivity.
      * apply all_spaces_empty. rewrite trim_start_app; [apply all_spaces_empty; exact Hsp|].
        apply all_spaces_empty. rewrite trim_start_eq, Hu. reflexivity.
    + exists "". split; [rewrite append_nil_l; reflexivity | reflexivity].
Qed.

Lemma trim_end_empty (s : string) : trim_end s = "" <-> all_spaces s = true.
Proof.
  destruct s as [|c rest]; cbn [trim_end]; [split; reflexivity|].
  destruct (all_spaces (String c rest)); split; try reflexivity; discriminate.
Qed.

Lemma trim_end_split (s : string) :
  exists trail, s = trim_end s ++ trail /\ all_spaces trail = true.
Proof.
  induction s as [|c rest (trail & Hrest & Htrail)].
  - exists "". split; reflexivity.
  - cbn [trim_end]. destruct (all_spaces (String c rest)) eqn:E.
    + exists (String c rest). split; [rewrite append_nil_l; reflexivity | exact E].
    + exists trail. split; [rewrite append_cons, <- Hrest; reflexivity | exact Htrail].
Qed.

Lemma trim_end_idem (s : string) : trim_end (trim_end s) = trim_end s.
Proof.
  induction s as [|c rest IH]; [reflexivity|].
  cbn [trim_end]. destruct (all_spaces (String c rest)) eqn:E; [reflexivity|].
  cbn [trim_end]. rewrite IH.
  destruct (all_spaces (String c (trim_end rest))) eqn:E'; [|reflexivity].
  destruct (trim_end_split rest) as (trail & Hrest & Htrail).
  assert (all_spaces (String c rest) = true); [|congruence].
  apply all_spaces_empty.
  rewrite Hrest, <- append_cons, (trim_start_app _ _ E').
  apply all_spaces_empty. exact Htrail.
Qed.

Lemma trim_start_trim_end (t : string) :
  trim_start t = t -> trim_start (trim_end t) = trim_end t.
Proof.
  intros H. apply trim_start_fixed in H.
  destruct (trim_end_split t) as (trail & Ht & _).
  rewrite trim_start_eq.
  destruct (strip_space (trim_end t)) as [rest|] eqn:E; [|reflexivity].
  apply (strip_space_app _ _ trail) in E. rewrite <- Ht, H in E. discriminate.
Qed.

Lemma trim_idem (s : string) : trim (trim s) = trim s.
Proof.
  unfold trim.
  rewrite (trim_start_trim_end (trim_start s) (trim_start_idem s)).
  apply trim_end_idem.
Qed.

Lemma trim_empty (s : string) : trim s = "" <-> all_spaces s = true.
Proof.
  unfold trim. rewrite trim_end_empty, all_spaces_trim_start. reflexivity.
Qed.

Lemma trim_split (s : string) :
  exists lead trail,
    s = lead ++ trim s ++ trail /\ all_spaces lead = true /\ all_spaces trail = true.
Proof.
  destruct (trim_start_split_n (String.length s) s (le_n _)) as (lead & Hs & Hlead).
  destruct (trim_end_split (trim_start s)) as (trail & Ht & Htrail).
  exists lead, trail. unfold trim. rewrite <- Ht. repeat split; assumption.
Qed.

(** *** The two methods of a task *)

Lemma replace_value_twice (k : string) (v1 v2 : value) (props props' : list (string * value)) :
  JSON.replace_value k v1 props = Some props' ->
  JSON.replace_value k v2 props' = JSON.replace_value k v2 props.
Proof.
  revert props'. induction props as [|[k0 v0] props IH]; intros props' H;
    cbn [JSON.replace_value] in *; [discriminate|].
  destruct (String.eqb k0 k) eqn:E.
  - injection H as <-. cbn [JSON.replace_value]. rewrite E. reflexivity.
  - destruct (JSON.replace_value k v1 props) as [rest|]; [|discriminate].
    injection H as <-. cbn [JSON.replace_value]. rewrite E, (IH rest eq_refl).
    reflexivity.
Qed.

Lemma replace_value_appended (k : string) (v1 v2 : value) (props : list (string * value)) :
  JSON.replace_value k v1 props = None ->
  JSON.replace_value k v2 (props ++ [(k, v1)])%list = Some (props ++ [(k, v2)])%list /\
  JSON.replace_value k v2 props = None.
Proof.
  induction props as [|[k0 v0] props IH].
  - intros _. rewrite app_nil_l. cbn [JSON.replace_value].
    rewrite String.eqb_refl. split; reflexivity.
  - cbn [JSON.replace_value]. destruct (String.eqb k0 k) eqn:E; [discriminate|].
    destruct (JSON.replace_value k v1 props); [discriminate|]. intros _.
    rewrite <- app_comm_cons. cbn [JSON.replace_value]. rewrite E.
    destruct (IH eq_refl) as [-> ->]. split; reflexivity.
Qed.

(** *** Lists that can be drawn *)

Lemma renders_can_render (t : value) : renders t <-> can_render t = true.
Proof.
  unfold renders, can_render, TodoApp.render_item. split.
  - intros [li H].
    destruct (get_prop t "status") as [v|e] eqn:E; cbn [cbind] in H; [|discriminate].
    apply get_prop_Return in E as [-> Hr].
    rewrite !(get_prop_readable t _ Hr) in H. cbn [cbind] in H. unfold to_text in H.
    rewrite Hr.
    destruct (to_string_ok (prop t "category")); cbn [cbind] in H; [|discriminate].
    destruct (to_string_ok (prop t "title")); cbn [cbind] in H; [|discriminate].
    destruct (to_string_ok (prop t "status")); cbn [cbind] in H; [|discriminate].
    destruct (to_string_ok (prop t "id")); cbn [cbind] in H; [|discriminate].
    reflexivity.
  - intros H. repeat (apply andb_true_iff in H as [H ?]).
    rewrite !(get_prop_readable t _ H). cbn [cbind]. unfold to_text.
    repeat match goal with Hx : to_string_ok _ = true |- _ => rewrite Hx; clear Hx end.
    cbn [cbind]. eexists. reflexivity.
Qed.

Lemma renders_updateStatus (task : value) (s : string) (task' : value) :
  renders task ->
  Task.call_updateStatus task (VString s) = Return task' ->
  renders task'.
Proof.
  intros Hr Hcall. apply call_updateStatus_Return in Hcall. subst task'.
  apply renders_can_render in Hr. apply renders_can_render.
  destruct task as [ | |b|n e|x|d|name|l|p props]; try exact Hr.
  unfold can_render in *.
  rewrite set_status_same.
  rewrite !(set_status_other p props (VString s)) by discriminate.
  repeat (apply andb_true_iff in Hr as [Hr ?]).
  repeat (apply andb_true_iff; split); try assumption; reflexivity.
Qed.

Lemma changed_list_renders (m : mutation) (l l' : list value) :
  match m with
  | AddTask _ _ (VString _) (VString _) (VString _) => True
  | UpdateTaskStatus _ (VString _) => True
  | DeleteTask _ => True
  | _ => False
  end ->
  Forall renders l ->
  changed_list m l = Return (Some l') ->
  Forall renders l'.
Proof.
  intros Hm Hl H.
  destruct m as [r now title category status | taskId newStatus | taskId];
    cbn [changed_list] in H.
  - destruct title as [ | |b|n e|t|d|name|x|p props]; try destruct Hm.
    destruct category as [ | |b|n e|c|d|name|x|p props]; try destruct Hm.
    destruct status as [ | |b|n e|s|d|name|x|p props]; try destruct Hm.
    injection H as <-. apply Forall_app. split; [exact Hl|].
    constructor; [|constructor]. eexists. reflexivity.
  - destruct newStatus as [ | |b|n e|s|d|name|x|p props]; try destruct Hm.
    destruct (find_by_id taskId l) as [[[i task]|]|e] eqn:E; cbn [cbind] in H;
      try discriminate.
    destruct (to_boolean task); [|discriminate].
    destruct (Task.call_updateStatus task (VString s)) as [task'|e] eqn:Ec;
      cbn [cbind] in H; [|discriminate].
    injection H as <-. apply find_by_id_Some in E as (Hi & _ & _).
    apply Forall_insert; [exact Hl|].
    eapply renders_updateStatus; [|exact Ec].
    eapply Forall_lookup_1; [exact Hl | exact Hi].
  - destruct (array_filter _ l) as [r|e] eqn:E; cbn [cbind] in H; [|discriminate].
    injection H as <-.
    apply (array_filter_Return (fun id => negb (strict_equals_string id taskId))) in E
      as [_ ->].
    apply Forall_filter_keep. exact Hl.
Qed.

(** On a list that can be drawn, a mutation made with strings throws
    before it changes anything, or leaves the state as it is, or returns
    with the page drawn from the new list, which can be drawn too. *)
Lemma run_mutation_on_drawable (m : mutation) (st : app) (l : list value) :
  match m with
  | AddTask _ _ (VString _) (VString _) (VString _) => True
  | UpdateTaskStatus _ (VString _) => True
  | DeleteTask _ => True
  | _ => False
  end ->
  tasks st = VArray l -> Forall renders l ->
  (run_mutation m st = (Throw TypeError, st) /\
   exists taskId newStatus, m = UpdateTaskStatus taskId newStatus) \/
  run_mutation m st = (Return tt, st) \/
  exists l', Forall renders l' /\
             run_mutation m st
             = (Return tt, drawn (persisted (with_tasks (VArray l') st)) l').
Proof.
  intros Hm Hl Hr.
  rewrite (run_mutation_run m st l Hl).
  destruct (changed_list m l) as [[l'|]|e] eqn:E.
  - pose proof (changed_list_renders m l l' Hm Hr E) as Hr'.
    right. right. exists l'. split; [exact Hr'|].
    apply renderTasks_run_all; [reflexivity | exact Hr'].
  - right. left. reflexivity.
  - left. rewrite (changed_list_Throw m l e E) in *. split; [reflexivity|].
    destruct m as [r now title category status | taskId newStatus | taskId];
      cbn [changed_list] in E; [discriminate | eexists; eexists; reflexivity |].
    rewrite (array_filter_readable (fun id => negb (strict_equals_string id taskId))
               "id" l (renders_readable l Hr)) in E.
    discriminate.
Qed.

Lemma handle_on_drawable (e : event) (st : app) (l : list value) :
  tasks st = VArray l -> Forall renders l ->
  (handle e st = (Throw TypeError, st) /\ exists id value, e = StatusChange id value) \/
  handle e st = (Return tt, st) \/
  exists st0 l', Forall renders l' /\ tasks st0 = VArray l' /\
                 handle e st = (Return tt, drawn st0 l').
Proof.
  intros Hl Hr.
  destruct e as [r now input category status | category | id value | id];
    cbn [handle].
  - rewrite add_click_run. destruct (String.eqb (trim input) "");
      [right; left; reflexivity|].
    destruct (run_mutation_on_drawable
                (AddTask r now (VString (trim input)) (VString category) (VString status))
                st l I Hl Hr) as [[_ (x & y & Hxy)]|[H|(l' & Hr' & H)]];
      [discriminate | right; left; exact H |].
    right. right. eexists. exists l'. split; [exact Hr'|]. split; [|exact H]. reflexivity.
  - right. right. exists (with_filter category st), l.
    split; [exact Hr|]. split; [exact Hl|].
    rewrite filter_click_run. apply renderTasks_run_all; assumption.
  - destruct (run_mutation_on_drawable (UpdateTaskStatus id (VString value))
                st l I Hl Hr) as [[H _]|[H|(l' & Hr' & H)]].
    + left. split; [exact H|]. eexists; eexists; reflexivity.
    + right; left; exact H.
    + right. right. eexists. exists l'. split; [exact Hr'|]. split; [|exact H].
      reflexivity.
  - destruct (run_mutation_on_drawable (DeleteTask id) st l I Hl Hr)
      as [[_ (x & y & Hxy)]|[H|(l' & Hr' & H)]];
      [discriminate | right; left; exact H |].
    right. right. eexists. exists l'. split; [exact Hr'|]. split; [|exact H]. reflexivity.
Qed.

Lemma consistent_drawn (st0 : app) (l : list value) :
  tasks st0 = VArray l -> Forall renders l -> consistent (drawn st0 l).
Proof.
  intros Hl Hr. exists l. split; [exact Hl|]. split; [exact Hr | reflexivity].
Qed.

Lemma handle_consistent (e : event) (st : app) :
  consistent st -> consistent (state_after (handle e st)).
Proof.
  intros (l & Hl & Hr & Hst).
  destruct (handle_on_drawable e st l Hl Hr)
    as [[H _]|[H|(st0 & l' & Hr' & Hl' & H)]];
    rewrite H; unfold state_after; cbn [snd].
  - exists l. repeat split; assumption.
  - exists l. repeat split; assumption.
  - apply consistent_drawn; assumption.
Qed.

Lemma run_events_consistent (events : list event) (st : app) :
  consistent st -> consistent (run_events events st).
Proof.
  revert st. induction events as [|e events IH]; intros st H; [exact H|].
  cbn [run_events fold_left]. apply IH, handle_consistent, H.
Qed.

(** *** Properties of the page, of the start and of the events *)

(** X1: when [renderTasks] returns normally the task list is an array,
    the page has one row for each task that the current filter lets
    through, in the order of the list, a row being marked completed
    exactly when the status of its task is ['completed']; the two counters
    are those of the whole list, whatever the filter: the number of tasks
    and the number of completed ones; so the completed counter and the
    number of rows are at most the total.  The list, the filter and the
    storage are as before. *)
Theorem renderTasks_draws_view_and_counts (st st' : app) :
  TodoApp.renderTasks st = (Return tt, st') ->
  exists l : list value,
    tasks st = VArray l /\
    same_store st st' /\
    taskList st' = List.map item_of (shown (currentFilter st) l) /\
    totalTasks st' = List.length l /\
    completedTasks st' = List.length (List.filter is_completed l) /\
    (completedTasks st' <= totalTasks st')%nat /\
    (List.length (taskList st') <= totalTasks st')%nat.
Proof.
  intros H. apply renderTasks_Return in H as (l & Hl & _ & _ & ->).
  exists l. cbn [drawn taskList totalTasks completedTasks].
  split; [exact Hl|]. split; [repeat split|]. repeat split.
  - apply sublist_length, filter_sublist.
  - rewrite length_map. unfold shown.
    destruct (String.eqb (currentFilter st) "all"); [lia|].
    apply sublist_length, filter_sublist.
Qed.

Lemma renderTasks_draws_view_and_counts_witness :
  exists l : list value,
    tasks (with_filter "work" two_tasks_one_id) = VArray l /\
    same_store (with_filter "work" two_tasks_one_id)
      (state_after (TodoApp.filter_click "work" two_tasks_one_id)) /\
    taskList (state_after (TodoApp.filter_click "work" two_tasks_one_id))
    = List.map item_of (shown (currentFilter (with_filter "work" two_tasks_one_id)) l) /\
    totalTasks (state_after (TodoApp.filter_click "work" two_tasks_one_id))
    = List.length l /\
    completedTasks (state_after (TodoApp.filter_click "work" two_tasks_one_id))
    = List.length (List.filter is_completed l) /\
    (completedTasks (state_after (TodoApp.filter_click "work" two_tasks_one_id))
     <= totalTasks (state_after (TodoApp.filter_click "work" two_tasks_one_id)))%nat /\
    (List.length (taskList (state_after (TodoApp.filter_click "work" two_tasks_one_id)))
     <= totalTasks (state_after (TodoApp.filter_click "work" two_tasks_one_id)))%nat.
Proof.
  apply (renderTasks_draws_view_and_counts (with_filter "work" two_tasks_one_id)).
  vm_compute. reflexivity.
Defined.

(** X2: what [renderTasks] does depends on the task list and the filter
    only, not on what the page showed before: from two states with the
    same list, filter and storage it returns or throws alike, and when it
    returns the two states it leaves are equal (nothing of the old page
    remains). *)
Theorem page_is_drawn_from_list_and_filter (st1 st2 : app) :
  same_store st1 st2 ->
  fst (TodoApp.renderTasks st2) = fst (TodoApp.renderTasks st1) /\
  (fst (TodoApp.renderTasks st1) = Return tt ->
   snd (TodoApp.renderTasks st2) = snd (TodoApp.renderTasks st1)).
Proof.
  intros Hsame. split; [symmetry; apply renderTasks_fst; exact Hsame|].
  intros Hret. destruct (TodoApp.renderTasks st1) as [c s] eqn:E. cbn [fst snd] in *.
  subst c. rewrite (renderTasks_same_store st1 st2 s Hsame E). reflexivity.
Qed.

Lemma page_is_drawn_from_list_and_filter_witness :
  fst (TodoApp.renderTasks (with_rows [] two_tasks_one_id))
  = fst (TodoApp.renderTasks two_tasks_one_id) /\
  (fst (TodoApp.renderTasks two_tasks_one_id) = Return tt ->
   snd (TodoApp.renderTasks (with_rows [] two_tasks_one_id))
   = snd (TodoApp.renderTasks two_tasks_one_id)).
Proof.
  apply (page_is_drawn_from_list_and_filter two_tasks_one_id
           (with_rows [] two_tasks_one_id)).
  repeat split.
Defined.

(** X3: a click on a filter button that returns normally sets the
    filter to the category of the button and redraws: the rows are the
    tasks of that category (all tasks for "all"), a subsequence of the
    list, while the total counter still counts the whole list; the list
    and the storage are untouched. *)
Theorem filter_click_shows_category (category : string) (st st' : app) :
  TodoApp.filter_click category st = (Return tt, st') ->
  exists l : list value,
    tasks st = VArray l /\
    st' = drawn (with_filter category st) l /\
    currentFilter st' = category /\
    tasks st' = tasks st /\
    localStorage st' = localStorage st /\
    taskList st' = List.map item_of (shown category l) /\
    sublist (List.map li_task (taskList st')) l /\
    totalTasks st' = List.length l.
Proof.
  rewrite filter_click_run. intros H.
  apply renderTasks_Return in H as (l & Hl & _ & _ & ->).
  exists l. cbn [drawn with_filter tasks currentFilter localStorage taskList totalTasks].
  repeat split; try assumption.
  rewrite map_map. cbn [item_of li_task]. rewrite map_id. unfold shown.
  destruct (String.eqb category "all"); [reflexivity | apply filter_sublist].
Qed.

Lemma filter_click_shows_category_witness :
  exists l : list value,
    tasks two_tasks_one_id = VArray l /\
    state_after (TodoApp.filter_click "work" two_tasks_one_id)
    = drawn (with_filter "work" two_tasks_one_id) l /\
    currentFilter (state_after (TodoApp.filter_click "work" two_tasks_one_id)) = "work" /\
    tasks (state_after (TodoApp.filter_click "work" two_tasks_one_id))
    = tasks two_tasks_one_id /\
    localStorage (state_after (TodoApp.filter_click "work" two_tasks_one_id))
    = localStorage two_tasks_one_id /\
    taskList (state_after (TodoApp.filter_click "work" two_tasks_one_id))
    = List.map item_of (shown "work" l) /\
    sublist (List.map li_task
               (taskList (state_after (TodoApp.filter_click "work" two_tasks_one_id)))) l /\
    totalTasks (state_after (TodoApp.filter_click "work" two_tasks_one_id))
    = List.length l.
Proof.
  apply (filter_click_shows_category "work" two_tasks_one_id).
  vm_compute. reflexivity.
Defined.

(** X4: choosing a filter and changing the list can be done in either
    order: if a click on a filter button followed by [addTask],
    [updateTaskStatus] or [deleteTask] returns normally, then the same
    call made first and the click made after it end in the same state. *)
Theorem filter_click_commutes_with_mutation (category : string) (m : mutation)
    (st s1 s2 : app) :
  TodoApp.filter_click category st = (Return tt, s1) ->
  run_mutation m s1 = (Return tt, s2) ->
  TodoApp.filter_click category (state_after (run_mutation m st)) = (Return tt, s2).
Proof.
  rewrite !filter_click_run. intros H1 H2.
  pose proof H1 as H1'.
  apply renderTasks_Return in H1' as (l & Hl & _ & _ & Hs1).
  assert (Hl1 : tasks s1 = VArray l) by (rewrite Hs1; exact Hl).
  cbn [with_filter tasks] in Hl.
  rewrite (run_mutation_run m s1 l Hl1) in H2.
  rewrite (run_mutation_run m st l Hl).
  destruct (changed_list m l) as [[l'|]|e]; try discriminate.
  - unfold state_after.
    pose proof (renderTasks_store (persisted (with_tasks (VArray l') st)))
      as (Ht & _ & Hs).
    eapply renderTasks_same_store; [|exact H2].
    rewrite Hs1. split; [|split].
    + cbn [with_filter tasks]. exact Ht.
    + reflexivity.
    + cbn [with_filter localStorage]. exact Hs.
  - injection H2 as <-. exact H1.
Qed.

Lemma filter_click_commutes_with_mutation_witness :
  TodoApp.filter_click "work"
    (state_after (run_mutation (DeleteTask "i") two_tasks_one_id))
  = (Return tt,
     state_after (run_mutation (DeleteTask "i")
                    (state_after (TodoApp.filter_click "work" two_tasks_one_id)))).
Proof.
  apply (filter_click_commutes_with_mutation "work" (DeleteTask "i") two_tasks_one_id
           (state_after (TodoApp.filter_click "work" two_tasks_one_id))).
  - vm_compute. reflexivity.
  - vm_compute. reflexivity.
Defined.

(** X5: the constructor only reads the storage: however it ends,
    whatever the storage holds, the storage is left as it was found and
    the filter is "all". *)
Theorem constructor_reads_storage_only (storage : gmap string string) :
  localStorage (state_after (TodoApp.constructor (browser storage))) = storage /\
  currentFilter (state_after (TodoApp.constructor (browser storage))) = "all".
Proof.
  rewrite constructor_run, loadTasks_run. cbn [initialised localStorage].
  assert (Hr : forall st, localStorage st = storage -> currentFilter st = "all" ->
                localStorage (state_after (TodoApp.renderTasks st)) = storage /\
                currentFilter (state_after (TodoApp.renderTasks st)) = "all").
  { intros st Hs Hf. destruct (renderTasks_store st) as (_ & Hf' & Hs').
    unfold state_after. split; congruence. }
  destruct (storage !! "tasks") as [text|]; [|apply Hr; reflexivity].
  destruct (String.eqb text ""); [apply Hr; reflexivity|].
  destruct (JSON.parse text) as [v|e]; [apply Hr; reflexivity|].
  split; reflexivity.
Qed.

(** X6: when the constructor returns normally the task list is an
    array, the empty one if the storage has no item "tasks" or an empty
    text, and otherwise the array that [JSON.parse] makes of the stored
    text; every task of it could be drawn, and the page shows all of
    them with the counters of the list. *)
Theorem constructor_returns_with_stored_list (storage : gmap string string) (st' : app) :
  TodoApp.constructor (browser storage) = (Return tt, st') ->
  exists l : list value,
    st' = drawn (with_tasks (VArray l) (initialised storage)) l /\
    tasks st' = VArray l /\
    taskList st' = List.map item_of l /\
    Forall renders l /\
    match storage !! "tasks" with
    | Some text =>
        if String.eqb text "" then l = [] else JSON.parse text = Return (VArray l)
    | None => l = []
    end.
Proof.
  intros H. apply constructor_Return in H as (l & Hload & Hd & ->).
  exists l. split; [reflexivity|]. split; [reflexivity|]. split; [reflexivity|].
  split; [exact Hd|].
  rewrite loadTasks_run in Hload. cbn [initialised localStorage] in Hload.
  destruct (storage !! "tasks") as [text|].
  - destruct (String.eqb text "").
    + injection Hload as <-. reflexivity.
    + destruct (JSON.parse text) as [v|e]; [|discriminate].
      injection Hload as ->. reflexivity.
  - injection Hload as <-. reflexivity.
Qed.

Lemma constructor_returns_with_stored_list_witness :
  exists l : list value,
    state_after (reload two_tasks_one_id)
    = drawn (with_tasks (VArray l) (initialised (localStorage two_tasks_one_id))) l /\
    tasks (state_after (reload two_tasks_one_id)) = VArray l /\
    taskList (state_after (reload two_tasks_one_id)) = List.map item_of l /\
    Forall renders l /\
    match localStorage two_tasks_one_id !! "tasks" with
    | Some text =>
        if String.eqb text "" then l = [] else JSON.parse text = Return (VArray l)
    | None => l = []
    end.
Proof.
  apply (constructor_returns_with_stored_list (localStorage two_tasks_one_id)).
  vm_compute. reflexivity.
Defined.

(** X7: the constructor throws only on a stored text that is not
    empty, and in two ways: a [SyntaxError] when the text is not JSON, the
    application then being left with its empty list and a page that was
    not drawn; or a [TypeError] from the drawing, the list then being
    whatever value the text denotes. *)
Theorem constructor_throws_on_stored_text (storage : gmap string string) (e : error)
    (st' : app) :
  TodoApp.constructor (browser storage) = (Throw e, st') ->
  exists text : string,
    storage !! "tasks" = Some text /\ text <> "" /\
    ((e = SyntaxError /\ JSON.parse text = Throw SyntaxError /\
      st' = initialised storage) \/
     (e = TypeError /\ exists v, JSON.parse text = Return v /\ tasks st' = v)).
Proof.
  rewrite constructor_run, loadTasks_run. cbn [initialised localStorage].
  assert (Hempty : TodoApp.renderTasks (initialised storage) <> (Throw e, st')).
  { rewrite (renderTasks_run (initialised storage) []);
      [discriminate | reflexivity | constructor | constructor]. }
  destruct (storage !! "tasks") as [text|]; [|intros H; destruct (Hempty H)].
  destruct (String.eqb text "") eqn:Et; [intros H; destruct (Hempty H)|].
  apply String.eqb_neq in Et. intros H.
  exists text. split; [reflexivity|]. split; [exact Et|].
  destruct (JSON.parse text) as [v|e'] eqn:Ep.
  - right. pose proof (renderTasks_Throw (with_tasks v (initialised storage)) e) as He.
    pose proof (renderTasks_tasks (with_tasks v (initialised storage))) as Ht.
    rewrite H in He, Ht. cbn [fst snd] in He, Ht.
    split; [apply He; reflexivity|]. exists v. split; [reflexivity | exact Ht].
  - left. injection H as <- <-.
    rewrite (parse_throws_SyntaxError text e' Ep). repeat split.
Qed.

Lemma constructor_throws_on_stored_text_witness :
  exists text : string,
    ({[ "tasks" := "{oops" ]} : gmap string string) !! "tasks" = Some text /\
    text <> "" /\
    ((SyntaxError = SyntaxError /\ JSON.parse text = Throw SyntaxError /\
      state_after (TodoApp.constructor (browser {[ "tasks" := "{oops" ]}))
      = initialised {[ "tasks" := "{oops" ]}) \/
     (SyntaxError = TypeError /\
      exists v, JSON.parse text = Return v /\
                tasks (state_after (TodoApp.constructor (browser {[ "tasks" := "{oops" ]})))
                = v)).
Proof.
  apply (constructor_throws_on_stored_text {[ "tasks" := "{oops" ]}).
  vm_compute. reflexivity.
Defined.

(** X8: a reload of the page after a session.  When the list consists
    of tasks made by [addTask] from strings and the storage mirrors it,
    the constructor run on that storage returns normally, with one plain
    object for each task, whose four string fields are those of the task
    and whose [createdAt] is the ISO text of its date; the page shows all
    of them, the counters being the number of tasks and the number of
    those whose status is ['completed']; the storage is unchanged and
    still mirrors the list: saving what was loaded writes the same
    text. *)
Theorem reload_restores_session (st : app) (inputs : list add_input) :
  tasks st = VArray (List.map new_task inputs) ->
  in_sync st ->
  reload st
  = (Return tt,
     drawn (with_tasks (VArray (List.map loaded_task inputs))
              (initialised (localStorage st)))
       (List.map loaded_task inputs)) /\
  Forall2 reloaded_from (List.map new_task inputs) (List.map loaded_task inputs) /\
  in_sync (state_after (reload st)) /\
  localStorage (state_after (reload st)) = localStorage st /\
  taskList (state_after (reload st)) = List.map item_of (List.map loaded_task inputs) /\
  totalTasks (state_after (reload st)) = List.length inputs /\
  completedTasks (state_after (reload st))
  = List.length (List.filter (fun i => String.eqb (arg_status i) TaskStatus.COMPLETED)
                   inputs).
Proof.
  intros Hl (text & Htext & Hstore).
  rewrite Hl, text_of_new_tasks in Htext. injection Htext as <-.
  assert (Hreload : reload st
                    = (Return tt,
                       drawn (with_tasks (VArray (List.map loaded_task inputs))
                                (initialised (localStorage st)))
                         (List.map loaded_task inputs))).
  { unfold reload. rewrite constructor_run, loadTasks_run. cbn [localStorage initialised].
    rewrite Hstore. rewrite append_cons at 1. cbn [String.eqb negb].
    rewrite parse_new_tasks.
    apply renderTasks_run_all; [reflexivity|].
    apply Forall_map_all. exact loaded_task_renders. }
  rewrite Hreload. unfold state_after.
  cbn [snd drawn with_tasks initialised tasks currentFilter localStorage taskList
       totalTasks completedTasks shown String.eqb Ascii.eqb Bool.eqb].
  split; [reflexivity|]. split; [apply new_tasks_reloaded|].
  split.
  { exists ("[" ++ String.concat "," (List.map task_text inputs) ++ "]").
    split; [apply text_of_loaded_tasks | exact Hstore]. }
  split; [reflexivity|]. split; [reflexivity|].
  split; [apply length_map|].
  apply count_completed. exact is_completed_loaded_task.
Qed.

Lemma reload_restores_session_witness :
  tasks (state_after (reload two_tasks_one_id))
  = VArray [loaded_task twin_a; loaded_task twin_b] /\
  in_sync (state_after (reload two_tasks_one_id)).
Proof.
  destruct (reload_restores_session two_tasks_one_id [twin_a; twin_b])
    as (Hrun & _ & Hsync & _).
  - vm_compute. reflexivity.
  - eexists. split; vm_compute; reflexivity.
  - split; [rewrite Hrun; reflexivity | exact Hsync].
Defined.

(** X9: when the task list is not an array (the storage held JSON of
    another kind), [addTask], [updateTaskStatus] and [deleteTask] throw a
    [TypeError] and change nothing, the storage in particular is not
    overwritten; and [renderTasks] throws a [TypeError] after it has
    emptied the page. *)
Theorem non_array_list_stops_every_operation (m : mutation) (st : app) :
  (forall l, tasks st <> VArray l) ->
  run_mutation m st = (Throw TypeError, st) /\
  fst (TodoApp.renderTasks st) = Throw TypeError /\
  taskList (state_after (TodoApp.renderTasks st)) = [].
Proof.
  intros Hn. split; [apply run_mutation_not_array; exact Hn|].
  rewrite renderTasks_unfold. unfold TodoApp.getFilteredTasks. monad_unfold.
  cbn [with_rows currentFilter tasks].
  destruct (String.eqb (currentFilter st) "all"); cbn [with_rows tasks];
    destruct (tasks st) as [ | |b|n x|s|t|name|l|p props] eqn:E;
    try (split; reflexivity); exfalso; eapply Hn; reflexivity.
Qed.

Lemma non_array_list_stops_every_operation_witness :
  run_mutation (DeleteTask "i")
    (state_after (TodoApp.constructor (browser {[ "tasks" := "{}" ]})))
  = (Throw TypeError, state_after (TodoApp.constructor (browser {[ "tasks" := "{}" ]}))) /\
  fst (TodoApp.renderTasks
         (state_after (TodoApp.constructor (browser {[ "tasks" := "{}" ]}))))
  = Throw TypeError /\
  taskList (state_after
              (TodoApp.renderTasks
                 (state_after (TodoApp.constructor (browser {[ "tasks" := "{}" ]})))))
  = [].
Proof.
  apply (non_array_list_stops_every_operation (DeleteTask "i")
           (state_after (TodoApp.constructor (browser {[ "tasks" := "{}" ]})))).
  intros l. vm_compute. discriminate.
Defined.

(** X10: what an event of a session (a click on the add button or on a
    filter button, a change of a status selector, a call of
    [deleteTask]) leaves alone, however it ends.  No event changes an
    item of the storage other than "tasks"; the add button, a status
    selector and a call of [deleteTask] never change the filter; a
    filter button changes neither the task list nor the storage. *)
Theorem events_keep_other_storage_and_filter (e : event) (st : app) :
  delete "tasks" (localStorage (state_after (handle e st)))
  = delete "tasks" (localStorage st) /\
  match e with
  | FilterClick category =>
      tasks (state_after (handle e st)) = tasks st /\
      localStorage (state_after (handle e st)) = localStorage st
  | _ => currentFilter (state_after (handle e st)) = currentFilter st
  end.
Proof.
  assert (Hm : forall m,
            delete "tasks" (localStorage (state_after (run_mutation m st)))
            = delete "tasks" (localStorage st) /\
            currentFilter (state_after (run_mutation m st)) = currentFilter st).
  { intros m. destruct (run_mutation_shape m st) as [[c ->]|[l ->]].
    - split; reflexivity.
    - destruct (renderTasks_store (persisted (with_tasks (VArray l) st)))
        as (_ & Hf & Hs).
      unfold state_after. rewrite Hf, Hs. cbn [persisted with_tasks localStorage currentFilter].
      split; [apply delete_insert_eq | reflexivity]. }
  destruct e as [r now input category status | category | id value | id];
    cbn [handle].
  - rewrite add_click_run. destruct (String.eqb (trim input) "").
    + split; reflexivity.
    + apply (Hm (AddTask r now (VString (trim input)) (VString category)
                   (VString status))).
  - rewrite filter_click_run.
    destruct (renderTasks_store (with_filter category st)) as (Ht & _ & Hs).
    unfold state_after. rewrite Ht, Hs. repeat split.
  - apply (Hm (UpdateTaskStatus id (VString value))).
  - apply (Hm (DeleteTask id)).
Qed.

(** X11: an event of a session (a click on the add button or on a
    filter button, a change of a status selector, a call of
    [deleteTask]) that throws, throws a [TypeError] (a write to the
    storage being taken to succeed): only the constructor, which parses
    the stored text, can throw a [SyntaxError]. *)
Theorem events_throw_only_TypeError (e : event) (st : app) (err : error) :
  fst (handle e st) = Throw err -> err = TypeError.
Proof.
  destruct e as [r now input category status | category | id value | id];
    cbn [handle].
  - rewrite add_click_run. destruct (String.eqb (trim input) ""); [discriminate|].
    apply (run_mutation_Throw
             (AddTask r now (VString (trim input)) (VString category) (VString status))).
  - rewrite filter_click_run. apply renderTasks_Throw.
  - apply (run_mutation_Throw (UpdateTaskStatus id (VString value))).
  - apply (run_mutation_Throw (DeleteTask id)).
Qed.

Lemma events_throw_only_TypeError_witness :
  fst (handle (StatusChange "4xmvue8bu" "completed")
         (state_after (reload (state_after (add_milk fresh_app)))))
  = Throw TypeError /\
  TypeError = TypeError.
Proof.
  split; [vm_compute; reflexivity|].
  apply (events_throw_only_TypeError (StatusChange "4xmvue8bu" "completed")
           (state_after (reload (state_after (add_milk fresh_app))))).
  vm_compute. reflexivity.
Defined.

(** X12: on a list whose tasks can all be drawn, an event of a session
    (a click on the add button or on a filter button, a change of a
    status selector, a call of [deleteTask]) leaves such a list again;
    it either returns normally or throws a [TypeError] with the state
    exactly as it was; and only a status selector can throw: the add
    button, the filter buttons and the calls of [deleteTask] always
    return normally (a write to the storage being taken to succeed). *)
Theorem events_on_drawable_list (e : event) (st : app) :
  drawable st ->
  drawable (state_after (handle e st)) /\
  (fst (handle e st) = Return tt \/ handle e st = (Throw TypeError, st)) /\
  match e with
  | StatusChange _ _ => True
  | _ => fst (handle e st) = Return tt
  end.
Proof.
  intros (l & Hl & Hr).
  destruct (handle_on_drawable e st l Hl Hr)
    as [[H (id & value & ->)]|[H|(st0 & l' & Hr' & Hl' & H)]];
    rewrite H; unfold state_after; cbn [fst snd].
  - split; [exists l; split; assumption|]. split; [right; reflexivity | exact I].
  - split; [exists l; split; assumption|]. split; [left; reflexivity|].
    destruct e; reflexivity || exact I.
  - split; [exists l'; split; [exact Hl' | exact Hr']|]. split; [left; reflexivity|].
    destruct e; reflexivity || exact I.
Qed.

Lemma events_on_drawable_list_witness :
  drawable (state_after (handle (DeleteCall "i") two_tasks_one_id)) /\
  (fst (handle (DeleteCall "i") two_tasks_one_id) = Return tt \/
   handle (DeleteCall "i") two_tasks_one_id = (Throw TypeError, two_tasks_one_id)) /\
  fst (handle (DeleteCall "i") two_tasks_one_id) = Return tt.
Proof.
  apply (events_on_drawable_list (DeleteCall "i") two_tasks_one_id).
  exists [new_task twin_a; new_task twin_b]. split; [vm_compute; reflexivity|].
  repeat constructor; eexists; reflexivity.
Defined.

(** X13: once the constructor has returned normally, after any
    sequence of clicks on the add button and on filter buttons, of
    changes of status selectors and of calls of [deleteTask], whether
    they return or throw, the page agrees with the data: the list is an array of tasks that can be
    drawn, the rows are those of the tasks that the current filter lets
    through, and the counters are the number of tasks and of completed
    tasks of the whole list. *)
Theorem page_stays_consistent (storage : gmap string string) (st : app)
    (events : list event) :
  TodoApp.constructor (browser storage) = (Return tt, st) ->
  exists l : list value,
    tasks (run_events events st) = VArray l /\
    Forall renders l /\
    taskList (run_events events st)
    = List.map item_of (shown (currentFilter (run_events events st)) l) /\
    totalTasks (run_events events st) = List.length l /\
    completedTasks (run_events events st)
    = List.length (List.filter is_completed l).
Proof.
  intros H.
  assert (Hc : consistent st).
  { apply constructor_Return in H as (l0 & _ & Hd & ->).
    apply consistent_drawn; [reflexivity | exact Hd]. }
  destruct (run_events_consistent events st Hc) as (l & Hl & Hr & Hst).
  exists l. split; [exact Hl|]. split; [exact Hr|].
  rewrite Hst at 1 3 4. cbn [drawn taskList totalTasks completedTasks currentFilter].
  repeat split.
Qed.

Lemma page_stays_consistent_witness :
  exists l : list value,
    tasks (run_events [FilterClick "work"; DeleteCall "i"]
             (state_after (reload two_tasks_one_id))) = VArray l /\
    Forall renders l /\
    taskList (run_events [FilterClick "work"; DeleteCall "i"]
                (state_after (reload two_tasks_one_id)))
    = List.map item_of
        (shown (currentFilter (run_events [FilterClick "work"; DeleteCall "i"]
                                 (state_after (reload two_tasks_one_id)))) l) /\
    totalTasks (run_events [FilterClick "work"; DeleteCall "i"]
                  (state_after (reload two_tasks_one_id))) = List.length l /\
    completedTasks (run_events [FilterClick "work"; DeleteCall "i"]
                      (state_after (reload two_tasks_one_id)))
    = List.length (List.filter is_completed l).
Proof.
  apply (page_stays_consistent (localStorage two_tasks_one_id)).
  vm_compute. reflexivity.
Defined.

(** X14: [updateTaskStatus] on the tasks of a session.  In a list of
    tasks made by [addTask] from strings, a call with the identifier of
    one of them and a string returns normally and changes the first task
    with that identifier, and only it, into the task that [addTask]
    would have made with the new status; the new list is written to the
    storage, and the page is redrawn from it with the counters of the
    new list. *)
Theorem updateTaskStatus_in_session (st : app) (before after : list add_input)
    (i : add_input) (s : string) :
  tasks st = VArray (List.map new_task (before ++ i :: after)) ->
  Forall (fun j => task_id j <> task_id i) before ->
  TodoApp.updateTaskStatus (task_id i) (VString s) st
  = (Return tt,
     drawn (persisted (with_tasks
                         (VArray (List.map new_task (before ++ with_status s i :: after)))
                         st))
       (List.map new_task (before ++ with_status s i :: after))) /\
  in_sync (state_after (TodoApp.updateTaskStatus (task_id i) (VString s) st)) /\
  totalTasks (state_after (TodoApp.updateTaskStatus (task_id i) (VString s) st))
  = List.length (before ++ i :: after) /\
  completedTasks (state_after (TodoApp.updateTaskStatus (task_id i) (VString s) st))
  = List.length (List.filter (fun j => String.eqb (arg_status j) TaskStatus.COMPLETED)
                   (before ++ with_status s i :: after)).
Proof.
  intros Hl Hfresh.
  assert (Hrun : TodoApp.updateTaskStatus (task_id i) (VString s) st
                 = TodoApp.renderTasks
                     (persisted (with_tasks
                        (VArray (List.map new_task (before ++ with_status s i :: after)))
                        st))).
  { rewrite (updateTaskStatus_run st _ (task_id i) (VString s) Hl).
    rewrite (find_by_id_session before after i Hfresh).
    change (to_boolean (new_task i)) with true. cbv iota.
    rewrite call_updateStatus_new_task, insert_session. reflexivity. }
  rewrite Hrun.
  rewrite (renderTasks_run_all _ (List.map new_task (before ++ with_status s i :: after)));
    [|reflexivity | apply Forall_map_all; exact new_task_renders].
  unfold state_after, in_sync.
  cbn [snd drawn persisted with_tasks tasks localStorage totalTasks completedTasks].
  split; [reflexivity|]. split.
  { eexists. split; [apply text_of_new_tasks|].
    rewrite text_of_new_tasks. apply lookup_insert_eq. }
  split; [rewrite length_map, !length_app; reflexivity|].
  apply count_completed. exact is_completed_new_task.
Qed.

Lemma updateTaskStatus_in_session_witness :
  tasks (state_after
           (TodoApp.updateTaskStatus (task_id twin_a) (VString "completed")
              two_tasks_one_id))
  = VArray [new_task (with_status "completed" twin_a); new_task twin_b] /\
  completedTasks (state_after
                    (TodoApp.updateTaskStatus (task_id twin_a) (VString "completed")
                       two_tasks_one_id))
  = 1%nat.
Proof.
  destruct (updateTaskStatus_in_session two_tasks_one_id [] [twin_b] twin_a "completed")
    as (Hrun & _ & _ & Hdone).
  - vm_compute. reflexivity.
  - constructor.
  - split; [rewrite Hrun; reflexivity | exact Hdone].
Defined.

(** X15: an identifier that no task of the list has.
    [updateTaskStatus] returns normally and leaves the whole state as it
    is, storage and page included; [deleteTask] keeps the list too, but
    still writes it to the storage and redraws the page. *)
Theorem unknown_id_update_keeps_state_delete_saves (st : app) (l : list value)
    (taskId : string) (newStatus : value) :
  tasks st = VArray l ->
  Forall (fun t => readable t = true) l ->
  (forall t, In t l -> has_id taskId t = false) ->
  TodoApp.updateTaskStatus taskId newStatus st = (Return tt, st) /\
  TodoApp.deleteTask taskId st = TodoApp.renderTasks (persisted st).
Proof.
  intros Hl Hr Habsent. split.
  - apply (updateTaskStatus_absent st l); assumption.
  - rewrite (deleteTask_run st l taskId Hl Hr).
    rewrite (filter_all (fun t => negb (has_id taskId t)) l)
      by (intros t Ht; rewrite (Habsent t Ht); reflexivity).
    do 2 f_equal. destruct st; cbn in Hl; subst; reflexivity.
Qed.

Lemma unknown_id_update_keeps_state_delete_saves_witness :
  TodoApp.updateTaskStatus "zzz" (VString "completed") (state_after (add_milk fresh_app))
  = (Return tt, state_after (add_milk fresh_app)) /\
  TodoApp.deleteTask "zzz" (state_after (add_milk fresh_app))
  = TodoApp.renderTasks (persisted (state_after (add_milk fresh_app))).
Proof.
  apply (unknown_id_update_keeps_state_delete_saves (state_after (add_milk fresh_app))
           [new_task milk]).
  - vm_compute. reflexivity.
  - repeat constructor.
  - intros t [<-|[]]. vm_compute. reflexivity.
Defined.

(** X16: [deleteTask] twice is [deleteTask] once: after a call that
    returned normally, the same call returns normally and leaves the
    state, list, storage and page, exactly as it found it. *)
Theorem deleteTask_twice_is_once (taskId : string) (st s1 : app) :
  TodoApp.deleteTask taskId st = (Return tt, s1) ->
  TodoApp.deleteTask taskId s1 = (Return tt, s1).
Proof.
  intros H.
  destruct (tasks_array_or_not st) as [[l Hl]|Hn];
    [|pose proof (run_mutation_not_array (DeleteTask taskId) st Hn) as Ht;
      cbn [run_mutation] in Ht; rewrite Ht in H; discriminate].
  rewrite (deleteTask_run_any st l taskId Hl) in H.
  destruct (array_filter _ l) as [l'|e] eqn:E; [|discriminate].
  apply (array_filter_Return (fun id => negb (strict_equals_string id taskId))) in E
    as [Hr ->].
  set (l' := List.filter _ l) in *.
  pose proof H as H'.
  apply renderTasks_Return in H' as (l0 & Hl0 & _ & _ & Hs1).
  cbn [persisted with_tasks tasks] in Hl0. injection Hl0 as <-.
  assert (Hl1 : tasks s1 = VArray l') by (rewrite Hs1; reflexivity).
  rewrite (deleteTask_run_any s1 l' taskId Hl1).
  rewrite (array_filter_readable (fun id => negb (strict_equals_string id taskId)) "id" l')
    by (apply Forall_filter_keep; exact Hr).
  unfold l' at 1. rewrite filter_idem. fold l'.
  eapply renderTasks_same_store; [|exact H].
  rewrite Hs1. repeat split.
  cbn [persisted with_tasks drawn localStorage tasks]. apply insert_insert_eq.
Qed.

Lemma deleteTask_twice_is_once_witness :
  TodoApp.deleteTask "i" (state_after (TodoApp.deleteTask "i" two_tasks_one_id))
  = (Return tt, state_after (TodoApp.deleteTask "i" two_tasks_one_id)).
Proof.
  apply (deleteTask_twice_is_once "i" two_tasks_one_id). vm_compute. reflexivity.
Defined.

(** X17: [addTask] followed by [deleteTask] of the new identifier.
    When no task of the list has the identifier that the new task gets,
    the two calls leave the list as it was, the filter as it was, and the
    storage as a save of that list. *)
Theorem addTask_then_deleteTask_restores (st : app) (l : list value) (r : random)
    (now : Z) (title category status : value) :
  tasks st = VArray l ->
  Forall (fun t => readable t = true) l ->
  (forall t, In t l -> has_id (js_substring (toString36 r) 2 11) t = false) ->
  same_store (persisted st)
    (state_after
       (TodoApp.deleteTask (js_substring (toString36 r) 2 11)
          (state_after (TodoApp.addTask r now title category status st)))).
Proof.
  intros Hl Hr Hfresh.
  set (id := js_substring (toString36 r) 2 11) in *.
  set (t := Task.constructor r now title category status).
  set (sa := state_after (TodoApp.addTask r now title category status st)).
  assert (Hsa : same_store (persisted (with_tasks (VArray (l ++ [t])) st)) sa).
  { unfold sa, state_after. rewrite (addTask_run st l r now title category status Hl).
    apply renderTasks_store. }
  destruct Hsa as (Hta & Hfa & Hsa). cbn [persisted with_tasks tasks currentFilter
                                          localStorage] in Hta, Hfa, Hsa.
  unfold state_after.
  rewrite (deleteTask_run sa (l ++ [t]) id Hta).
  2:{ apply Forall_app. split; [exact Hr|]. constructor; [reflexivity | constructor]. }
  rewrite List.filter_app. cbn [List.filter].
  assert (Hid : has_id id t = true) by (apply String.eqb_refl).
  rewrite Hid. cbn [negb]. rewrite app_nil_r.
  rewrite (filter_all (fun x => negb (has_id id x)) l)
    by (intros x Hx; rewrite (Hfresh x Hx); reflexivity).
  eapply same_store_trans; [|apply renderTasks_store].
  repeat split; cbn [persisted with_tasks tasks currentFilter localStorage].
  - symmetry. exact Hl.
  - exact Hfa.
  - rewrite Hsa, Hl. apply insert_insert_eq.
Qed.

Lemma addTask_then_deleteTask_restores_witness :
  same_store (persisted (state_after (add_milk fresh_app)))
    (state_after
       (TodoApp.deleteTask (js_substring (toString36 one_half) 2 11)
          (state_after (TodoApp.addTask one_half 1700000000500 (VString "Call Ann")
                          (VString "work") (VString "in-progress")
                          (state_after (add_milk fresh_app)))))).
Proof.
  apply (addTask_then_deleteTask_restores (state_after (add_milk fresh_app))
           [new_task milk]).
  - vm_compute. reflexivity.
  - repeat constructor.
  - intros t [<-|[]]. vm_compute. reflexivity.
Defined.

(** X18: the add button.  On an input of white space only nothing
    happens: no task is added, nothing is saved, nothing is redrawn.
    Otherwise the task added has for title the input without the white
    space at its two ends: the input is that title between two runs of
    white space, and the title is not empty and has no white space left
    to trim. *)
Theorem add_click_adds_trimmed_title (r : random) (now : Z)
    (input category status : string) (st : app) (l : list value) :
  tasks st = VArray l ->
  (all_spaces input = true ->
   TodoApp.add_click r now input category status st = (Return tt, st)) /\
  (all_spaces input = false ->
   exists lead title trail : string,
     input = lead ++ title ++ trail /\
     all_spaces lead = true /\ all_spaces trail = true /\
     title <> "" /\ trim title = title /\
     tasks (state_after (TodoApp.add_click r now input category status st))
     = VArray (l ++ [Task.constructor r now (VString title) (VString category)
                       (VString status)])).
Proof.
  intros Hl. rewrite add_click_run. split.
  - intros H. apply trim_empty in H. rewrite H. reflexivity.
  - intros H.
    assert (Hne : trim input <> "").
    { intros E. apply trim_empty in E. congruence. }
    destruct (trim_split input) as (lead & trail & Hin & Hlead & Htrail).
    exists lead, (trim input), trail.
    split; [exact Hin|]. split; [exact Hlead|]. split; [exact Htrail|].
    split; [exact Hne|]. split; [apply trim_idem|].
    apply String.eqb_neq in Hne. rewrite Hne.
    unfold state_after. rewrite (addTask_run st l _ _ _ _ _ Hl).
    rewrite renderTasks_tasks. reflexivity.
Qed.

Lemma add_click_adds_trimmed_title_witness :
  exists lead title trail : string,
    "  Buy milk " = lead ++ title ++ trail /\
    all_spaces lead = true /\ all_spaces trail = true /\
    title <> "" /\ trim title = title /\
    tasks (state_after (TodoApp.add_click some_random 1700000000000 "  Buy milk "
                          "home" "not-started" fresh_app))
    = VArray ([] ++ [Task.constructor some_random 1700000000000 (VString title)
                       (VString "home") (VString "not-started")]).
Proof.
  apply (add_click_adds_trimmed_title some_random 1700000000000 "  Buy milk "
           "home" "not-started" fresh_app []); reflexivity.
Defined.

(** X19: the identifier of a new task is made of digits and lower-case
    letters only, for every number in [0, 1) that [Math.random] can
    return: it has no quote or other character that would break the
    attributes of its row ([data-id] and the inline [onclick]). *)
Theorem task_id_is_base36 (r : random) (now : Z) (title category status : value) :
  random_in_range r = true ->
  exists id : string,
    prop (Task.constructor r now title category status) "id" = VString id /\
    string_forall is_base36 id = true.
Proof.
  intros Hr. exists (js_substring (toString36 r) 2 11). split; [reflexivity|].
  apply toString36_id_base36. exact Hr.
Qed.

Lemma task_id_is_base36_witness :
  exists id : string,
    prop (new_task milk) "id" = VString id /\ string_forall is_base36 id = true.
Proof.
  apply (task_id_is_base36 some_random). reflexivity.
Defined.

(** X20: the two methods of a task together.  After
    [updateStatus(v1)] the status is [v1]; a second [updateStatus(v2)]
    leaves the task that [updateStatus(v2)] alone would have left; and
    [updateStatus] never changes what [calculatePriority] returns. *)
Theorem updateStatus_last_wins (p : proto) (props : list (string * value))
    (v1 v2 : value) (now : Z) :
  Task.updateStatus (Task.updateStatus (VObject p props) v1) v2
  = Task.updateStatus (VObject p props) v2 /\
  prop (Task.updateStatus (VObject p props) v1) "status" = v1 /\
  Task.calculatePriority now (Task.updateStatus (VObject p props) v1)
  = Task.calculatePriority now (VObject p props).
Proof.
  split; [|split; [apply set_status_same|]];
    unfold Task.updateStatus, Task.set_property, JSON.define_property;
    change (JSON.index_of_key "status") with (@None N); cbv iota;
    destruct (JSON.replace_value "status" v1 props) as [props1|] eqn:E1.
  - rewrite (replace_value_twice "status" v1 v2 props props1 E1).
    destruct (JSON.replace_value "status" v2 props) as [props2|] eqn:E2;
      [reflexivity|].
    destruct (replace_value_appended "status" v2 v1 props E2) as [_ Hn]. congruence.
  - destruct (replace_value_appended "status" v1 v2 props E1) as [Ha Hn].
    rewrite Ha, Hn. reflexivity.
  - unfold Task.calculatePriority.
    rewrite (replace_value_other "createdAt" "status" v1 props props1);
      [reflexivity | discriminate | exact E1].
  - unfold Task.calculatePriority. rewrite own_property_app.
    destruct (own_property "createdAt" props); reflexivity.
Qed.
